(** * meson-cli: the bridge orchestration workflow

    A shallow embedding of [packages/meson-cli/src]: the relayer client
    ([api.ts]), the contract service ([contract.ts]), and the two flows and
    the two validators of the command-line entry point ([index.ts]).

    Conventions of the embedding.
    - A JavaScript [number] is an IEEE 754 binary64 value, [spec_float];
      [<] and [>] are the IEEE comparisons, false as soon as an operand is
      NaN.
    - A [bigint] is a [Z]; bigint division truncates towards zero
      ([Z.quot]).
    - An optional property ([addr?: string]) is an [option]; a test such as
      [if (x)] or [x ? a : b] on it goes through [truthy], which is false on
      [undefined] and on the empty string.
    - Every [throw] is a constructor of [error] that names the throw site
      and carries the values interpolated in its message.
    - Everything the program does to the outside (console lines, relayer
      requests, signing, chain transactions) is an [event]; a run is the
      list of its events together with its outcome.  What the outside
      answers is read from a [World].
    - Debug output ([this.log], [console.debug]) is not part of the model:
      it is gated by the [debug] option and prints, never branches. *)

From Stdlib Require Import String Ascii List ZArith Bool Lia.
From Stdlib Require Import Floats.SpecFloat.
From Stdlib Require Import DecimalString.
Import ListNotations.
Open Scope string_scope.

(* ===================================================================== *)
(** ** JavaScript values *)
(* ===================================================================== *)

(** [number]: binary64. *)
Definition number : Type := spec_float.

Definition NaN : number := S754_nan.
Definition Infinity : number := S754_infinity false.
(** The literal [0]. *)
Definition zero : number := S754_zero false.

(** [a < b] and [a > b] on numbers. *)
Definition num_lt (a b : number) : bool := SFltb a b.
Definition num_gt (a b : number) : bool := SFltb b a.

(** Truthiness of a [string | undefined]. *)
Definition truthy (x : option string) : bool :=
  match x with
  | Some EmptyString => false
  | Some _ => true
  | None => false
  end.

(** Truthiness of a [string]. *)
Definition nonempty (s : string) : bool :=
  match s with
  | EmptyString => false
  | _ => true
  end.

(** [x === y] between a string and a [string | undefined]. *)
Definition strict_eq (x : string) (y : option string) : bool :=
  match y with
  | Some s => String.eqb x s
  | None => false
  end.

(** [s.split(sep)] for a one-character separator. *)
Fixpoint split (sep : ascii) (s : string) : list string :=
  match s with
  | EmptyString => [EmptyString]
  | String c s' =>
      if Ascii.eqb c sep then EmptyString :: split sep s'
      else match split sep s' with
           | [] => [String c EmptyString]
           | p :: ps => String c p :: ps
           end
  end.

(** The line feed of a ["\n"] in a template. *)
Definition nl : string := String (ascii_of_nat 10) EmptyString.

(* ===================================================================== *)
(** ** Data model ([types.ts]) *)
(* ===================================================================== *)

Module Token.
Record t := mk {
  id : string;
  addr : option string;
  min : option string;
  max : option string
}.
End Token.

Module Chain.
Record t := mk {
  id : string;
  name : string;
  chainId : string;
  address : string;
  destinationChainOnly : option bool;
  tokens : list Token.t
}.
End Chain.

Module ChainLimit.
Record t := mk {
  id : string;
  name : string;
  tokens : list Token.t
}.
End ChainLimit.

Module Fee.
Record t := mk {
  serviceFee : string;
  lpFee : string;
  totalFee : string
}.
End Fee.

Module Converted.
Record t := mk {
  amount : string;
  token : string
}.
End Converted.

Module SigningRequest.
Record t := mk {
  message : string;
  hash : string
}.
End SigningRequest.

Module EncodeSwapResult.
Record t := mk {
  encoded : string;
  fromAddress : option string;
  fromContract : option string;
  recipient : string;
  fee : Fee.t;
  converted : option Converted.t;
  signingRequest : option SigningRequest.t;
  initiator : option string
}.

(** [encodedData.initiator = v]. *)
Definition set_initiator (v : string) (r : t) : t :=
  mk (encoded r) (fromAddress r) (fromContract r) (recipient r) (fee r)
     (converted r) (signingRequest r) (Some v).
End EncodeSwapResult.

Module SwapResult.
Record t := mk {
  swapId : string
}.
End SwapResult.

Module ApiError.
Record t := mk {
  code : Z;
  message : string;
  data : option string
}.
End ApiError.

(** [MesonApiResponse<T>]: both properties are optional.  The result types
    of the relayer operations are arrays and objects, which are truthy, so
    [if (response.data.result)] tests the presence of the property; the same
    holds of [error], an object. *)
Module MesonApiResponse.
Record t (T : Type) := mk {
  result : option T;
  error : option ApiError.t
}.
Arguments mk {T} _ _.
Arguments result {T} _.
Arguments error {T} _.
End MesonApiResponse.

Module EncodeSwapParams.
Record t := mk {
  from : string;
  to : string;
  amount : string;
  fromAddress : string;
  recipient : string;
  fromContract : option bool;
  dataToContract : option string
}.
End EncodeSwapParams.

(** The options of the two commands: [BridgeOptions], and for
    [bridge-contract] the four further properties of its action. *)
Module BridgeOptions.
Record t := mk {
  from : string;
  to : string;
  amount : string;
  recipient : string;
  privateKey : option string;
  dryRun : bool;
  debug : bool;
  mesonContract : option string;
  transferContract : option string;
  deployIfMissing : bool;
  rpcUrl : string
}.
End BridgeOptions.

(** The transaction populated by [transferToMeson.populateTransaction]:
    the target contract, the two arguments of the call and the value. *)
Module Tx.
Record t := mk {
  to : string;
  encodedSwap : Z;
  initiator : option string;
  value : Z
}.
End Tx.

(* ===================================================================== *)
(** ** Errors, events and the world *)
(* ===================================================================== *)

(** One constructor per [throw] site; the comment gives the message. *)
Inductive error : Type :=
| MissingPrivateKeyError
    (* 'Private key must be provided via --private-key option or
       PRIVATE_KEY environment variable.' *)
| InvalidKeyError (cause : string)
    (* thrown by [new ethers.Wallet(privateKey)] *)
| SigningError (cause : string)
    (* rethrown by [signMessageHash] *)
| ServiceError (message : string)
    (* `Error <operation>: ${response.data.error.message}` *)
| ProtocolError
    (* 'Invalid response format from Meson API' *)
| TransportError (cause : string)
    (* the rejection of [axios(config)], rethrown *)
| UnsupportedChainError (type chainId : string)
    (* `${Type} chain '${chainId}' is not supported.` *)
| UnsupportedTokenError (type : string) (tokenId : option string)
                        (chainId : string)
    (* `${Type} token '${tokenId}' is not supported on chain
       '${chainId}'.` *)
| AmountOutOfRangeError (amount : number) (tokenId : option string)
                        (chainId : string) (minSwap maxSwap : number)
    (* `Amount ${amount} is outside the allowed limits for ${tokenId} on
       ${chainId} (${minSwap} - ${maxSwap}).` *)
| MissingEncodedDataError
    (* 'Failed to encode swap: missing required data in response' *)
| ContractAddressNotFoundError (chain : string)
    (* `Could not find Meson contract address for chain ${fromChain}.
       Please provide it with --meson-contract option.` *)
| MissingIntermediaryContractError
    (* 'TransferToMeson contract address not provided and deployment not
       requested' *)
| DeploymentError (cause : string)
    (* rethrown by [deployTransferToMesonContract] *)
| ContractCallError (cause : string).
    (* thrown while building, estimating, sending or confirming the call
       of [callTransferToMeson], rethrown *)

(** What a call into a library or to the network comes back with. *)
Inductive outcome (A : Type) : Type :=
| Returns (a : A)
| Throws (cause : string).
Arguments Returns {A} _.
Arguments Throws {A} _.

(** The requests [api.ts] sends to the relayer. *)
Inductive request : Type :=
| GetList                                    (* GET  /list *)
| GetLimits                                  (* GET  /limits *)
| PostSwap (payload : EncodeSwapParams.t)    (* POST /swap *)
| PostSwapEncoded (encodedSwap fromAddress recipient signature : string)
                                             (* POST /swap/${encodedSwap} *)
| PostSwapFromContract (encodedSwap hash : string).
                                  (* POST /swap/from-contract/${encodedSwap} *)

Inductive event : Type :=
| ConsoleLog (line : string)
| ConsoleWarn (line : string)
| ConsoleError (line cause : string)
| Axios (r : request)
| SignHash (messageHash : string)            (* wallet.signingKey.sign *)
| Deploy (mesonContractAddress : string)     (* factory.deploy *)
| WaitDeployment                   (* contract.deploymentTransaction().wait *)
| EstimateGas (tx : Tx.t)                    (* provider.estimateGas *)
| SendTransaction (tx : Tx.t) (gasLimit : Z) (* wallet.sendTransaction *)
| WaitReceipt (hash : string).               (* response.wait *)

(** The answers of the environment, of the JavaScript and ethers library
    functions, of the relayer and of the chain behind the RPC endpoint.
    [axios(config)] throws on a connection failure, on a timeout and on a
    response whose status is not 2xx; otherwise it returns the body,
    [response.data].  [populateTransaction] either throws or returns the
    transaction built from its arguments. *)
Record World : Type := mkWorld {
  PRIVATE_KEY : option string;               (* process.env.PRIVATE_KEY *)
  parseFloat : string -> number;
  JSON_stringify : Fee.t -> string;
  BigInt : string -> outcome Z;
  parseEther : string -> outcome Z;
  Wallet_address : string -> outcome string;
  signingKey_sign : string -> string -> outcome string;
  axios_list : outcome (MesonApiResponse.t (list Chain.t));
  axios_limits : outcome (MesonApiResponse.t (list ChainLimit.t));
  axios_swap : EncodeSwapParams.t ->
               outcome (MesonApiResponse.t EncodeSwapResult.t);
  axios_swap_encoded : string -> string -> string -> string ->
                       outcome (MesonApiResponse.t SwapResult.t);
  axios_swap_from_contract : string -> string ->
                             outcome (MesonApiResponse.t SwapResult.t);
  factory_deploy : string -> outcome string;
  deployment_wait : string -> outcome unit;
  populateTransaction : Tx.t -> outcome unit;
  estimateGas : Tx.t -> outcome Z;
  sendTransaction : Tx.t -> Z -> outcome string;
  response_wait : string -> outcome unit
}.

(* ===================================================================== *)
(** ** The monad of runs: a trace of events and an outcome *)
(* ===================================================================== *)

Inductive result (A : Type) : Type :=
| Ok (a : A)
| Err (e : error).
Arguments Ok {A} _.
Arguments Err {A} _.

Definition M (A : Type) : Type := (list event * result A)%type.

Definition trace {A} (m : M A) : list event := fst m.
Definition value {A} (m : M A) : result A := snd m.

Definition ret {A} (a : A) : M A := ([], Ok a).
Definition throw {A} (e : error) : M A := ([], Err e).
Definition emit (ev : event) : M unit := ([ev], Ok tt).

Definition bind {A B} (m : M A) (k : A -> M B) : M B :=
  match m with
  | (t, Ok a) => let (t', r) := k a in ((t ++ t')%list, r)
  | (t, Err e) => (t, Err e)
  end.

Declare Scope run_scope.
Delimit Scope run_scope with run.
Notation "x <- m ;; k" := (bind m (fun x => k))
  (at level 61, m at next level, right associativity) : run_scope.
Notation "m ;; k" := (bind m (fun _ => k))
  (at level 61, right associativity) : run_scope.
Open Scope run_scope.

Definition console_log (line : string) : M unit := emit (ConsoleLog line).
Definition console_warn (line : string) : M unit := emit (ConsoleWarn line).

(** [await f(...)] of a library call that throws [mk cause] when it fails. *)
Definition await {A} (mk : string -> error) (o : outcome A) : M A :=
  match o with
  | Returns a => ret a
  | Throws cause => throw (mk cause)
  end.

(** [`${x}`] of a [string | undefined]; on a truthy [x], [x] itself. *)
Definition str (x : option string) : string :=
  match x with
  | Some s => s
  | None => "undefined"
  end.

(** [a || b] on [string | undefined]. *)
Definition js_or (a b : option string) : option string :=
  if truthy a then a else b.

(** What [axios(config)] makes of what comes back from the relayer, with
    the defaults [api.ts] leaves in place.  A reply is the HTTP status and
    the parsed JSON body, or no reply at all (refused connection, timeout).
    The default [validateStatus] resolves the promise for a status from 200
    to 299 and rejects it for any other with an error whose message names
    the status, whatever the body holds; a request without reply rejects
    with the failure of the network.  A resolved body is then read as
    [response.data.result] and [response.data.error]: a body that is not an
    object has neither property, and is the envelope with neither. *)
Module Http.

Inductive body (T : Type) : Type :=
| JsonNull
    (* the body [null]: reading [response.data.result] throws a
       [TypeError], which is no error of the relayer client *)
| JsonValue (data : MesonApiResponse.t T).
Arguments JsonNull {T}.
Arguments JsonValue {T} _.

Inductive reply (T : Type) : Type :=
| NoResponse (cause : string)
| Response (status : Z) (data : body T).
Arguments NoResponse {T} _.
Arguments Response {T} _ _.

(** [status >= 200 && status < 300] *)
Definition ok_status (status : Z) : bool :=
  (200 <=? status)%Z && (status <? 300)%Z.

(** ['Request failed with status code ' + response.status] *)
Definition rejection (status : Z) : string :=
  "Request failed with status code "
  ++ NilZero.string_of_int (Z.to_int status).

(** The promise of [axios(config)] on a reply, as far as the typed model
    of the client goes: [None] on the body [null] of a resolved reply. *)
Definition axios {T} (r : reply T)
  : option (outcome (MesonApiResponse.t T)) :=
  match r with
  | NoResponse cause => Some (Throws cause)
  | Response status data =>
      if ok_status status then
        match data with
        | JsonNull => None
        | JsonValue d => Some (Returns d)
        end
      else Some (Throws (rejection status))
  end.

End Http.

(* ===================================================================== *)
(** ** [api.ts]: the relayer client *)
(* ===================================================================== *)

Module MesonApiService.

(** The block every method runs on what [axios(config)] comes back with,
    [operation] being the method's own message prefix:
<<
    if (response.data.result) return response.data.result;
    else if (response.data.error)
      throw new Error(`${operation}${response.data.error.message}`);
    else throw new Error('Invalid response format from Meson API');
>>
    inside a [try] whose [catch] rethrows. *)
Definition respond {T} (operation : string)
           (o : outcome (MesonApiResponse.t T)) : M T :=
  match o with
  | Returns data =>
      match MesonApiResponse.result data with
      | Some r => ret r
      | None =>
          match MesonApiResponse.error data with
          | Some e => throw (ServiceError (operation ++ ApiError.message e))
          | None => throw ProtocolError
          end
      end
  | Throws cause => throw (TransportError cause)
  end.

Definition getSupportedChains (w : World) : M (list Chain.t) :=
  emit (Axios GetList) ;;
  respond "Error fetching supported chains: " (axios_list w).

Definition getSwapLimits (w : World) : M (list ChainLimit.t) :=
  emit (Axios GetLimits) ;;
  respond "Error fetching swap limits: " (axios_limits w).

Definition encodeSwap (w : World)
           (fromChainToken toChainToken amount fromAddress recipient : string)
           (fromContract : option bool) (dataToContract : option string)
  : M EncodeSwapResult.t :=
  let payload :=
    EncodeSwapParams.mk fromChainToken toChainToken amount fromAddress
      recipient
      (match fromContract with Some true => Some true | _ => None end)
      (if truthy dataToContract then dataToContract else None) in
  emit (Axios (PostSwap payload)) ;;
  respond "Error encoding swap: " (axios_swap w payload).

Definition submitSwap (w : World)
           (encodedSwap fromAddress recipient signature : string)
  : M SwapResult.t :=
  emit (Axios (PostSwapEncoded encodedSwap fromAddress recipient signature)) ;;
  respond "Error submitting swap: "
          (axios_swap_encoded w encodedSwap fromAddress recipient signature).

Definition submitSwapFromContract (w : World)
           (encodedSwap transactionHash : string) : M SwapResult.t :=
  emit (Axios (PostSwapFromContract encodedSwap transactionHash)) ;;
  respond "Error submitting contract swap: "
          (axios_swap_from_contract w encodedSwap transactionHash).

End MesonApiService.

(* ===================================================================== *)
(** ** [signature.ts] *)
(* ===================================================================== *)

(** A wallet is its private key. *)
Definition Wallet : Type := string.

Definition signMessageHash (w : World) (messageHash privateKey : string)
  : M string :=
  let failed cause :=
    emit (ConsoleError "Error signing message hash:" cause) ;;
    throw (SigningError cause) in
  match Wallet_address w privateKey with
  | Throws cause => failed cause
  | Returns _ =>
      emit (SignHash messageHash) ;;
      match signingKey_sign w privateKey messageHash with
      | Throws cause => failed cause
      | Returns signature => ret signature
      end
  end.

Definition deriveAddress (w : World) (privateKey : string) : M string :=
  await InvalidKeyError (Wallet_address w privateKey).

(* ===================================================================== *)
(** ** [contract.ts] *)
(* ===================================================================== *)

(** [null] is [None]. *)
Definition findContractAddress (chains : list Chain.t) (chainId : string)
  : option string :=
  match find (fun c => String.eqb (Chain.id c) chainId) chains with
  | None => None
  | Some chain => Some (Chain.address chain)
  end.

Module MesonContractService.

Definition deployTransferToMesonContract (w : World)
           (mesonContractAddress : string) (wallet : Wallet) : M string :=
  emit (Deploy mesonContractAddress) ;;
  deployedAddress <-
    await DeploymentError (factory_deploy w mesonContractAddress) ;;
  emit WaitDeployment ;;
  await DeploymentError (deployment_wait w deployedAddress) ;;
  ret deployedAddress.

(** The gas limit of the transaction sent:
    [gasEstimate * BigInt(12) / BigInt(10)]. *)
Definition gasLimit (gasEstimate : Z) : Z :=
  Z.quot (gasEstimate * 12) 10.

Definition callTransferToMeson (w : World)
           (mesonContractAddress : string)
           (encodedSwap : EncodeSwapResult.t) (wallet : Wallet)
           (amount : string) (transferContractAddress : option string)
           (deployIfMissing : bool) : M string :=
  let encodedSwapStr := EncodeSwapResult.encoded encodedSwap in
  let initiator := EncodeSwapResult.initiator encodedSwap in
  transferToMesonAddress <-
    (if negb (truthy transferContractAddress) && deployIfMissing then
       deployTransferToMesonContract w mesonContractAddress wallet
     else if negb (truthy transferContractAddress) then
       throw MissingIntermediaryContractError
     else ret (str transferContractAddress)) ;;
  encodedSwapBigInt <- await ContractCallError (BigInt w encodedSwapStr) ;;
  value <- await ContractCallError (parseEther w amount) ;;
  let tx := Tx.mk transferToMesonAddress encodedSwapBigInt initiator value in
  await ContractCallError (populateTransaction w tx) ;;
  emit (EstimateGas tx) ;;
  gasEstimate <- await ContractCallError (estimateGas w tx) ;;
  let gasLimit := gasLimit gasEstimate in
  emit (SendTransaction tx gasLimit) ;;
  hash <- await ContractCallError (sendTransaction w tx gasLimit) ;;
  emit (WaitReceipt hash) ;;
  await ContractCallError (response_wait w hash) ;;
  ret hash.

End MesonContractService.

(* ===================================================================== *)
(** ** [index.ts]: the validators *)
(* ===================================================================== *)

(** [tokenId] is [undefined] when the caller's [chain:token] argument has
    no colon. *)
Definition validateChainToken (chains : list Chain.t) (chainId : string)
           (tokenId : option string) (type : string) : M unit :=
  match find (fun c => String.eqb (Chain.id c) chainId) chains with
  | None => throw (UnsupportedChainError type chainId)
  | Some chainInfo =>
      match find (fun t => strict_eq (Token.id t) tokenId)
                 (Chain.tokens chainInfo) with
      | None => throw (UnsupportedTokenError type tokenId chainId)
      | Some tokenInfo => ret tt
      end
  end.

Definition validateAmount (w : World) (limits : list ChainLimit.t)
           (chainId : string) (tokenId : option string) (amount : number)
  : M unit :=
  match find (fun c => String.eqb (ChainLimit.id c) chainId) limits with
  | None =>
      console_warn ("Warning: Could not find swap limits for destination chain '"
                    ++ chainId
                    ++ "'. Proceeding without amount limit check.")
  | Some chainLimit =>
      match find (fun t => strict_eq (Token.id t) tokenId)
                 (ChainLimit.tokens chainLimit) with
      | None =>
          console_warn ("Warning: Could not find swap limits for token '"
                        ++ str tokenId ++ "' on chain '" ++ chainId
                        ++ "'. Proceeding without amount limit check.")
      | Some tokenLimit =>
          let minSwap :=
            if truthy (Token.min tokenLimit)
            then parseFloat w (str (Token.min tokenLimit)) else zero in
          let maxSwap :=
            if truthy (Token.max tokenLimit)
            then parseFloat w (str (Token.max tokenLimit)) else Infinity in
          if num_lt amount minSwap || num_gt amount maxSwap then
            throw (AmountOutOfRangeError amount tokenId chainId minSwap maxSwap)
          else ret tt
      end
  end.

(* ===================================================================== *)
(** ** [index.ts]: the two flows *)
(* ===================================================================== *)

Import MesonApiService MesonContractService.

(** [const [chain, token] = s.split(':')]. *)
Definition chain_of (s : string) : string := hd EmptyString (split ":" s).
Definition token_of (s : string) : option string := nth_error (split ":" s) 1.

(** Truthiness of an optional object. *)
Definition present {A} (x : option A) : bool :=
  match x with
  | Some _ => true
  | None => false
  end.

(** [encodedData.signingRequest.hash], read once [signingRequest] is known
    to be there. *)
Definition signingRequest_hash (encodedData : EncodeSwapResult.t) : string :=
  match EncodeSwapResult.signingRequest encodedData with
  | Some signingRequest => SigningRequest.hash signingRequest
  | None => "undefined"
  end.

Definition runBridge (w : World) (options : BridgeOptions.t) : M unit :=
  let from := BridgeOptions.from options in
  let to := BridgeOptions.to options in
  let amount := BridgeOptions.amount options in
  let recipient := BridgeOptions.recipient options in
  let optionsPrivateKey := BridgeOptions.privateKey options in
  let dryRun := BridgeOptions.dryRun options in
  (* --- 1. Get Private Key --- *)
  let privateKey := js_or optionsPrivateKey (PRIVATE_KEY w) in
  if negb (truthy privateKey) then throw MissingPrivateKeyError else
  let privateKey := str privateKey in
  fromAddress <- deriveAddress w privateKey ;;
  console_log ("Using source address: " ++ fromAddress) ;;
  (* --- 2. Fetch Chain Data and Validate --- *)
  console_log "Fetching supported chains and tokens..." ;;
  supportedChains <- getSupportedChains w ;;
  console_log "Fetching swap limits..." ;;
  swapLimits <- getSwapLimits w ;;
  let fromChain := chain_of from in
  let fromToken := token_of from in
  let toChain := chain_of to in
  let toToken := token_of to in
  let amountFloat := parseFloat w amount in
  validateChainToken supportedChains fromChain fromToken "source" ;;
  validateChainToken supportedChains toChain toToken "destination" ;;
  validateAmount w swapLimits toChain toToken amountFloat ;;
  console_log "Input validation passed." ;;
  (* --- 3. Encode Swap --- *)
  console_log ("Encoding swap: " ++ amount ++ " " ++ from ++ " -> " ++ to
               ++ " for " ++ recipient) ;;
  encodedData <- encodeSwap w from to amount fromAddress recipient None None ;;
  if negb (nonempty (EncodeSwapResult.encoded encodedData))
     || negb (present (EncodeSwapResult.signingRequest encodedData)) then
    throw MissingEncodedDataError
  else
  let hash := signingRequest_hash encodedData in
  console_log ("Encoded Swap: " ++ EncodeSwapResult.encoded encodedData) ;;
  console_log ("Fee: " ++ JSON_stringify w (EncodeSwapResult.fee encodedData)) ;;
  console_log ("Hash to sign: " ++ hash) ;;
  (* --- 4. Sign Message Hash --- *)
  console_log "Signing transaction..." ;;
  signature <- signMessageHash w hash privateKey ;;
  console_log ("Signature: " ++ substring 0 20 signature ++ "...") ;;
  (* --- 5. Submit Swap (or skip if dry run) --- *)
  if dryRun then
    console_log (nl ++ "-- DRY RUN --") ;;
    console_log "Swap encoded and signed, but not submitted." ;;
    console_log ("Encoded Swap: " ++ EncodeSwapResult.encoded encodedData) ;;
    console_log ("Signature: " ++ signature) ;;
    console_log ("Recipient: " ++ recipient) ;;
    console_log ("From Address: " ++ fromAddress) ;;
    ret tt
  else
  console_log "Submitting swap..." ;;
  swapResult <-
    submitSwap w (EncodeSwapResult.encoded encodedData) fromAddress recipient
               signature ;;
  console_log (nl ++ "Swap submitted successfully!") ;;
  console_log ("Swap ID: " ++ SwapResult.swapId swapResult) ;;
  console_log ("Track status on Meson Explorer: https://explorer.meson.fi/swap/"
               ++ SwapResult.swapId swapResult).

(** [if (!encodedData.initiator) { encodedData.initiator = initiator; }]:
    the response object is updated in place and is the one passed on. *)
Definition backfill_initiator (initiator : string)
           (encodedData : EncodeSwapResult.t) : EncodeSwapResult.t :=
  if negb (truthy (EncodeSwapResult.initiator encodedData))
  then EncodeSwapResult.set_initiator initiator encodedData
  else encodedData.

Definition runContractBridge (w : World) (options : BridgeOptions.t)
  : M unit :=
  let from := BridgeOptions.from options in
  let to := BridgeOptions.to options in
  let amount := BridgeOptions.amount options in
  let recipient := BridgeOptions.recipient options in
  let optionsPrivateKey := BridgeOptions.privateKey options in
  let mesonContractOption := BridgeOptions.mesonContract options in
  let transferContractOption := BridgeOptions.transferContract options in
  let deployIfMissing := BridgeOptions.deployIfMissing options in
  let dryRun := BridgeOptions.dryRun options in
  (* --- 1. Get Private Key --- *)
  let privateKey := js_or optionsPrivateKey (PRIVATE_KEY w) in
  if negb (truthy privateKey) then throw MissingPrivateKeyError else
  let privateKey := str privateKey in
  fromAddress <- deriveAddress w privateKey ;;
  console_log ("Using source address: " ++ fromAddress) ;;
  (* --- 2. Fetch Chain Data and Validate --- *)
  console_log "Fetching supported chains and tokens..." ;;
  supportedChains <- getSupportedChains w ;;
  console_log "Fetching swap limits..." ;;
  swapLimits <- getSwapLimits w ;;
  let fromChain := chain_of from in
  let fromToken := token_of from in
  let toChain := chain_of to in
  let toToken := token_of to in
  let amountFloat := parseFloat w amount in
  validateChainToken supportedChains fromChain fromToken "source" ;;
  validateChainToken supportedChains toChain toToken "destination" ;;
  validateAmount w swapLimits toChain toToken amountFloat ;;
  console_log "Input validation passed." ;;
  (* --- 3. Determine Meson contract address if not provided --- *)
  mesonContractAddress <-
    (if truthy mesonContractOption then
       console_log
         ("Using meson contract address from --meson-contract parameter: "
          ++ str mesonContractOption) ;;
       ret (str mesonContractOption)
     else
       console_log "No meson contract address provided, looking up from address field in chain data..." ;;
       let foundAddress := findContractAddress supportedChains fromChain in
       if negb (truthy foundAddress) then
         throw (ContractAddressNotFoundError fromChain)
       else
         console_log ("Found Meson contract address for " ++ fromChain ++ ": "
                      ++ str foundAddress
                      ++ " (from chain data address field)") ;;
         ret (str foundAddress)) ;;
  fromContractAddress <-
    (if negb (truthy transferContractOption) && deployIfMissing
        && negb dryRun then
       let wallet : Wallet := privateKey in
       console_log "Deploying new TransferToMeson contract..." ;;
       deployed <-
         deployTransferToMesonContract w mesonContractAddress wallet ;;
       console_log ("Deployed new TransferToMeson contract at: " ++ deployed) ;;
       ret (Some deployed)
     else ret transferContractOption) ;;
  (* --- 4. Encode Swap with fromContract=true --- *)
  console_log ("Encoding contract swap: " ++ amount ++ " " ++ from ++ " -> "
               ++ to ++ " for " ++ recipient) ;;
  let encodingFromAddress := str (js_or fromContractAddress (Some fromAddress)) in
  console_log ("Using address for swap encoding: " ++ encodingFromAddress) ;;
  let initiator := fromAddress in
  console_log ("Using initiator address: " ++ initiator) ;;
  encodedData <-
    encodeSwap w from to amount encodingFromAddress recipient (Some true) None ;;
  let encodedData := backfill_initiator initiator encodedData in
  if negb (nonempty (EncodeSwapResult.encoded encodedData)) then
    throw MissingEncodedDataError
  else
  console_log ("Encoded Swap: " ++ EncodeSwapResult.encoded encodedData) ;;
  console_log ("Fee: " ++ JSON_stringify w (EncodeSwapResult.fee encodedData)) ;;
  console_log ("Initiator: "
               ++ str (js_or (EncodeSwapResult.initiator encodedData)
                             (Some initiator))) ;;
  fromContractAddress <-
    (if truthy (EncodeSwapResult.fromContract encodedData) then
       console_log ("API response included fromContract address: "
                    ++ str (EncodeSwapResult.fromContract encodedData)) ;;
       if negb (truthy fromContractAddress) then
         console_log "Using fromContract address from API response" ;;
         ret (EncodeSwapResult.fromContract encodedData)
       else ret fromContractAddress
     else ret fromContractAddress) ;;
  (* --- 5. Execute Contract Call (or skip if dry run) --- *)
  if dryRun then
    console_log (nl ++ "-- DRY RUN --") ;;
    console_log "Swap encoded, but contract call not executed." ;;
    console_log ("Encoded Swap: " ++ EncodeSwapResult.encoded encodedData) ;;
    console_log ("Meson Contract Address: " ++ mesonContractAddress) ;;
    (if truthy transferContractOption then
       console_log ("TransferToMeson Contract Address: "
                    ++ str transferContractOption)
     else if deployIfMissing then
       console_log "Will deploy new TransferToMeson contract"
     else
       console_log "No TransferToMeson contract provided and deployment not requested") ;;
    console_log ("Recipient: " ++ recipient) ;;
    console_log ("From Address: " ++ encodingFromAddress) ;;
    console_log ("Amount: " ++ amount) ;;
    ret tt
  else
  console_log "Submitting transaction using TransferToMeson contract..." ;;
  let wallet : Wallet := privateKey in
  txHash <-
    callTransferToMeson w mesonContractAddress encodedData wallet amount
      fromContractAddress
      (deployIfMissing && negb (truthy fromContractAddress)) ;;
  console_log (nl ++ "Transaction submitted successfully!") ;;
  console_log ("Transaction Hash: " ++ txHash) ;;
  console_log (nl ++ "Track status on Meson Explorer: https://explorer.meson.fi/swap/"
               ++ EncodeSwapResult.encoded encodedData).

(* ===================================================================== *)
(** ** A world to run the flows in *)
(* ===================================================================== *)

(** A world for the worked examples.  Its [parseFloat] is exact on the
    strings made of decimal digits only (an integer below [2^53] is a
    binary64 value) and answers NaN on every other string, which is what
    [parseFloat] answers on a string that starts with no numeral. *)
Module Sample.

Definition digit_of (c : ascii) : option Z :=
  let n := Z.of_nat (nat_of_ascii c) in
  if (48 <=? n)%Z && (n <=? 57)%Z then Some (n - 48)%Z else None.

Fixpoint digits (acc : Z) (s : string) : option Z :=
  match s with
  | EmptyString => Some acc
  | String c s' =>
      match digit_of c with
      | Some d => digits (acc * 10 + d)%Z s'
      | None => None
      end
  end.

Definition parseFloat_digits (s : string) : number :=
  match s with
  | EmptyString => NaN
  | _ => match digits 0 s with
         | Some m => binary_normalize 53 1024 m 0 false
         | None => NaN
         end
  end.

Definition usdc : Token.t := Token.mk "usdc" None (Some "10") (Some "1000").
Definition eth : Token.t := Token.mk "eth" None None None.

Definition chains : list Chain.t :=
  [ Chain.mk "eth" "Ethereum" "0x1" "0xMESON_ETH" None [usdc; eth];
    Chain.mk "base" "Base" "0x2105" "0xAAA" None [eth];
    Chain.mk "tron" "Tron" "tron" "0xMESON_TRON" (Some true) [usdc] ].

Definition limits : list ChainLimit.t :=
  [ ChainLimit.mk "eth" "Ethereum" [usdc];
    ChainLimit.mk "base" "Base" [] ].

Definition fee : Fee.t := Fee.mk "1" "2" "3".

(** [JSON.stringify] of a fee whose strings need no escaping. *)
Definition stringify_fee (f : Fee.t) : string :=
  let quoted s := String (ascii_of_nat 34) s ++ String (ascii_of_nat 34) "" in
  "{" ++ quoted "serviceFee" ++ ":" ++ quoted (Fee.serviceFee f) ++ ","
      ++ quoted "lpFee" ++ ":" ++ quoted (Fee.lpFee f) ++ ","
      ++ quoted "totalFee" ++ ":" ++ quoted (Fee.totalFee f) ++ "}".

(** The relayer encodes every swap as [0xabc], with a signing request and
    nothing else. *)
Definition encoded_swap (p : EncodeSwapParams.t) : EncodeSwapResult.t :=
  EncodeSwapResult.mk "0xabc" None None (EncodeSwapParams.recipient p) fee
    None (Some (SigningRequest.mk "Sign to swap" "0x123")) None.

Definition world : World :=
  {| PRIVATE_KEY := None;
     parseFloat := parseFloat_digits;
     JSON_stringify := stringify_fee;
     BigInt := fun s => if String.eqb s "0xabc" then Returns 2748%Z
                        else Throws "SyntaxError";
     parseEther := fun s => match digits 0 s with
                            | Some n => Returns (n * 10 ^ 18)%Z
                            | None => Throws "invalid FixedNumber string value"
                            end;
     Wallet_address := fun k => if String.eqb k "0xKEY" then Returns "0xME"
                                else Throws "invalid private key";
     signingKey_sign := fun _ h => Returns ("sig:" ++ h);
     axios_list := Returns (MesonApiResponse.mk (Some chains) None);
     axios_limits := Returns (MesonApiResponse.mk (Some limits) None);
     axios_swap := fun p =>
       Returns (MesonApiResponse.mk (Some (encoded_swap p)) None);
     axios_swap_encoded := fun _ _ _ _ =>
       Returns (MesonApiResponse.mk (Some (SwapResult.mk "sw1")) None);
     axios_swap_from_contract := fun _ _ =>
       Returns (MesonApiResponse.mk (Some (SwapResult.mk "sw2")) None);
     factory_deploy := fun _ => Returns "0xDEPLOYED";
     deployment_wait := fun _ => Returns tt;
     populateTransaction := fun _ => Returns tt;
     estimateGas := fun _ => Returns 100001%Z;
     sendTransaction := fun _ _ => Returns "0xTXHASH";
     response_wait := fun _ => Returns tt |}.

(** The same world with another answer to [GET /list]. *)
Definition with_axios_list
           (o : outcome (MesonApiResponse.t (list Chain.t))) (w : World)
  : World :=
  mkWorld (PRIVATE_KEY w) (parseFloat w) (JSON_stringify w) (BigInt w)
    (parseEther w) (Wallet_address w) (signingKey_sign w) o (axios_limits w)
    (axios_swap w) (axios_swap_encoded w) (axios_swap_from_contract w)
    (factory_deploy w) (deployment_wait w) (populateTransaction w)
    (estimateGas w) (sendTransaction w) (response_wait w).

(** The same world with other answers to [POST /swap]. *)
Definition with_axios_swap
           (f : EncodeSwapParams.t ->
                outcome (MesonApiResponse.t EncodeSwapResult.t))
           (w : World) : World :=
  mkWorld (PRIVATE_KEY w) (parseFloat w) (JSON_stringify w) (BigInt w)
    (parseEther w) (Wallet_address w) (signingKey_sign w) (axios_list w)
    (axios_limits w) f (axios_swap_encoded w) (axios_swap_from_contract w)
    (factory_deploy w) (deployment_wait w) (populateTransaction w)
    (estimateGas w) (sendTransaction w) (response_wait w).

(** A registry in which Base has no relayer contract address. *)
Definition chains_without_address : list Chain.t :=
  [ Chain.mk "base" "Base" "0x2105" "" None [eth];
    Chain.mk "eth" "Ethereum" "0x1" "0xMESON_ETH" None [usdc; eth] ].

(** A relayer that names an initiator of its own. *)
Definition encoded_swap_with_initiator (p : EncodeSwapParams.t)
  : EncodeSwapResult.t :=
  EncodeSwapResult.mk "0xabc" None None (EncodeSwapParams.recipient p) fee
    None None (Some "0xRELAYER").

(** A relayer that names the intermediary contract itself. *)
Definition encoded_swap_with_fromContract (p : EncodeSwapParams.t)
  : EncodeSwapResult.t :=
  EncodeSwapResult.mk "0xabc" None (Some "0xFROM") (EncodeSwapParams.recipient p)
    fee None None None.

Definition options : BridgeOptions.t :=
  {| BridgeOptions.from := "base:eth";
     BridgeOptions.to := "eth:usdc";
     BridgeOptions.amount := "100";
     BridgeOptions.recipient := "0xRECIPIENT";
     BridgeOptions.privateKey := Some "0xKEY";
     BridgeOptions.dryRun := false;
     BridgeOptions.debug := false;
     BridgeOptions.mesonContract := None;
     BridgeOptions.transferContract := None;
     BridgeOptions.deployIfMissing := false;
     BridgeOptions.rpcUrl := "https://base.llamarpc.com" |}.

Definition with_dryRun (b : bool) (o : BridgeOptions.t) : BridgeOptions.t :=
  BridgeOptions.mk (BridgeOptions.from o) (BridgeOptions.to o)
    (BridgeOptions.amount o) (BridgeOptions.recipient o)
    (BridgeOptions.privateKey o) b (BridgeOptions.debug o)
    (BridgeOptions.mesonContract o) (BridgeOptions.transferContract o)
    (BridgeOptions.deployIfMissing o) (BridgeOptions.rpcUrl o).

Definition with_transferContract (a : option string) (o : BridgeOptions.t)
  : BridgeOptions.t :=
  BridgeOptions.mk (BridgeOptions.from o) (BridgeOptions.to o)
    (BridgeOptions.amount o) (BridgeOptions.recipient o)
    (BridgeOptions.privateKey o) (BridgeOptions.dryRun o)
    (BridgeOptions.debug o) (BridgeOptions.mesonContract o) a
    (BridgeOptions.deployIfMissing o) (BridgeOptions.rpcUrl o).

Definition with_deployIfMissing (b : bool) (o : BridgeOptions.t)
  : BridgeOptions.t :=
  BridgeOptions.mk (BridgeOptions.from o) (BridgeOptions.to o)
    (BridgeOptions.amount o) (BridgeOptions.recipient o)
    (BridgeOptions.privateKey o) (BridgeOptions.dryRun o)
    (BridgeOptions.debug o) (BridgeOptions.mesonContract o)
    (BridgeOptions.transferContract o) b (BridgeOptions.rpcUrl o).

End Sample.

(* ===================================================================== *)
(** ** Facts about numbers, lookups and runs *)
(* ===================================================================== *)

Lemma num_lt_irrefl (x : number) : num_lt x x = false.
Proof.
  unfold num_lt, SFltb, SFcompare.
  destruct x as [s | s | | s m e]; try reflexivity.
  - destruct s; reflexivity.
  - rewrite Z.compare_refl, Pos.compare_cont_refl.
    destruct s; reflexivity.
Qed.

Lemma num_lt_NaN_l (x : number) : num_lt NaN x = false.
Proof. reflexivity. Qed.

Lemma num_lt_NaN_r (x : number) : num_lt x NaN = false.
Proof. destruct x; reflexivity. Qed.

Lemma truthy_spec (x : option string) :
  truthy x = true <-> exists s, x = Some s /\ s <> EmptyString.
Proof.
  split.
  - destruct x as [[|c s]|]; simpl; try discriminate.
    intros _. exists (String c s). split; [reflexivity | discriminate].
  - intros (s & -> & Hs). destruct s; [contradiction | reflexivity].
Qed.

Lemma find_by_id_none {A} (id : A -> string) (k : string) (l : list A) :
  find (fun x => String.eqb (id x) k) l = None <->
  forall x, In x l -> id x <> k.
Proof.
  split.
  - intros H x Hx E.
    apply (find_none _ _ H) in Hx. rewrite E, String.eqb_refl in Hx.
    discriminate.
  - intros H. induction l as [|a l IH]; simpl; [reflexivity|].
    destruct (String.eqb_spec (id a) k) as [E|_].
    + exfalso. apply (H a); [left; reflexivity | exact E].
    + apply IH. intros x Hx. apply H. right. exact Hx.
Qed.

Lemma find_by_id_some {A} (id : A -> string) (k : string) (l : list A) x :
  find (fun x => String.eqb (id x) k) l = Some x -> In x l /\ id x = k.
Proof.
  intros H. apply find_some in H. destruct H as [Hin E].
  split; [exact Hin | apply String.eqb_eq; exact E].
Qed.

(** On a list whose elements have distinct ids, [find] returns the one
    element with the id asked for. *)
Lemma find_by_id_unique {A} (id : A -> string) (k : string) (l : list A) x :
  NoDup (map id l) -> In x l -> id x = k ->
  find (fun x => String.eqb (id x) k) l = Some x.
Proof.
  induction l as [|a l IH]; simpl; intros Hnd Hin E; [contradiction|].
  inversion Hnd as [|? ? Hnotin Hnd']; subst.
  destruct Hin as [->|Hin].
  - rewrite String.eqb_refl. reflexivity.
  - destruct (String.eqb_spec (id a) (id x)) as [E|_].
    + exfalso. apply Hnotin. rewrite E. apply in_map. exact Hin.
    + apply IH; auto.
Qed.

Lemma trace_bind {A B} (m : M A) (k : A -> M B) :
  trace (bind m k) =
  (trace m ++ match value m with
              | Ok a => trace (k a)
              | Err _ => []
              end)%list.
Proof.
  destruct m as [t [a|e]]; simpl.
  - destruct (k a); reflexivity.
  - rewrite app_nil_r. reflexivity.
Qed.

Lemma value_bind {A B} (m : M A) (k : A -> M B) :
  value (bind m k) =
  match value m with
  | Ok a => value (k a)
  | Err e => Err e
  end.
Proof.
  destruct m as [t [a|e]]; simpl; [destruct (k a)|]; reflexivity.
Qed.

(* ===================================================================== *)
(** ** The validators *)
(* ===================================================================== *)

(** The bounds of a token-limit entry as the specification words them: the
    minimum is 0 and the maximum is unbounded when the entry gives none (no
    property, or an empty string); otherwise they are the numbers its
    decimal strings parse to. *)
Definition limit_min (w : World) (tokenLimit : Token.t) : number :=
  match Token.min tokenLimit with
  | None => zero
  | Some EmptyString => zero
  | Some s => parseFloat w s
  end.

Definition limit_max (w : World) (tokenLimit : Token.t) : number :=
  match Token.max tokenLimit with
  | None => Infinity
  | Some EmptyString => Infinity
  | Some s => parseFloat w s
  end.

(** The run of [validateAmount] once the entry of the token is found. *)
Lemma validateAmount_found (w : World) limits chainId tokenId amount
      chainLimit tokenLimit :
  find (fun c => String.eqb (ChainLimit.id c) chainId) limits
    = Some chainLimit ->
  find (fun t => strict_eq (Token.id t) tokenId) (ChainLimit.tokens chainLimit)
    = Some tokenLimit ->
  validateAmount w limits chainId tokenId amount =
  if num_lt amount (limit_min w tokenLimit)
     || num_gt amount (limit_max w tokenLimit)
  then throw (AmountOutOfRangeError amount tokenId chainId
                (limit_min w tokenLimit) (limit_max w tokenLimit))
  else ret tt.
Proof.
  intros Hc Ht. unfold validateAmount. rewrite Hc, Ht.
  unfold limit_min, limit_max.
  destruct (Token.min tokenLimit) as [[|? ?]|],
           (Token.max tokenLimit) as [[|? ?]|]; reflexivity.
Qed.

(** C4.  [validateAmount] on a limits snapshot, a chain id, a token id and
    an amount.  When no chain limit has the chain id, or the chain limit
    found has no entry for the token id, it raises nothing and prints one
    warning.  When the entry is found, with the minimum 0 and the maximum
    unbounded where the entry gives none, it raises the out-of-range error
    exactly when [amount < min] or [amount > max], prints nothing, and so
    accepts an amount equal to either bound of a non-empty range. *)
Theorem validateAmount_spec (w : World) (limits : list ChainLimit.t)
        (chainId tokenId : string) (amount : number) :
  let run := validateAmount w limits chainId (Some tokenId) amount in
  ((forall c, In c limits -> ChainLimit.id c <> chainId) ->
     value run = Ok tt /\ exists line, trace run = [ConsoleWarn line])
  /\
  (forall chainLimit,
      find (fun c => String.eqb (ChainLimit.id c) chainId) limits
        = Some chainLimit ->
      (forall t, In t (ChainLimit.tokens chainLimit) -> Token.id t <> tokenId) ->
      value run = Ok tt /\ exists line, trace run = [ConsoleWarn line])
  /\
  (forall chainLimit tokenLimit,
      find (fun c => String.eqb (ChainLimit.id c) chainId) limits
        = Some chainLimit ->
      find (fun t => String.eqb (Token.id t) tokenId)
           (ChainLimit.tokens chainLimit) = Some tokenLimit ->
      let min := limit_min w tokenLimit in
      let max := limit_max w tokenLimit in
      trace run = [] /\
      (value run = Err (AmountOutOfRangeError amount (Some tokenId) chainId
                                              min max)
       <-> num_lt amount min = true \/ num_gt amount max = true) /\
      (value run = Ok tt
       <-> num_lt amount min = false /\ num_gt amount max = false) /\
      (num_gt min max = false -> amount = min \/ amount = max ->
       value run = Ok tt)).
Proof.
  intros run. split; [|split].
  - intros Hnone. apply find_by_id_none in Hnone.
    unfold run, validateAmount. rewrite Hnone. simpl. eauto.
  - intros chainLimit Hc Hnone.
    apply (find_by_id_none Token.id) in Hnone.
    unfold run, validateAmount. rewrite Hc. simpl strict_eq.
    rewrite Hnone. simpl. eauto.
  - intros chainLimit tokenLimit Hc Ht min max.
    unfold run.
    rewrite (validateAmount_found w limits chainId (Some tokenId) amount
               chainLimit tokenLimit Hc Ht).
    fold min max.
    destruct (num_lt amount min) eqn:Hlt, (num_gt amount max) eqn:Hgt; simpl;
      (split; [reflexivity|]); (split; [|split]);
      try (split; [intros H; try discriminate H; auto
                  | intros H; try reflexivity; intuition discriminate]).
    all: intros Hrange [->| ->].
    all: try (rewrite num_lt_irrefl in Hlt; discriminate).
    all: try (unfold num_gt in Hgt; fold (num_lt max max) in Hgt;
              rewrite num_lt_irrefl in Hgt; discriminate).
    all: try reflexivity.
    all: unfold num_gt in *; unfold num_lt in *; congruence.
Qed.

Lemma validateAmount_spec_witness :
  let ten := Sample.parseFloat_digits "10" in
  let run := validateAmount Sample.world Sample.limits "eth" (Some "usdc") ten in
  (value run = Ok tt /\ trace run = []) /\
  value (validateAmount Sample.world Sample.limits "base" (Some "usdc") ten)
    = Ok tt /\
  value (validateAmount Sample.world Sample.limits "tron" (Some "usdc") ten)
    = Ok tt.
Proof.
  intros ten run.
  pose proof (validateAmount_spec Sample.world Sample.limits "eth" "usdc" ten)
    as (_ & _ & Hfound).
  pose proof (validateAmount_spec Sample.world Sample.limits "base" "usdc" ten)
    as (_ & Htoken & _).
  pose proof (validateAmount_spec Sample.world Sample.limits "tron" "usdc" ten)
    as (Hchain & _ & _).
  split; [|split].
  - destruct (Hfound _ _ eq_refl eq_refl) as (Htrace & _ & _ & Hbound).
    split; [|exact Htrace].
    apply Hbound; [reflexivity | left; reflexivity].
  - apply (Htoken _ eq_refl). simpl. intros t [].
  - apply Hchain. simpl.
    intros c [<-|[<-|[]]]; discriminate.
Defined.

(** Out of range on either side, on the sample limits [10 .. 1000]. *)
Example validateAmount_below :
  value (validateAmount Sample.world Sample.limits "eth" (Some "usdc")
           (Sample.parseFloat_digits "9"))
  = Err (AmountOutOfRangeError (Sample.parseFloat_digits "9") (Some "usdc")
           "eth" (Sample.parseFloat_digits "10")
           (Sample.parseFloat_digits "1000")).
Proof. reflexivity. Qed.

Example validateAmount_above :
  value (validateAmount Sample.world Sample.limits "eth" (Some "usdc")
           (Sample.parseFloat_digits "1001"))
  = Err (AmountOutOfRangeError (Sample.parseFloat_digits "1001") (Some "usdc")
           "eth" (Sample.parseFloat_digits "10")
           (Sample.parseFloat_digits "1000")).
Proof. reflexivity. Qed.

(** The run of [validateChainToken] once the chain and the token are
    found. *)
Lemma validateChainToken_found (chains : list Chain.t) (chainId : string)
      (tokenId : option string) (type : string) chainInfo tokenInfo :
  find (fun c => String.eqb (Chain.id c) chainId) chains = Some chainInfo ->
  find (fun t => strict_eq (Token.id t) tokenId) (Chain.tokens chainInfo)
    = Some tokenInfo ->
  validateChainToken chains chainId tokenId type = ret tt.
Proof.
  intros Hc Ht. unfold validateChainToken. rewrite Hc, Ht. reflexivity.
Qed.

Lemma validateChainToken_Ok (chains : list Chain.t)
      (chainId tokenId type : string) :
  value (validateChainToken chains chainId (Some tokenId) type) = Ok tt <->
  exists c,
    find (fun c => String.eqb (Chain.id c) chainId) chains = Some c /\
    exists t, In t (Chain.tokens c) /\ Token.id t = tokenId.
Proof.
  unfold validateChainToken. simpl strict_eq.
  destruct (find (fun c => String.eqb (Chain.id c) chainId) chains)
    as [c|] eqn:Hc.
  - destruct (find (fun t => String.eqb (Token.id t) tokenId) (Chain.tokens c))
      as [t|] eqn:Ht; simpl.
    + apply (find_by_id_some Token.id) in Ht. split; eauto.
    + pose proof (proj1 (find_by_id_none Token.id _ _) Ht) as Hnone.
      split; [discriminate|].
      intros (c' & E & t & Hin & Hid). injection E as <-.
      exfalso. exact (Hnone t Hin Hid).
  - simpl. split; [discriminate|]. intros (c & E & _). discriminate E.
Qed.

(** What is left of a run of [validateChainToken] when the role is
    forgotten. *)
Inductive verdict : Type :=
| Supported
| UnsupportedChain
| UnsupportedToken
| OtherFailure.

Definition verdict_of (r : result unit) : verdict :=
  match r with
  | Ok _ => Supported
  | Err (UnsupportedChainError _ _) => UnsupportedChain
  | Err (UnsupportedTokenError _ _ _) => UnsupportedToken
  | Err _ => OtherFailure
  end.

(** C5.  [validateChainToken] on a registry snapshot, a chain id and a token
    id: it raises the unsupported-chain error exactly when no chain of the
    snapshot has the chain id; it raises the unsupported-token error
    exactly when the chain found has no token with the token id; it
    succeeds exactly when the chain found has such a token; it has no
    effect in any case; and the role only goes into the error raised, so
    two roles give the same verdict. *)
Theorem validateChainToken_spec (chains : list Chain.t)
        (chainId tokenId type : string) :
  let run := validateChainToken chains chainId (Some tokenId) type in
  trace run = [] /\
  (value run = Err (UnsupportedChainError type chainId)
   <-> forall c, In c chains -> Chain.id c <> chainId) /\
  (value run = Err (UnsupportedTokenError type (Some tokenId) chainId)
   <-> exists c,
         find (fun c => String.eqb (Chain.id c) chainId) chains = Some c /\
         forall t, In t (Chain.tokens c) -> Token.id t <> tokenId) /\
  (value run = Ok tt
   <-> exists c,
         find (fun c => String.eqb (Chain.id c) chainId) chains = Some c /\
         exists t, In t (Chain.tokens c) /\ Token.id t = tokenId) /\
  (forall type',
      verdict_of (value (validateChainToken chains chainId (Some tokenId) type'))
      = verdict_of (value run)).
Proof.
  intros run. unfold run, validateChainToken. simpl strict_eq.
  destruct (find (fun c => String.eqb (Chain.id c) chainId) chains)
    as [c|] eqn:Hc.
  - destruct (find (fun t => String.eqb (Token.id t) tokenId) (Chain.tokens c))
      as [t|] eqn:Ht; simpl.
    + apply (find_by_id_some Token.id) in Ht.
      repeat split; try discriminate; eauto.
      * intros Hnone. apply find_by_id_none in Hnone. congruence.
      * intros (c' & E & Hnone). injection E as <-.
        destruct Ht as [Hin Hid]. exfalso. exact (Hnone t Hin Hid).
    + pose proof (proj1 (find_by_id_none Token.id _ _) Ht) as Hnone.
      repeat split; try discriminate; eauto.
      * intros H. apply find_by_id_none in H. congruence.
      * intros (c' & E & t & Hin & Hid). injection E as <-.
        exfalso. exact (Hnone t Hin Hid).
  - simpl. pose proof (proj1 (find_by_id_none Chain.id _ _) Hc) as Hnone.
    repeat split; try discriminate; auto.
    + intros (c & E & _). discriminate E.
    + intros (c & E & _). discriminate E.
Qed.

(** On a registry whose chains and whose tokens within a chain have
    distinct ids, a pair is accepted exactly when it is in the registry. *)
Lemma validateChainToken_unique_ids (chains : list Chain.t)
      (chainId tokenId type : string) :
  NoDup (map Chain.id chains) ->
  (value (validateChainToken chains chainId (Some tokenId) type) = Ok tt
   <-> exists c t, In c chains /\ Chain.id c = chainId /\
                   In t (Chain.tokens c) /\ Token.id t = tokenId).
Proof.
  intros Hnd. rewrite validateChainToken_Ok. split.
  - intros (c & Hc & t & Hin & Hid).
    apply (find_by_id_some Chain.id) in Hc. destruct Hc.
    exists c, t. auto.
  - intros (c & t & Hc & Hcid & Hin & Hid).
    exists c. split; [apply (find_by_id_unique Chain.id); auto|eauto].
Qed.

(** [chain.destinationChainOnly = flag]. *)
Definition set_destinationChainOnly (flag : option bool) (c : Chain.t)
  : Chain.t :=
  Chain.mk (Chain.id c) (Chain.name c) (Chain.chainId c) (Chain.address c)
           flag (Chain.tokens c).

Lemma find_chain_relabel (flag : Chain.t -> option bool) (chainId : string)
      (chains : list Chain.t) :
  find (fun c => String.eqb (Chain.id c) chainId)
       (map (fun c => set_destinationChainOnly (flag c) c) chains)
  = option_map (fun c => set_destinationChainOnly (flag c) c)
      (find (fun c => String.eqb (Chain.id c) chainId) chains).
Proof.
  induction chains as [|c chains IH]; simpl; [reflexivity|].
  destruct (String.eqb (Chain.id c) chainId); [reflexivity | exact IH].
Qed.

(** C9.  [validateChainToken] never reads [destinationChainOnly]: setting
    the flags of a registry in any other way leaves every run unchanged;
    so when the chain found for a chain id is marked destination-only and
    has the token, validation in the role 'source' succeeds. *)
Theorem validateChainToken_ignores_destinationChainOnly
        (chains : list Chain.t) (chainId tokenId : string) :
  (forall (flag : Chain.t -> option bool) (tokenId' : option string)
          (type : string),
      validateChainToken
        (map (fun c => set_destinationChainOnly (flag c) c) chains)
        chainId tokenId' type
      = validateChainToken chains chainId tokenId' type) /\
  (forall c,
      find (fun c => String.eqb (Chain.id c) chainId) chains = Some c ->
      Chain.destinationChainOnly c = Some true ->
      (exists t, In t (Chain.tokens c) /\ Token.id t = tokenId) ->
      validateChainToken chains chainId (Some tokenId) "source" = ret tt).
Proof.
  split.
  - intros flag tokenId' type. unfold validateChainToken.
    rewrite find_chain_relabel.
    destruct (find (fun c => String.eqb (Chain.id c) chainId) chains);
      reflexivity.
  - intros c Hc _ (t & Hin & Hid).
    destruct (find (fun t => String.eqb (Token.id t) tokenId) (Chain.tokens c))
      as [tokenInfo|] eqn:Ht.
    + exact (validateChainToken_found chains chainId (Some tokenId) "source"
               c tokenInfo Hc Ht).
    + exfalso.
      exact (proj1 (find_by_id_none Token.id _ _) Ht t Hin Hid).
Qed.

Lemma validateChainToken_ignores_destinationChainOnly_witness :
  validateChainToken Sample.chains "tron" (Some "usdc") "source" = ret tt.
Proof.
  destruct (validateChainToken_ignores_destinationChainOnly
              Sample.chains "tron" "usdc") as [_ H].
  apply (H (Chain.mk "tron" "Tron" "tron" "0xMESON_TRON" (Some true)
                     [Sample.usdc])).
  - reflexivity.
  - reflexivity.
  - exists Sample.usdc. split; [left; reflexivity | reflexivity].
Defined.

(* ===================================================================== *)
(** ** The relayer client *)
(* ===================================================================== *)

(** What an operation owes to what the relayer answered: the relayer's
    message in a service error on an error envelope, a protocol error on an
    envelope of neither shape, a transport error around the failure of the
    request, and the result as it is on a success envelope. *)
Definition handles_envelope {T} (operation : string)
           (o : outcome (MesonApiResponse.t T)) (r : result T) : Prop :=
  (forall e, o = Returns (MesonApiResponse.mk None (Some e)) ->
             r = Err (ServiceError (operation ++ ApiError.message e))) /\
  (o = Returns (MesonApiResponse.mk None None) -> r = Err ProtocolError) /\
  (forall cause, o = Throws cause -> r = Err (TransportError cause)) /\
  (forall x e, o = Returns (MesonApiResponse.mk (Some x) e) -> r = Ok x).

Lemma respond_handles_envelope {T} (operation : string)
      (o : outcome (MesonApiResponse.t T)) (ev : event) :
  handles_envelope operation o (value (emit ev ;; respond operation o)).
Proof.
  rewrite value_bind. simpl.
  repeat split; intros; subst; reflexivity.
Qed.

(** The same, told of the reply of the relayer itself.  An envelope counts
    only when it comes with a status from 200 to 299; with any other status
    the operation fails with the rejection of the HTTP client, whatever the
    body holds.  Nothing is said of the body [null]. *)
Definition handles_reply {T} (operation : string) (r : Http.reply T)
           (res : result T) : Prop :=
  (forall cause, r = Http.NoResponse cause ->
                 res = Err (TransportError cause)) /\
  (forall status data,
      r = Http.Response status data -> Http.ok_status status = false ->
      res = Err (TransportError (Http.rejection status))) /\
  (forall status x e,
      r = Http.Response status
            (Http.JsonValue (MesonApiResponse.mk (Some x) e)) ->
      Http.ok_status status = true -> res = Ok x) /\
  (forall status e,
      r = Http.Response status
            (Http.JsonValue (MesonApiResponse.mk None (Some e))) ->
      Http.ok_status status = true ->
      res = Err (ServiceError (operation ++ ApiError.message e))) /\
  (forall status,
      r = Http.Response status
            (Http.JsonValue (MesonApiResponse.mk None None)) ->
      Http.ok_status status = true -> res = Err ProtocolError).

Lemma respond_handles_reply {T} (operation : string) (r : Http.reply T)
      (o : outcome (MesonApiResponse.t T)) (ev : event) :
  Http.axios r = Some o ->
  handles_reply operation r (value (emit ev ;; respond operation o)).
Proof.
  intros Hr. rewrite value_bind. cbn [emit value snd].
  unfold handles_reply.
  split; [|split; [|split; [|split]]]; intros; subst r;
    cbn [Http.axios] in Hr;
    rewrite ?H0 in Hr; injection Hr as <-; reflexivity.
Qed.

(** An error envelope sent with the status 400.  The HTTP client rejects
    the request on the status, the operation rethrows that rejection, and
    the message of the relayer is in no error the operation raises. *)
Lemma error_envelope_with_error_status :
  let envelope :=
    MesonApiResponse.mk None (Some (ApiError.mk 400 "rate limited" None)) in
  let reply := Http.Response 400 (Http.JsonValue envelope) in
  let w := Sample.with_axios_list (Throws (Http.rejection 400))
             Sample.world in
  Http.axios reply = Some (axios_list w) /\
  value (getSupportedChains w)
  = Err (TransportError "Request failed with status code 400") /\
  value (getSupportedChains w)
  <> Err (ServiceError "Error fetching supported chains: rate limited").
Proof.
  vm_compute. repeat split. discriminate.
Qed.

(** C7, as the code has it.  Each of the registry, encode and submission
    operations sends its one request and then, whatever the relayer
    replies: without a reply it fails with a transport error around the
    failure of the network; on a reply with a status outside 200 to 299 it
    fails with a transport error that names the status, whatever envelope
    the body holds; on a reply with a status from 200 to 299 it returns the
    result of a success envelope unchanged, fails on an error envelope
    with a service error that carries the relayer's message, and fails on
    an envelope with neither a result nor an error with a protocol error.
    The body [null] is left out. *)
Theorem api_envelope_handling (w : World) :
  (trace (getSupportedChains w) = [Axios GetList] /\
   forall r, Http.axios r = Some (axios_list w) ->
     handles_reply "Error fetching supported chains: " r
       (value (getSupportedChains w))) /\
  (trace (getSwapLimits w) = [Axios GetLimits] /\
   forall r, Http.axios r = Some (axios_limits w) ->
     handles_reply "Error fetching swap limits: " r
       (value (getSwapLimits w))) /\
  (forall from to amount fromAddress recipient fromContract dataToContract,
      exists payload,
        trace (encodeSwap w from to amount fromAddress recipient fromContract
                          dataToContract) = [Axios (PostSwap payload)] /\
        forall r, Http.axios r = Some (axios_swap w payload) ->
          handles_reply "Error encoding swap: " r
            (value (encodeSwap w from to amount fromAddress recipient
                               fromContract dataToContract))) /\
  (forall encodedSwap fromAddress recipient signature,
      trace (submitSwap w encodedSwap fromAddress recipient signature)
      = [Axios (PostSwapEncoded encodedSwap fromAddress recipient signature)] /\
      forall r,
        Http.axios r
        = Some (axios_swap_encoded w encodedSwap fromAddress recipient
                  signature) ->
        handles_reply "Error submitting swap: " r
          (value (submitSwap w encodedSwap fromAddress recipient signature))).
Proof.
  assert (Htrace : forall T operation (o : outcome (MesonApiResponse.t T)) ev,
             trace (emit ev ;; respond operation o) = [ev]).
  { intros T operation o ev. rewrite trace_bind. simpl.
    destruct o as [[[r|] [e|]]|cause]; reflexivity. }
  split; [|split; [|split]].
  - split; [apply Htrace|]. intros r. apply respond_handles_reply.
  - split; [apply Htrace|]. intros r. apply respond_handles_reply.
  - intros from to amount fromAddress recipient fromContract dataToContract.
    eexists. split; [apply Htrace|]. intros r. apply respond_handles_reply.
  - intros encodedSwap fromAddress recipient signature.
    split; [apply Htrace|]. intros r. apply respond_handles_reply.
Qed.

Lemma api_envelope_handling_witness :
  value (getSupportedChains Sample.world) = Ok Sample.chains.
Proof.
  destruct (api_envelope_handling Sample.world) as ((_ & Hlist) & _).
  destruct (Hlist (Http.Response 200
                     (Http.JsonValue
                        (MesonApiResponse.mk (Some Sample.chains) None)))
              eq_refl) as (_ & _ & Hok & _).
  exact (Hok 200%Z Sample.chains None eq_refl eq_refl).
Defined.

(** An error envelope, an envelope of neither shape and a failed request,
    on the registry operation. *)
Example getSupportedChains_errors :
  let w o := mkWorld None Sample.parseFloat_digits Sample.stringify_fee
               (fun _ => Throws "") (fun _ => Throws "") (fun _ => Throws "")
               (fun _ _ => Throws "") o (Throws "") (fun _ => Throws "")
               (fun _ _ _ _ => Throws "") (fun _ _ => Throws "")
               (fun _ => Throws "") (fun _ => Throws "") (fun _ => Throws "")
               (fun _ => Throws "") (fun _ _ => Throws "")
               (fun _ => Throws "") in
  value (getSupportedChains
           (w (Returns (MesonApiResponse.mk None
                          (Some (ApiError.mk 400 "rate limited" None))))))
    = Err (ServiceError "Error fetching supported chains: rate limited") /\
  value (getSupportedChains (w (Returns (MesonApiResponse.mk None None))))
    = Err ProtocolError /\
  value (getSupportedChains (w (Throws "ECONNREFUSED")))
    = Err (TransportError "ECONNREFUSED").
Proof. repeat split. Qed.

(* ===================================================================== *)
(** ** Reasoning about runs *)
(* ===================================================================== *)

(** Every event of a run satisfies [P]. *)
Definition every_event {A} (P : event -> Prop) (m : M A) : Prop :=
  Forall P (trace m).

Section EveryEvent.
Variable P : event -> Prop.

Lemma every_ret {A} (a : A) : every_event P (ret a).
Proof. constructor. Qed.

Lemma every_throw {A} (e : error) : every_event P (@throw A e).
Proof. constructor. Qed.

Lemma every_emit (ev : event) : P ev -> every_event P (emit ev).
Proof. intros H. repeat constructor. exact H. Qed.

Lemma every_bind {A B} (m : M A) (k : A -> M B) :
  every_event P m ->
  (forall a, value m = Ok a -> every_event P (k a)) ->
  every_event P (bind m k).
Proof.
  unfold every_event. intros Hm Hk. rewrite trace_bind.
  apply Forall_app. split; [exact Hm|].
  destruct (value m) as [a|e]; [apply Hk; reflexivity | constructor].
Qed.

Lemma every_await {A} (mk : string -> error) (o : outcome A) :
  every_event P (await mk o).
Proof. destruct o; constructor. Qed.

Lemma every_respond {T} (operation : string)
      (o : outcome (MesonApiResponse.t T)) :
  every_event P (respond operation o).
Proof. destruct o as [[[r|] [e|]]|cause]; constructor. Qed.

Lemma every_validateChainToken chains chainId tokenId type :
  every_event P (validateChainToken chains chainId tokenId type).
Proof.
  unfold validateChainToken.
  destruct (find _ chains) as [c|]; [|constructor].
  destruct (find _ (Chain.tokens c)); constructor.
Qed.
End EveryEvent.

(** Walks down a run, leaving [P ev] for each event [ev] it can emit. *)
Ltac walk :=
  repeat first
    [ apply every_ret
    | apply every_throw
    | apply every_await
    | apply every_respond
    | apply every_validateChainToken
    | apply every_emit
    | apply every_bind; [ | intros ? ? ]
    | match goal with
      | |- every_event _ (if ?b then _ else _) => destruct b eqn:?
      | |- every_event _ (match ?x with _ => _ end) => destruct x eqn:?
      end ].

(** Symbolic execution of a run [m] in a goal [m = (t, r) -> _], one stage
    at a time: the stage at the head of the run is replaced by its trace
    and its outcome, kept in an equation. *)
Ltac run_head T :=
  lazymatch T with
  | match ?X with _ => _ end => run_head X
  | _ => T
  end.

Ltac run_simpl :=
  unfold console_log, console_warn, emit, ret, throw;
  cbn [bind negb andb orb].

Ltac run_step :=
  lazymatch goal with
  | |- ?L = _ -> _ =>
      let h := run_head L in
      lazymatch h with
      | (_, _) => fail
      | bind ?m _ =>
          let t := fresh "t" in
          let a := fresh "a" in
          let e := fresh "e" in
          let E := fresh "E" in
          destruct m as [t [a|e]] eqn:E
      | _ => let E := fresh "E" in destruct h eqn:E
      end; run_simpl
  end.

Ltac run_flow := run_simpl; repeat run_step.

(** Opens the equation [E] of a stage: what the world answered, and the
    trace and the outcome that follow. *)
Ltac stage_inv E :=
  unfold deriveAddress, getSupportedChains, getSwapLimits, encodeSwap,
    submitSwap, signMessageHash, validateChainToken, validateAmount,
    callTransferToMeson, deployTransferToMesonContract, respond, await,
    console_log, console_warn, emit, ret, throw in E;
  cbn [bind app truthy negb andb orb] in E;
  repeat (match type of E with
          | context [match ?x with _ => _ end] =>
              lazymatch x with
              | context [match _ with _ => _ end] => fail
              | _ => let H := fresh "H" in destruct x eqn:H
              end
          end; cbn [bind app truthy negb andb orb] in E);
  inversion E; subst; clear E.

(** Opens the equation of the stage that mentions [f]. *)
Ltac open_stage f :=
  match goal with
  | E : ?m = (_, _) |- _ =>
      lazymatch m with
      | context [f] => stage_inv E
      end
  end.

(** Finds an event in a trace written with [++] and [::]. *)
Ltac find_in :=
  lazymatch goal with
  | |- In _ (_ ++ _)%list =>
      apply in_or_app; first [ left; find_in | right; find_in ]
  | |- In _ (_ :: _) => first [ left; reflexivity | right; find_in ]
  end.

(** Splits a hypothesis [In ev t] along the [++] and [::] of [t]. *)
Ltac in_cases H :=
  repeat match type of H with
         | In _ (_ ++ _)%list => apply in_app_or in H; destruct H as [H|H]
         | In _ (_ :: _) => destruct H as [H|H]
         | In _ [] => destruct H
         end.

(* ===================================================================== *)
(** ** Dry runs *)
(* ===================================================================== *)

(** The requests that submit a swap to the relayer. *)
Definition submission (e : event) : Prop :=
  match e with
  | Axios (PostSwapEncoded _ _ _ _) | Axios (PostSwapFromContract _ _) => True
  | _ => False
  end.

(** The calls that reach the chain: deployment, gas estimation, broadcast
    and the waits for inclusion. *)
Definition on_chain (e : event) : Prop :=
  match e with
  | Deploy _ | WaitDeployment | EstimateGas _ | SendTransaction _ _
  | WaitReceipt _ => True
  | _ => False
  end.

Definition harmless (e : event) : Prop := ~ submission e /\ ~ on_chain e.

Lemma runBridge_dry (w : World) (o : BridgeOptions.t) :
  BridgeOptions.dryRun o = true -> every_event harmless (runBridge w o).
Proof.
  intros H. unfold runBridge. cbv zeta. rewrite H.
  unfold console_log, console_warn, deriveAddress, getSupportedChains,
    getSwapLimits, validateAmount, encodeSwap, signMessageHash.
  walk; try discriminate; split; intros [].
Qed.

Lemma runContractBridge_dry (w : World) (o : BridgeOptions.t) :
  BridgeOptions.dryRun o = true -> every_event harmless (runContractBridge w o).
Proof.
  intros H. unfold runContractBridge. cbv zeta. rewrite H.
  cbn [negb]. rewrite andb_false_r.
  unfold console_log, console_warn, deriveAddress, getSupportedChains,
    getSwapLimits, validateAmount, encodeSwap.
  walk; try discriminate; split; intros [].
Qed.

Lemma runBridge_dry_completes (w : World) (o : BridgeOptions.t) :
  BridgeOptions.dryRun o = true ->
  value (runBridge w o) = Ok tt ->
  In (ConsoleLog "Input validation passed.") (trace (runBridge w o)) /\
  (exists payload, In (Axios (PostSwap payload)) (trace (runBridge w o))) /\
  (exists hash, In (SignHash hash) (trace (runBridge w o))).
Proof.
  intros H. destruct (runBridge w o) as [t r] eqn:Hrun.
  cbn [trace value fst snd]. revert Hrun.
  unfold runBridge. cbv zeta. rewrite H.
  run_flow; intros [= <- <-]; try discriminate; intros _.
  all: open_stage encodeSwap; open_stage signMessageHash.
  all: repeat split; [find_in | eexists; find_in | eexists; find_in].
Qed.

Lemma runContractBridge_dry_completes (w : World) (o : BridgeOptions.t) :
  BridgeOptions.dryRun o = true ->
  value (runContractBridge w o) = Ok tt ->
  In (ConsoleLog "Input validation passed.") (trace (runContractBridge w o)) /\
  (exists a, In (ConsoleLog ("Meson Contract Address: " ++ a))
                (trace (runContractBridge w o))) /\
  (exists payload,
      In (Axios (PostSwap payload)) (trace (runContractBridge w o))).
Proof.
  intros H. destruct (runContractBridge w o) as [t r] eqn:Hrun.
  cbn [trace value fst snd]. revert Hrun.
  unfold runContractBridge. cbv zeta. rewrite H.
  run_flow; intros [= <- <-]; try discriminate; intros _.
  all: open_stage encodeSwap.
  all: repeat split; [find_in | eexists; find_in | eexists; find_in].
Qed.

(** C1.  With the dry-run flag set, neither flow sends a submission
    request or touches the chain: no contract is deployed, no gas is
    estimated, no transaction is broadcast.  A dry run that completes has
    passed validation and sent the encode request; in the EOA flow it has
    also signed, in the contract flow it has also resolved the relayer
    contract address. *)
Theorem dry_run_submits_nothing (w : World) (o : BridgeOptions.t) :
  BridgeOptions.dryRun o = true ->
  (forall e, In e (trace (runBridge w o)) -> ~ submission e /\ ~ on_chain e) /\
  (forall e, In e (trace (runContractBridge w o)) ->
             ~ submission e /\ ~ on_chain e) /\
  (value (runBridge w o) = Ok tt ->
   In (ConsoleLog "Input validation passed.") (trace (runBridge w o)) /\
   (exists payload, In (Axios (PostSwap payload)) (trace (runBridge w o))) /\
   (exists hash, In (SignHash hash) (trace (runBridge w o)))) /\
  (value (runContractBridge w o) = Ok tt ->
   In (ConsoleLog "Input validation passed.") (trace (runContractBridge w o)) /\
   (exists a, In (ConsoleLog ("Meson Contract Address: " ++ a))
                 (trace (runContractBridge w o))) /\
   (exists payload,
       In (Axios (PostSwap payload)) (trace (runContractBridge w o)))).
Proof.
  intros H. repeat apply conj.
  - apply Forall_forall. exact (runBridge_dry w o H).
  - apply Forall_forall. exact (runContractBridge_dry w o H).
  - apply runBridge_dry_completes. exact H.
  - apply runContractBridge_dry_completes. exact H.
Qed.

Lemma dry_run_submits_nothing_witness :
  let o := Sample.with_dryRun true (Sample.with_deployIfMissing true
                                      Sample.options) in
  (value (runBridge Sample.world o) = Ok tt /\
   forall e, In e (trace (runBridge Sample.world o)) -> ~ submission e) /\
  (value (runContractBridge Sample.world o) = Ok tt /\
   forall e, In e (trace (runContractBridge Sample.world o)) -> ~ on_chain e).
Proof.
  intros o.
  destruct (dry_run_submits_nothing Sample.world o eq_refl)
    as (Heoa & Hcontract & _ & _).
  split; (split; [reflexivity|]); intros e He.
  - exact (proj1 (Heoa e He)).
  - exact (proj2 (Hcontract e He)).
Defined.

(* ===================================================================== *)
(** ** The gas limit *)
(* ===================================================================== *)

Lemma await_Ok {A} (mk : string -> error) (o : outcome A) (a : A) :
  value (await mk o) = Ok a -> o = Returns a.
Proof. destruct o; simpl; congruence. Qed.

(** A broadcast carries the limit computed from the estimate of the
    transaction it broadcasts. *)
Definition limit_from_estimate (w : World) (e : event) : Prop :=
  match e with
  | SendTransaction tx limit =>
      exists gasEstimate,
        estimateGas w tx = Returns gasEstimate /\ limit = gasLimit gasEstimate
  | _ => True
  end.

Lemma callTransferToMeson_limit (w : World) mesonContractAddress encodedSwap
      wallet amount transferContractAddress deployIfMissing :
  every_event (limit_from_estimate w)
    (callTransferToMeson w mesonContractAddress encodedSwap wallet amount
       transferContractAddress deployIfMissing).
Proof.
  unfold callTransferToMeson, deployTransferToMesonContract. cbv zeta.
  walk; try exact I.
  simpl. eexists. split; [eapply await_Ok; eassumption | reflexivity].
Qed.

Lemma gasLimit_floor (gasEstimate : Z) :
  (0 <= gasEstimate)%Z -> gasLimit gasEstimate = (gasEstimate * 12 / 10)%Z.
Proof.
  intros H. unfold gasLimit. apply Z.quot_div_nonneg; lia.
Qed.

(** C6.  Every transaction the contract pathway sends carries the gas
    limit [gasLimit E], where [E] is the estimate obtained for that
    transaction; for a non-negative [E] this is [floor (E * 12 / 10)] in
    exact integer arithmetic; 100000 gives 120000 and 100001 gives
    120001. *)
Theorem gas_limit_of_sent_transaction (w : World) (o : BridgeOptions.t) :
  (forall tx limit,
      In (SendTransaction tx limit) (trace (runContractBridge w o)) ->
      exists E, estimateGas w tx = Returns E /\ limit = gasLimit E) /\
  (forall E, (0 <= E)%Z ->
             gasLimit E = (E * 12 / 10)%Z /\
             (10 * gasLimit E <= 12 * E < 10 * gasLimit E + 10)%Z) /\
  gasLimit 100000 = 120000%Z /\
  gasLimit 100001 = 120001%Z.
Proof.
  split; [|split; [|split; reflexivity]].
  - assert (H : every_event (limit_from_estimate w) (runContractBridge w o)).
    { unfold runContractBridge. cbv zeta.
      unfold console_log, console_warn, deriveAddress, getSupportedChains,
        getSwapLimits, validateAmount, encodeSwap,
        deployTransferToMesonContract.
      walk; try exact I.
      simpl. eexists. split; [eapply await_Ok; eassumption | reflexivity]. }
    intros tx limit Hin.
    exact (proj1 (Forall_forall _ _) H _ Hin).
  - intros E HE. rewrite (gasLimit_floor E HE). split; [reflexivity|].
    pose proof (Z.div_mod (E * 12) 10 ltac:(lia)).
    pose proof (Z.mod_pos_bound (E * 12) 10 ltac:(lia)).
    lia.
Qed.

Lemma gas_limit_of_sent_transaction_witness :
  let o := Sample.with_transferContract (Some "0xT") Sample.options in
  let tx := Tx.mk "0xT" 2748 (Some "0xME") (100 * 10 ^ 18) in
  In (SendTransaction tx 120001) (trace (runContractBridge Sample.world o)) /\
  (exists E, estimateGas Sample.world tx = Returns E /\
             120001%Z = gasLimit E) /\
  gasLimit 7 = (7 * 12 / 10)%Z.
Proof.
  intros o tx.
  destruct (gas_limit_of_sent_transaction Sample.world o) as (Hsent & Hfloor & _).
  assert (Hin : In (SendTransaction tx 120001)
                   (trace (runContractBridge Sample.world o))).
  { vm_compute. repeat (first [left; reflexivity | right]). }
  split; [exact Hin|]. split.
  - exact (Hsent tx 120001%Z Hin).
  - apply (Hfloor 7%Z). lia.
Defined.


(* ===================================================================== *)
(** ** [contract.ts]: deployment and the call of the wrapper contract *)
(* ===================================================================== *)

Lemma deployTransferToMesonContract_Ok (w : World)
      (mesonContractAddress : string) (wallet : Wallet) (a : string) :
  value (deployTransferToMesonContract w mesonContractAddress wallet) = Ok a ->
  factory_deploy w mesonContractAddress = Returns a /\
  deployment_wait w a = Returns tt.
Proof.
  unfold deployTransferToMesonContract.
  destruct (factory_deploy w mesonContractAddress) as [a'|cause];
    [destruct (deployment_wait w a') as [[]|cause] eqn:Hw|]; simpl;
    rewrite ?Hw; simpl; try discriminate.
  intros [= <-]. auto.
Qed.

Lemma deployTransferToMesonContract_events (w : World)
      (mesonContractAddress : string) (wallet : Wallet) :
  every_event (fun e => e = Deploy mesonContractAddress \/ e = WaitDeployment)
    (deployTransferToMesonContract w mesonContractAddress wallet).
Proof.
  unfold deployTransferToMesonContract. walk; auto.
Qed.

(** X6.  [deployTransferToMesonContract] yields an address exactly when
    the factory returned it and the wait for the deployment transaction
    succeeded; any failure is the deployment's or the wait's error,
    rethrown; the wait is reached exactly when the factory returned; and
    the run always begins with the deployment for the relayer contract
    address it was given, whatever the wallet. *)
Theorem deployTransferToMesonContract_outcome (w : World)
        (mesonContractAddress : string) (wallet : Wallet) :
  let run := deployTransferToMesonContract w mesonContractAddress wallet in
  (forall a, value run = Ok a <->
             factory_deploy w mesonContractAddress = Returns a /\
             deployment_wait w a = Returns tt) /\
  (forall e, value run = Err e ->
             exists cause,
               e = DeploymentError cause /\
               (factory_deploy w mesonContractAddress = Throws cause \/
                exists a, factory_deploy w mesonContractAddress = Returns a /\
                          deployment_wait w a = Throws cause)) /\
  (In WaitDeployment (trace run) <->
   exists a, factory_deploy w mesonContractAddress = Returns a) /\
  (exists rest, trace run = Deploy mesonContractAddress :: rest /\
                forall a, ~ In (Deploy a) rest).
Proof.
  intros run. unfold run, deployTransferToMesonContract.
  destruct (factory_deploy w mesonContractAddress) as [a|cause] eqn:Hd;
    [destruct (deployment_wait w a) as [[]|cause] eqn:Hw|]; simpl;
    rewrite ?Hw; simpl.
  all: split; [intros a'; split; [intros H | intros [H1 H2]]
              | split; [intros e H
                       | split; [split; [intros H | intros [a' H]]|]]].
  all: try (eexists; split; [reflexivity|]; intros a0 Hin; simpl in Hin).
  all: try congruence; eauto.
  all: try solve [ destruct Hin as [Hin|[]]; discriminate Hin ].
  all: try solve [ injection H as <-; eauto 6 ].
  all: try solve [ destruct H ].
  destruct H as [H|[]]. discriminate H.
Qed.

(** The transaction [callTransferToMeson] builds: the target is the
    wrapper address supplied, or else the one just deployed; the arguments
    are the encoded swap as an integer and the initiator of the encode
    result; the value is the amount in wei. *)
Definition call_tx (w : World) (mesonContractAddress : string)
           (encodedSwap : EncodeSwapResult.t) (amount : string)
           (transferContractAddress : option string) (tx : Tx.t) : Prop :=
  (if truthy transferContractAddress
   then Tx.to tx = str transferContractAddress
   else factory_deploy w mesonContractAddress = Returns (Tx.to tx) /\
        deployment_wait w (Tx.to tx) = Returns tt) /\
  BigInt w (EncodeSwapResult.encoded encodedSwap)
    = Returns (Tx.encodedSwap tx) /\
  Tx.initiator tx = EncodeSwapResult.initiator encodedSwap /\
  parseEther w amount = Returns (Tx.value tx) /\
  populateTransaction w tx = Returns tt.

Definition call_event (w : World) (mesonContractAddress : string)
           (encodedSwap : EncodeSwapResult.t) (amount : string)
           (transferContractAddress : option string) (deployIfMissing : bool)
           (e : event) : Prop :=
  let built := call_tx w mesonContractAddress encodedSwap amount
                       transferContractAddress in
  match e with
  | Deploy a =>
      a = mesonContractAddress /\ truthy transferContractAddress = false /\
      deployIfMissing = true
  | WaitDeployment =>
      truthy transferContractAddress = false /\ deployIfMissing = true
  | EstimateGas tx => built tx
  | SendTransaction tx limit =>
      built tx /\
      exists gasEstimate,
        estimateGas w tx = Returns gasEstimate /\ limit = gasLimit gasEstimate
  | WaitReceipt hash =>
      exists tx gasEstimate,
        built tx /\ estimateGas w tx = Returns gasEstimate /\
        sendTransaction w tx (gasLimit gasEstimate) = Returns hash
  | Axios _ | SignHash _ => False
  | ConsoleLog _ | ConsoleWarn _ | ConsoleError _ _ => True
  end.

Lemma await_unit_Ok (mk : string -> error) (o : outcome unit) (u : unit) :
  value (await mk o) = Ok u -> o = Returns tt.
Proof. destruct o as [[]|]; simpl; congruence. Qed.

Ltac await_facts :=
  repeat match goal with
         | H : value (await _ ?o) = Ok ?a |- _ =>
             first [ apply await_unit_Ok in H | apply await_Ok in H ]
         end.

Lemma callTransferToMeson_events (w : World) (mesonContractAddress : string)
      (encodedSwap : EncodeSwapResult.t) (wallet : Wallet) (amount : string)
      (transferContractAddress : option string) (deployIfMissing : bool) :
  every_event
    (call_event w mesonContractAddress encodedSwap amount
       transferContractAddress deployIfMissing)
    (callTransferToMeson w mesonContractAddress encodedSwap wallet
       amount transferContractAddress deployIfMissing).
Proof.
  unfold callTransferToMeson. cbv zeta.
  destruct (truthy transferContractAddress) eqn:Hsupplied;
    destruct deployIfMissing; cbn [negb andb].
  3: apply every_bind;
       [ eapply Forall_impl; [|apply deployTransferToMesonContract_events];
         intros ? [->| ->]; simpl; auto
       | intros ? Hdeployed;
         apply deployTransferToMesonContract_Ok in Hdeployed;
         destruct Hdeployed as [Hdeployed Hmined] ].
  all: walk.
  all: unfold call_event, call_tx; cbv zeta; rewrite ?Hsupplied.
  all: cbn [Tx.to Tx.encodedSwap Tx.initiator Tx.value].
  all: await_facts.
  all: repeat match goal with
              | H : value (ret _) = Ok _ |- _ => injection H as <-
              | H : value (bind _ _) = Ok _ |- _ =>
                  rewrite value_bind in H
              end.
  all: try solve [ repeat apply conj; auto ].
  all: try solve [ repeat apply conj; eauto ].
  all: eapply (ex_intro _ (Tx.mk _ _ _ _)); eexists;
    cbn [Tx.to Tx.encodedSwap Tx.initiator Tx.value];
    repeat apply conj; try eassumption; reflexivity.
Qed.

(** The same, of a run given by its trace and outcome. *)
Lemma callTransferToMeson_trace (w : World) mesonContractAddress encodedSwap
      wallet amount transferContractAddress deployIfMissing t r :
  callTransferToMeson w mesonContractAddress encodedSwap wallet amount
    transferContractAddress deployIfMissing = (t, r) ->
  Forall (call_event w mesonContractAddress encodedSwap amount
            transferContractAddress deployIfMissing) t.
Proof.
  intros H.
  pose proof (callTransferToMeson_events w mesonContractAddress encodedSwap
                wallet amount transferContractAddress deployIfMissing) as Hev.
  unfold every_event in Hev. rewrite H in Hev. exact Hev.
Qed.

(** X7.  Every step [callTransferToMeson] takes on the chain.  It deploys
    only when no wrapper address was supplied and deployment was asked
    for, and then for the relayer contract address given.  The
    transaction it estimates, and the one it broadcasts, is the populated
    call of the wrapper (supplied or just deployed) with the encoded swap,
    the encode result's initiator and the amount in wei; the broadcast
    carries the limit computed from the estimate of that same
    transaction; and the receipt awaited is that of the broadcast.  It
    sends nothing to the relayer and signs no hash.  What [this.log]
    prints under the debug option is outside the model and the statement
    says nothing of printing. *)
Theorem callTransferToMeson_steps (w : World) (mesonContractAddress : string)
        (encodedSwap : EncodeSwapResult.t) (wallet : Wallet) (amount : string)
        (transferContractAddress : option string) (deployIfMissing : bool)
        (e : event) :
  In e (trace (callTransferToMeson w mesonContractAddress encodedSwap wallet
                 amount transferContractAddress deployIfMissing)) ->
  call_event w mesonContractAddress encodedSwap amount transferContractAddress
             deployIfMissing e.
Proof.
  revert e. apply Forall_forall. apply callTransferToMeson_events.
Qed.

Lemma callTransferToMeson_steps_witness :
  let enc := Sample.encoded_swap_with_initiator
               (EncodeSwapParams.mk "base:eth" "eth:usdc" "100" "0xME"
                  "0xRECIPIENT" (Some true) None) in
  let tx := Tx.mk "0xTRANSFER" 2748 (Some "0xRELAYER") (100 * 10 ^ 18)%Z in
  call_event Sample.world "0xAAA" enc "100" (Some "0xTRANSFER") false
             (SendTransaction tx 120001).
Proof.
  intros enc tx.
  apply (callTransferToMeson_steps Sample.world "0xAAA" enc "0xKEY" "100"
           (Some "0xTRANSFER") false).
  vm_compute. right; left; reflexivity.
Defined.

(** Opens [callTransferToMeson] into one case per answer of the chain. *)
Ltac call_open :=
  unfold callTransferToMeson, deployTransferToMesonContract, await, emit,
    ret, throw;
  cbv zeta.

Ltac call_split :=
  cbn [bind app value trace fst snd negb andb];
  repeat (match goal with
          | |- context [match ?o with Returns _ => _ | Throws _ => _ end] =>
              lazymatch o with
              | context [match _ with _ => _ end] => fail
              | _ => destruct o eqn:?
              end
          end;
          cbn [bind app value trace fst snd negb andb]).

Ltac call_cases :=
  call_open;
  match goal with
  | |- context [negb (truthy ?a) && ?d] =>
      destruct (truthy a) eqn:Hsupplied; destruct d
  end;
  call_split.

Lemma callTransferToMeson_Ok (w : World) (mesonContractAddress : string)
      (encodedSwap : EncodeSwapResult.t) (wallet : Wallet) (amount : string)
      (transferContractAddress : option string) (deployIfMissing : bool)
      (hash : string) :
  value (callTransferToMeson w mesonContractAddress encodedSwap wallet amount
           transferContractAddress deployIfMissing) = Ok hash <->
  (truthy transferContractAddress = true \/ deployIfMissing = true) /\
  exists tx gasEstimate,
    call_tx w mesonContractAddress encodedSwap amount transferContractAddress
            tx /\
    estimateGas w tx = Returns gasEstimate /\
    sendTransaction w tx (gasLimit gasEstimate) = Returns hash /\
    response_wait w hash = Returns tt.
Proof.
  unfold call_tx. split.
  - call_cases; try discriminate.
    all: intros [= <-]; (split; [auto|]).
    all: repeat match goal with u : unit |- _ => destruct u end.
    all: eapply (ex_intro _ (Tx.mk _ _ _ _)); eexists;
      cbn [Tx.to Tx.encodedSwap Tx.initiator Tx.value];
      repeat apply conj; try eassumption; reflexivity.
  - intros (Hmode & [to encodedSwapBigInt initiator value] & gasEstimate
            & (Hto & Hbig & Hinit & Hvalue & Hpop) & Hest & Hsend & Hwait).
    cbn [Tx.to Tx.encodedSwap Tx.initiator Tx.value] in *. subst initiator.
    unfold callTransferToMeson, deployTransferToMesonContract. cbv zeta.
    destruct (truthy transferContractAddress) eqn:Hsupplied.
    + subst to. cbn [negb andb]. rewrite Hbig, Hvalue. simpl.
      rewrite Hpop. simpl. rewrite Hest. simpl. rewrite Hsend. simpl.
      rewrite Hwait. reflexivity.
    + destruct Hto as [Hdeploy Hmined].
      destruct Hmode as [Hmode| ->]; [discriminate Hmode|].
      cbn [negb andb]. rewrite Hdeploy. simpl. rewrite Hmined. simpl.
      rewrite Hbig, Hvalue. simpl.
      rewrite Hpop. simpl. rewrite Hest. simpl. rewrite Hsend. simpl.
      rewrite Hwait. reflexivity.
Qed.

(** X8.  The outcome of [callTransferToMeson].  It returns a hash exactly
    when a wrapper address was supplied or deployment was asked for, the
    transaction could be built and estimated, the broadcast returned that
    hash and the wait for its receipt succeeded.  It fails with the
    missing-wrapper error, before any step, exactly when no address was
    supplied and no deployment asked for; otherwise a failure is the
    deployment's or the call's own error.  Once a receipt is awaited, the
    only possible failure is that of the wait: the broadcast stays made.
    With a wrapper address supplied, the relayer contract address and the
    deployment flag play no part in the outcome and in the steps taken on
    the chain. *)
Theorem callTransferToMeson_outcome (w : World) (mesonContractAddress : string)
        (encodedSwap : EncodeSwapResult.t) (wallet : Wallet) (amount : string)
        (transferContractAddress : option string) (deployIfMissing : bool) :
  let run := callTransferToMeson w mesonContractAddress encodedSwap wallet
               amount transferContractAddress deployIfMissing in
  (forall hash,
      value run = Ok hash <->
      (truthy transferContractAddress = true \/ deployIfMissing = true) /\
      exists tx gasEstimate,
        call_tx w mesonContractAddress encodedSwap amount
                transferContractAddress tx /\
        estimateGas w tx = Returns gasEstimate /\
        sendTransaction w tx (gasLimit gasEstimate) = Returns hash /\
        response_wait w hash = Returns tt) /\
  (value run = Err MissingIntermediaryContractError <->
   truthy transferContractAddress = false /\ deployIfMissing = false) /\
  (truthy transferContractAddress = false -> deployIfMissing = false ->
   trace run = []) /\
  (forall e, value run = Err e ->
             e = MissingIntermediaryContractError \/
             (exists cause, e = DeploymentError cause) \/
             (exists cause, e = ContractCallError cause)) /\
  (forall hash e,
      In (WaitReceipt hash) (trace run) -> value run = Err e ->
      exists cause,
        response_wait w hash = Throws cause /\ e = ContractCallError cause) /\
  (truthy transferContractAddress = true ->
   forall mesonContractAddress' deployIfMissing',
     callTransferToMeson w mesonContractAddress' encodedSwap wallet amount
       transferContractAddress deployIfMissing' = run).
Proof.
  intros run. split; [|split; [|split; [|split; [|split]]]].
  - intros hash. apply callTransferToMeson_Ok.
  - unfold run.
    call_cases.
    all: split; [intros H; try discriminate H; auto
                | intros [H1 H2]; try discriminate; reflexivity].
  - intros Hsupplied ->. unfold run, callTransferToMeson. cbv zeta.
    rewrite Hsupplied. reflexivity.
  - intros e. unfold run.
    call_cases.
    all: intros [= <-]; eauto.
  - intros hash e. unfold run.
    call_cases.
    all: intros Hin [= <-]; simpl in Hin.
    all: repeat match type of Hin with
                | _ \/ _ => destruct Hin as [Hin|Hin]
                end.
    all: try discriminate Hin; try contradiction.
    all: injection Hin as <-; eauto.
  - intros Hsupplied mesonContractAddress' deployIfMissing'.
    unfold run, callTransferToMeson. cbv zeta. rewrite Hsupplied.
    reflexivity.
Qed.

Lemma callTransferToMeson_outcome_witness :
  let enc := Sample.encoded_swap_with_initiator
               (EncodeSwapParams.mk "base:eth" "eth:usdc" "100" "0xME"
                  "0xRECIPIENT" (Some true) None) in
  trace (callTransferToMeson Sample.world "0xAAA" enc "0xKEY" "100" None false)
  = [] /\
  callTransferToMeson Sample.world "0xBBB" enc "0xKEY" "100"
    (Some "0xTRANSFER") true
  = callTransferToMeson Sample.world "0xAAA" enc "0xKEY" "100"
      (Some "0xTRANSFER") false.
Proof.
  intros enc. split.
  - destruct (callTransferToMeson_outcome Sample.world "0xAAA" enc "0xKEY"
                "100" None false) as (_ & _ & Hnone & _).
    exact (Hnone eq_refl eq_refl).
  - destruct (callTransferToMeson_outcome Sample.world "0xAAA" enc "0xKEY"
                "100" (Some "0xTRANSFER") false) as (_ & _ & _ & _ & _ & Hsame).
    exact (Hsame eq_refl "0xBBB" true).
Defined.

(** A call that returns has broadcast a transaction. *)
Lemma callTransferToMeson_sends (w : World) mesonContractAddress encodedSwap
      wallet amount transferContractAddress deployIfMissing t hash :
  callTransferToMeson w mesonContractAddress encodedSwap wallet amount
    transferContractAddress deployIfMissing = (t, Ok hash) ->
  exists tx limit, In (SendTransaction tx limit) t.
Proof.
  call_cases; intros [= <- _]; do 2 eexists; simpl; eauto 6.
Qed.

Lemma callTransferToMeson_supplied_fails (w : World) mesonContractAddress
      encodedSwap wallet amount transferContractAddress deployIfMissing t e :
  truthy transferContractAddress = true ->
  callTransferToMeson w mesonContractAddress encodedSwap wallet amount
    transferContractAddress deployIfMissing = (t, Err e) ->
  exists cause, e = ContractCallError cause.
Proof.
  intros H. call_open. rewrite H. call_split.
  all: intros [= _ <-]; eauto.
Qed.

(* ===================================================================== *)
(** ** The relayer contract address *)
(* ===================================================================== *)

(** Opens the stage whose trace an event is said to be in. *)
Ltac in_inv H :=
  in_cases H;
  try discriminate H;
  try (match type of H with
       | In _ ?t =>
           match goal with
           | E : _ = (t, _) |- _ => stage_inv E
           end
       end;
       in_cases H; try discriminate H).

Lemma ConsoleLog_prefix_inj (prefix a b : string) :
  ConsoleLog (prefix ++ a) = ConsoleLog (prefix ++ b) -> a = b.
Proof.
  intros [= H]. induction prefix as [|c prefix IH]; simpl in H.
  - exact H.
  - injection H as H. exact (IH H).
Qed.

Lemma findContractAddress_truthy (chains : list Chain.t) (chainId : string) :
  truthy (findContractAddress chains chainId) = true ->
  exists c, find (fun c => String.eqb (Chain.id c) chainId) chains = Some c /\
            str (findContractAddress chains chainId) = Chain.address c /\
            Chain.address c <> EmptyString.
Proof.
  unfold findContractAddress.
  destruct (find _ chains) as [c|]; [|discriminate].
  intros H. exists c. repeat split. simpl in H.
  destruct (Chain.address c); [discriminate H | discriminate].
Qed.

(** The address the contract flow resolves for the relayer contract: the
    override, or else the address of the registry entry of the source
    chain. *)
Definition resolved (w : World) (o : BridgeOptions.t) (a : string) : Prop :=
  let override := BridgeOptions.mesonContract o in
  let fromChain := chain_of (BridgeOptions.from o) in
  (truthy override = true /\ a = str override) \/
  (truthy override = false /\
   exists chains c,
     value (getSupportedChains w) = Ok chains /\
     find (fun c => String.eqb (Chain.id c) fromChain) chains = Some c /\
     a = Chain.address c /\ a <> EmptyString).

Lemma runContractBridge_uses_resolved (w : World) (o : BridgeOptions.t)
      (a : string) :
  In (Deploy a) (trace (runContractBridge w o)) \/
  In (ConsoleLog ("Meson Contract Address: " ++ a))
     (trace (runContractBridge w o)) ->
  resolved w o a.
Proof.
  destruct (runContractBridge w o) as [t r] eqn:Hrun.
  cbn [trace value fst snd]. revert Hrun.
  unfold runContractBridge. cbv zeta.
  run_flow; intros [= <- <-] [H|H].
  all: in_inv H.
  all: try (injection H as <-).
  all: try (apply ConsoleLog_prefix_inj in H; subst a).
  all: assert (Hchains : value (getSupportedChains w) = Ok a1)
    by (unfold value; rewrite E1; reflexivity).
  all: open_stage findContractAddress.
  all: unfold resolved; cbv zeta.
  all: try (left; split; [assumption | reflexivity]).
  all: right; split; [assumption|].
  all: match goal with
       | Hf : negb (truthy (findContractAddress _ _)) = false |- _ =>
           apply negb_false_iff, findContractAddress_truthy in Hf;
           destruct Hf as (c & Hc & Hs & Hne)
       end.
  all: exists a1, c; rewrite Hs; auto.
Qed.


Lemma validateChainToken_entry (chains : list Chain.t) (chainId : string)
      (tokenId : option string) (type : string) (u : unit) :
  value (validateChainToken chains chainId tokenId type) = Ok u ->
  exists c, find (fun c => String.eqb (Chain.id c) chainId) chains = Some c.
Proof.
  unfold validateChainToken.
  destruct (find _ chains) as [c|]; [eauto | discriminate].
Qed.

Lemma findContractAddress_falsy (chains : list Chain.t) (chainId : string)
      (c : Chain.t) :
  find (fun c => String.eqb (Chain.id c) chainId) chains = Some c ->
  (truthy (findContractAddress chains chainId) = false
   <-> Chain.address c = EmptyString).
Proof.
  intros H. unfold findContractAddress. rewrite H. simpl.
  destruct (Chain.address c); split; congruence.
Qed.

(** The registry and the limits have been fetched and the three checks of
    the options have passed. *)
Definition validated (w : World) (o : BridgeOptions.t) : Prop :=
  exists chains limits,
    value (getSupportedChains w) = Ok chains /\
    value (getSwapLimits w) = Ok limits /\
    value (validateChainToken chains (chain_of (BridgeOptions.from o))
             (token_of (BridgeOptions.from o)) "source") = Ok tt /\
    value (validateChainToken chains (chain_of (BridgeOptions.to o))
             (token_of (BridgeOptions.to o)) "destination") = Ok tt /\
    value (validateAmount w limits (chain_of (BridgeOptions.to o))
             (token_of (BridgeOptions.to o))
             (parseFloat w (BridgeOptions.amount o))) = Ok tt.

(** The run gets as far as the resolution of the relayer contract
    address: a key is there and makes a wallet, and the options pass
    validation against the fetched registry and limits. *)
Definition reaches_resolution (w : World) (o : BridgeOptions.t) : Prop :=
  let key := js_or (BridgeOptions.privateKey o) (PRIVATE_KEY w) in
  truthy key = true /\
  (exists fromAddress, Wallet_address w (str key) = Returns fromAddress) /\
  validated w o.

Lemma runContractBridge_not_found_only (w : World) (o : BridgeOptions.t)
      (chain : string) :
  value (runContractBridge w o) = Err (ContractAddressNotFoundError chain) ->
  chain = chain_of (BridgeOptions.from o) /\
  truthy (BridgeOptions.mesonContract o) = false /\
  reaches_resolution w o /\
  exists chains c,
    value (getSupportedChains w) = Ok chains /\
    find (fun c => String.eqb (Chain.id c) chain) chains = Some c /\
    Chain.address c = EmptyString.
Proof.
  destruct (runContractBridge w o) as [t r] eqn:Hrun.
  cbn [trace value fst snd]. revert Hrun.
  unfold runContractBridge. cbv zeta.
  run_flow; intros [= <- <-] Hr; try discriminate Hr.
  all: injection Hr as ->.
  all: match goal with
       | E : _ = (_, Err _) |- _ => stage_inv E
       end.
  repeat match goal with
         | E : ?m = (_, Ok ?a) |- _ =>
             assert (value m = Ok a) by (rewrite E; reflexivity); clear E
         end.
  repeat match goal with u : unit |- _ => destruct u end.
  match goal with
  | H : value (validateChainToken ?chains _ _ "source") = Ok tt |- _ =>
      destruct (validateChainToken_entry _ _ _ _ _ H) as [c Hc]
  end.
  split; [reflexivity|]. split; [reflexivity|]. split.
  - unfold reaches_resolution. cbv zeta.
    split; [apply negb_false_iff; assumption|].
    split.
    + match goal with
      | H : value (deriveAddress _ _) = Ok ?a |- _ =>
          exists a; unfold deriveAddress in H; apply await_Ok in H; exact H
      end.
    + do 2 eexists. repeat apply conj; eassumption.
  - do 2 eexists. split; [reflexivity|]. split; [exact Hc|].
    apply (findContractAddress_falsy _ _ _ Hc).
    apply negb_true_iff. assumption.
Qed.

Lemma runContractBridge_address_not_found (w : World) (o : BridgeOptions.t)
      (chains : list Chain.t) (c : Chain.t) :
  truthy (BridgeOptions.mesonContract o) = false ->
  reaches_resolution w o ->
  value (getSupportedChains w) = Ok chains ->
  find (fun c => String.eqb (Chain.id c) (chain_of (BridgeOptions.from o)))
       chains = Some c ->
  Chain.address c = EmptyString ->
  value (runContractBridge w o)
  = Err (ContractAddressNotFoundError (chain_of (BridgeOptions.from o))).
Proof.
  unfold reaches_resolution. cbv zeta.
  intros Hov (Hkey & (a & Ha) & (chains' & limits & Hc' & Hl & Hsrc & Hdst
                                & Hamt)) Hc Hfind Haddr.
  rewrite Hc in Hc'. injection Hc' as <-.
  assert (Hd : value (deriveAddress w (str (js_or (BridgeOptions.privateKey o)
                                                  (PRIVATE_KEY w)))) = Ok a).
  { unfold deriveAddress. rewrite Ha. reflexivity. }
  unfold runContractBridge. cbv zeta. rewrite Hkey, Hov. cbn [negb].
  unfold console_log.
  repeat first
    [ rewrite value_bind, Hd
    | rewrite value_bind, Hc
    | rewrite value_bind, Hl
    | rewrite value_bind, Hsrc
    | rewrite value_bind, Hdst
    | rewrite value_bind, Hamt
    | rewrite value_bind; cbn [emit value snd] ].
  rewrite (proj2 (findContractAddress_falsy _ _ _ Hfind) Haddr).
  reflexivity.
Qed.

Lemma runContractBridge_unsupported_source (w : World) (o : BridgeOptions.t)
      (chains : list Chain.t) :
  let key := js_or (BridgeOptions.privateKey o) (PRIVATE_KEY w) in
  truthy key = true ->
  (exists fromAddress, Wallet_address w (str key) = Returns fromAddress) ->
  value (getSupportedChains w) = Ok chains ->
  (exists limits, value (getSwapLimits w) = Ok limits) ->
  find (fun c => String.eqb (Chain.id c) (chain_of (BridgeOptions.from o)))
       chains = None ->
  value (runContractBridge w o)
  = Err (UnsupportedChainError "source" (chain_of (BridgeOptions.from o))).
Proof.
  intros key Hkey (a & Ha) Hc (limits & Hl) Hfind.
  assert (Hd : value (deriveAddress w (str key)) = Ok a).
  { unfold deriveAddress. rewrite Ha. reflexivity. }
  unfold runContractBridge. cbv zeta. fold key. rewrite Hkey. cbn [negb].
  unfold console_log.
  repeat first
    [ rewrite value_bind, Hd
    | rewrite value_bind, Hc
    | rewrite value_bind, Hl
    | rewrite value_bind; cbn [emit value snd] ].
  unfold validateChainToken at 1. rewrite Hfind. reflexivity.
Qed.

(** A source chain that is not in the registry, with no override: the run
    fails at validation, with the unsupported-chain error, and not with the
    address-not-found error. *)
Lemma unknown_source_chain_fails_validation :
  let o := BridgeOptions.mk "sol:usdc" "eth:usdc" "100" "0xRECIPIENT"
             (Some "0xKEY") false false None None false
             "https://base.llamarpc.com" in
  truthy (BridgeOptions.mesonContract o) = false /\
  findContractAddress Sample.chains "sol" = None /\
  value (runContractBridge Sample.world o)
  = Err (UnsupportedChainError "source" "sol") /\
  value (runContractBridge Sample.world o)
  <> Err (ContractAddressNotFoundError "sol").
Proof.
  vm_compute. repeat split. discriminate.
Qed.

(** C8, as the code has it.  The contract flow resolves the relayer
    contract address by ordered fallback.  The address it deploys against
    and reports is the override when one is supplied, and otherwise the
    non-empty address of the registry entry found for the source chain.
    It fails with the address-not-found error exactly when no override is
    supplied, the run gets as far as the resolution, and the registry
    entry of the source chain has an empty address; the error names the
    source chain.  A source chain with no registry entry never gets as far:
    validation has rejected it with the unsupported-chain error. *)
Theorem meson_contract_address_resolution (w : World) (o : BridgeOptions.t) :
  let run := runContractBridge w o in
  let override := BridgeOptions.mesonContract o in
  let fromChain := chain_of (BridgeOptions.from o) in
  let key := js_or (BridgeOptions.privateKey o) (PRIVATE_KEY w) in
  (forall a,
      In (Deploy a) (trace run) \/
      In (ConsoleLog ("Meson Contract Address: " ++ a)) (trace run) ->
      (truthy override = true /\ a = str override) \/
      (truthy override = false /\
       exists chains c,
         value (getSupportedChains w) = Ok chains /\
         find (fun c => String.eqb (Chain.id c) fromChain) chains = Some c /\
         a = Chain.address c /\ a <> EmptyString)) /\
  (value run = Err (ContractAddressNotFoundError fromChain) <->
   truthy override = false /\
   reaches_resolution w o /\
   exists chains c,
     value (getSupportedChains w) = Ok chains /\
     find (fun c => String.eqb (Chain.id c) fromChain) chains = Some c /\
     Chain.address c = EmptyString) /\
  (forall chain,
      value run = Err (ContractAddressNotFoundError chain) ->
      chain = fromChain) /\
  (forall chains,
      truthy key = true ->
      (exists fromAddress, Wallet_address w (str key) = Returns fromAddress) ->
      value (getSupportedChains w) = Ok chains ->
      (exists limits, value (getSwapLimits w) = Ok limits) ->
      find (fun c => String.eqb (Chain.id c) fromChain) chains = None ->
      value run = Err (UnsupportedChainError "source" fromChain)).
Proof.
  intros run override fromChain key. repeat apply conj.
  - intros a Ha. exact (runContractBridge_uses_resolved w o a Ha).
  - intros H.
    destruct (runContractBridge_not_found_only w o fromChain H)
      as (_ & Hov & Hreach & Hentry).
    auto.
  - intros (Hov & Hreach & chains & c & Hc & Hfind & Haddr).
    exact (runContractBridge_address_not_found w o chains c Hov Hreach Hc
             Hfind Haddr).
  - intros chain H.
    exact (proj1 (runContractBridge_not_found_only w o chain H)).
  - intros chains.
    exact (runContractBridge_unsupported_source w o chains).
Qed.

Lemma meson_contract_address_resolution_witness :
  let w := Sample.with_axios_list
             (Returns (MesonApiResponse.mk
                         (Some Sample.chains_without_address) None))
             Sample.world in
  value (runContractBridge w Sample.options)
    = Err (ContractAddressNotFoundError "base") /\
  In (ConsoleLog "Meson Contract Address: 0xAAA")
     (trace (runContractBridge Sample.world
               (Sample.with_dryRun true Sample.options))).
Proof.
  intros w. split.
  - destruct (meson_contract_address_resolution w Sample.options)
      as (_ & [_ Hnone] & _).
    apply Hnone. split; [reflexivity|]. split.
    + split; [reflexivity|]. split; [exists "0xME"; reflexivity|].
      exists Sample.chains_without_address, Sample.limits.
      vm_compute. repeat split.
    + exists Sample.chains_without_address,
        (Chain.mk "base" "Base" "0x2105" "" None [Sample.eth]).
      repeat split.
  - assert (Hin : In (ConsoleLog ("Meson Contract Address: " ++ "0xAAA"))
                     (trace (runContractBridge Sample.world
                               (Sample.with_dryRun true Sample.options)))).
    { vm_compute. repeat (first [left; reflexivity | right]). }
    destruct (meson_contract_address_resolution Sample.world
                (Sample.with_dryRun true Sample.options)) as (Hused & _ & _).
    destruct (Hused "0xAAA" (or_intror Hin)) as [[Hov _]|_];
      [discriminate Hov | exact Hin].
Defined.

(* ===================================================================== *)
(** ** The intermediary contract and the encode request *)
(* ===================================================================== *)

Lemma backfill_initiator_spec (initiator : string) (x : EncodeSwapResult.t) :
  EncodeSwapResult.initiator (backfill_initiator initiator x)
  = (if truthy (EncodeSwapResult.initiator x)
     then EncodeSwapResult.initiator x else Some initiator) /\
  EncodeSwapResult.encoded (backfill_initiator initiator x)
  = EncodeSwapResult.encoded x /\
  EncodeSwapResult.fromContract (backfill_initiator initiator x)
  = EncodeSwapResult.fromContract x /\
  EncodeSwapResult.fee (backfill_initiator initiator x)
  = EncodeSwapResult.fee x.
Proof.
  unfold backfill_initiator.
  destruct (truthy (EncodeSwapResult.initiator x)); repeat split.
Qed.

Lemma runContractBridge_missing_after_encode (w : World)
      (o : BridgeOptions.t) :
  truthy (BridgeOptions.transferContract o) = false ->
  BridgeOptions.deployIfMissing o = false ->
  BridgeOptions.dryRun o = false ->
  value (runContractBridge w o) = Err MissingIntermediaryContractError ->
  exists payload d x,
    In (Axios (PostSwap payload)) (trace (runContractBridge w o)) /\
    value (deriveAddress w (str (js_or (BridgeOptions.privateKey o)
                                       (PRIVATE_KEY w))))
      = Ok (EncodeSwapParams.fromAddress payload) /\
    axios_swap w payload = Returns d /\
    MesonApiResponse.result d = Some x /\
    nonempty (EncodeSwapResult.encoded x) = true /\
    truthy (EncodeSwapResult.fromContract x) = false /\
    forall e, In e (trace (runContractBridge w o)) -> ~ on_chain e.
Proof.
  intros Ht Hd Hr.
  destruct (runContractBridge w o) as [t r] eqn:Hrun.
  cbn [trace value fst snd]. revert Hrun.
  unfold runContractBridge. cbv zeta. rewrite Ht, Hd, Hr.
  run_flow; intros [= <- <-] He; try discriminate He.
  all: injection He as ->.
  all: match goal with
       | E : _ = (_, Err _) |- _ => stage_inv E
       end.
  open_stage encodeSwap.
  open_stage backfill_initiator.
  all: try (rewrite Ht in *; discriminate).
  all: try match goal with
           | H1 : ?b = true, H2 : negb ?b = true |- _ =>
               rewrite H1 in H2; discriminate H2
           end.
  do 3 eexists. split; [find_in|].
  split; [|split; [eassumption|split; [eassumption|split; [|split]]]].
  - cbn [value snd EncodeSwapParams.fromAddress]. unfold js_or.
    rewrite Ht. reflexivity.
  - match goal with
    | H : negb (nonempty (EncodeSwapResult.encoded
                            (backfill_initiator ?i ?x))) = false |- _ =>
        destruct (backfill_initiator_spec i x) as (_ & <- & _);
        apply negb_false_iff; exact H
    end.
  - match goal with
    | H : truthy (EncodeSwapResult.fromContract (backfill_initiator ?i ?x))
          = false |- _ =>
        destruct (backfill_initiator_spec i x) as (_ & _ & <- & _); exact H
    end.
  - intros e He. in_inv He; subst e; intros [].
Qed.

Lemma runContractBridge_missing_when (w : World) (o : BridgeOptions.t)
      payload d x :
  truthy (BridgeOptions.transferContract o) = false ->
  BridgeOptions.deployIfMissing o = false ->
  BridgeOptions.dryRun o = false ->
  In (Axios (PostSwap payload)) (trace (runContractBridge w o)) ->
  axios_swap w payload = Returns d ->
  MesonApiResponse.result d = Some x ->
  nonempty (EncodeSwapResult.encoded x) = true ->
  truthy (EncodeSwapResult.fromContract x) = false ->
  value (runContractBridge w o) = Err MissingIntermediaryContractError.
Proof.
  intros Ht Hd Hr.
  destruct (runContractBridge w o) as [t r] eqn:Hrun.
  cbn [trace value fst snd]. revert Hrun.
  unfold runContractBridge. cbv zeta. rewrite Ht, Hd, Hr.
  run_flow; intros [= <- <-] Hin Hswap Hres Henc Hfrom.
  all: in_inv Hin.
  all: injection Hin as <-.
  all: match goal with
       | H : axios_swap _ _ = _ |- _ =>
           tryif constr_eq H Hswap then fail else rewrite H in Hswap
       end; try discriminate Hswap; injection Hswap as <-.
  all: match goal with
       | H : MesonApiResponse.result _ = _ |- _ =>
           tryif constr_eq H Hres then fail else rewrite H in Hres
       end; try discriminate Hres; injection Hres as <-.
  all: match goal with
       | H : context [backfill_initiator ?i ?x] |- _ =>
           destruct (backfill_initiator_spec i x) as (_ & Hb1 & Hb2 & _);
           rewrite ?Hb1, ?Hb2 in *
       end.
  all: rewrite ?Henc, ?Hfrom, ?Ht in *; try discriminate.
  all: cbn [negb andb] in *.
  all: match goal with
       | E : (_, Ok _) = (_, Ok _) |- _ => injection E as <- <-
       end.
  all: match goal with
       | E : callTransferToMeson _ _ _ _ _ _ _ = _ |- _ =>
           unfold callTransferToMeson in E; rewrite Ht in E;
           unfold throw in E; cbn [negb andb bind] in E;
           inversion E; subst
       end.
  reflexivity.
Qed.

Lemma runContractBridge_dry_reports (w : World) (o : BridgeOptions.t) :
  truthy (BridgeOptions.transferContract o) = false ->
  BridgeOptions.deployIfMissing o = false ->
  BridgeOptions.dryRun o = true ->
  value (runContractBridge w o) <> Err MissingIntermediaryContractError /\
  (value (runContractBridge w o) = Ok tt ->
   In (ConsoleLog
         "No TransferToMeson contract provided and deployment not requested")
      (trace (runContractBridge w o))).
Proof.
  intros Ht Hd Hr.
  destruct (runContractBridge w o) as [t r] eqn:Hrun.
  cbn [trace value fst snd]. revert Hrun.
  unfold runContractBridge. cbv zeta. rewrite Ht, Hd, Hr.
  run_flow; intros [= <- <-]; (split; [|intros He; try discriminate He]).
  all: try find_in.
  all: try discriminate.
  all: intros He; injection He as ->.
  all: match goal with
       | E : _ = (_, Err _) |- _ => stage_inv E
       end.
Qed.


(** Finds an event known to belong to one stage's trace in a trace written
    with [++] and [::]. *)
Ltac find_hyp H :=
  lazymatch goal with
  | |- In _ (_ ++ _)%list =>
      apply in_or_app; first [ left; find_hyp H | right; find_hyp H ]
  | |- In _ (_ :: _) => right; find_hyp H
  | |- _ => exact H
  end.

Lemma runContractBridge_named_wrapper (w : World) (o : BridgeOptions.t)
      payload d x :
  truthy (BridgeOptions.transferContract o) = false ->
  BridgeOptions.deployIfMissing o = false ->
  BridgeOptions.dryRun o = false ->
  In (Axios (PostSwap payload)) (trace (runContractBridge w o)) ->
  axios_swap w payload = Returns d ->
  MesonApiResponse.result d = Some x ->
  truthy (EncodeSwapResult.fromContract x) = true ->
  value (runContractBridge w o) <> Err MissingIntermediaryContractError /\
  (forall tx limit,
      In (EstimateGas tx) (trace (runContractBridge w o)) \/
      In (SendTransaction tx limit) (trace (runContractBridge w o)) ->
      Tx.to tx = str (EncodeSwapResult.fromContract x)) /\
  (value (runContractBridge w o) = Ok tt ->
   exists tx limit,
     In (SendTransaction tx limit) (trace (runContractBridge w o)) /\
     Tx.to tx = str (EncodeSwapResult.fromContract x)).
Proof.
  intros Ht Hd Hr.
  destruct (runContractBridge w o) as [t r] eqn:Hrun.
  cbn [trace value fst snd]. revert Hrun.
  unfold runContractBridge. cbv zeta. rewrite Ht, Hd, Hr.
  run_flow; intros [= <- <-] Hin Hswap Hres Hfrom.
  all: in_inv Hin.
  all: injection Hin as <-.
  all: match goal with
       | H : axios_swap _ _ = _ |- _ =>
           tryif constr_eq H Hswap then fail else rewrite H in Hswap
       end; try discriminate Hswap; injection Hswap as <-.
  all: match goal with
       | H : MesonApiResponse.result _ = _ |- _ =>
           tryif constr_eq H Hres then fail else rewrite H in Hres
       end; try discriminate Hres; injection Hres as <-.
  all: repeat match goal with
              | E : (if _ then _ else _) = (_, _) |- _ =>
                  revert E; run_flow; intros [= <- <-]
              end.
  all: repeat match goal with
              | H : context [EncodeSwapResult.fromContract
                               (backfill_initiator ?i ?x)] |- _ =>
                  rewrite (proj1 (proj2 (proj2 (backfill_initiator_spec i x))))
                    in H
              end.
  all: rewrite ?Ht in *; cbn [negb] in *; try discriminate.
  all: try match goal with
           | E : truthy (EncodeSwapResult.fromContract _) = false |- _ =>
               rewrite Hfrom in E; discriminate E
           end.
  all: (split;
        [ intros Hx; try discriminate Hx;
          match goal with
          | E : callTransferToMeson _ _ _ _ _ _ _ = (_, Err _) |- _ =>
              destruct (callTransferToMeson_supplied_fails _ _ _ _ _ _ _ _ _
                          Hfrom E) as [cause Hcause];
              rewrite Hcause in Hx; discriminate Hx
          end
        | ]).
  all: (split;
        [ intros tx limit [Hx|Hx];
          in_cases Hx; try discriminate Hx;
          match type of Hx with
          | In _ ?t =>
              match goal with
              | E : callTransferToMeson _ _ _ _ _ _ _ = (t, _) |- _ =>
                  apply (proj1 (Forall_forall _ _)
                           (callTransferToMeson_trace _ _ _ _ _ _ _ _ _ E))
                    in Hx;
                  cbn [call_event] in Hx; unfold call_tx in Hx;
                  rewrite Hfrom in Hx;
                  first [ exact (proj1 Hx) | exact (proj1 (proj1 Hx)) ]
              | E : _ = (t, _) |- _ =>
                  stage_inv E; in_cases Hx; discriminate Hx
              end
          end
        | ]).
  all: intros Hx; try discriminate Hx.
  all: match goal with
       | E : callTransferToMeson _ _ _ _ _ _ _ = (_, Ok _) |- _ =>
           destruct (callTransferToMeson_sends _ _ _ _ _ _ _ _ _ E)
             as (tx & limit & Hsent);
           pose proof (proj1 (Forall_forall _ _)
                         (callTransferToMeson_trace _ _ _ _ _ _ _ _ _ E)
                         _ Hsent) as Hev;
           cbn [call_event] in Hev; unfold call_tx in Hev;
           rewrite Hfrom in Hev;
           exists tx, limit
       end.
  all: (split; [|exact (proj1 (proj1 Hev))]).
  all: find_hyp Hsent.
Qed.

(** A run in which no intermediary contract is supplied or to be deployed
    and that is not a dry run: the encode request has been sent, with the
    caller's own address as sender, when the missing-contract error is
    raised.  With a relayer that names the intermediary contract in its
    response, the same options raise no error at all. *)
Lemma missing_intermediary_raised_after_encode :
  let o := Sample.options in
  let run := runContractBridge Sample.world o in
  let named :=
    Sample.with_axios_swap
      (fun p => Returns (MesonApiResponse.mk
                           (Some (Sample.encoded_swap_with_fromContract p))
                           None))
      Sample.world in
  truthy (BridgeOptions.transferContract o) = false /\
  BridgeOptions.deployIfMissing o = false /\
  BridgeOptions.dryRun o = false /\
  value run = Err MissingIntermediaryContractError /\
  In (Axios (PostSwap (EncodeSwapParams.mk "base:eth" "eth:usdc" "100" "0xME"
                         "0xRECIPIENT" (Some true) None)))
     (trace run) /\
  value (runContractBridge named o) = Ok tt.
Proof.
  vm_compute. repeat split.
  repeat (first [left; reflexivity | right]).
Qed.

(** C2, as the code has it.  When no intermediary contract address is
    supplied and deploy-if-missing is not set, the flow does not stop at
    the resolve/deploy step.  Without dry-run it fails with the
    missing-contract error exactly when it has sent the encode request,
    with the caller's own derived address as sender, and the relayer has
    answered with a non-empty encoded swap that names no intermediary
    contract; the error is then raised by the contract call, before
    anything reaches the chain.  When the relayer's answer names an
    intermediary contract, the error is not raised and that address is the
    one used: every transaction the run estimates or sends is addressed to
    it, and a run that completes has sent one.  With dry-run the condition
    is reported on the console and never raised. *)
Theorem missing_intermediary_contract (w : World) (o : BridgeOptions.t) :
  truthy (BridgeOptions.transferContract o) = false ->
  BridgeOptions.deployIfMissing o = false ->
  let run := runContractBridge w o in
  (BridgeOptions.dryRun o = false ->
   (value run = Err MissingIntermediaryContractError ->
    exists payload d x,
      In (Axios (PostSwap payload)) (trace run) /\
      value (deriveAddress w (str (js_or (BridgeOptions.privateKey o)
                                         (PRIVATE_KEY w))))
        = Ok (EncodeSwapParams.fromAddress payload) /\
      axios_swap w payload = Returns d /\
      MesonApiResponse.result d = Some x /\
      nonempty (EncodeSwapResult.encoded x) = true /\
      truthy (EncodeSwapResult.fromContract x) = false /\
      forall e, In e (trace run) -> ~ on_chain e) /\
   (forall payload d x,
       In (Axios (PostSwap payload)) (trace run) ->
       axios_swap w payload = Returns d ->
       MesonApiResponse.result d = Some x ->
       nonempty (EncodeSwapResult.encoded x) = true ->
       truthy (EncodeSwapResult.fromContract x) = false ->
       value run = Err MissingIntermediaryContractError) /\
   (forall payload d x,
       In (Axios (PostSwap payload)) (trace run) ->
       axios_swap w payload = Returns d ->
       MesonApiResponse.result d = Some x ->
       truthy (EncodeSwapResult.fromContract x) = true ->
       value run <> Err MissingIntermediaryContractError /\
       (forall tx limit,
           In (EstimateGas tx) (trace run) \/
           In (SendTransaction tx limit) (trace run) ->
           Tx.to tx = str (EncodeSwapResult.fromContract x)) /\
       (value run = Ok tt ->
        exists tx limit,
          In (SendTransaction tx limit) (trace run) /\
          Tx.to tx = str (EncodeSwapResult.fromContract x)))) /\
  (BridgeOptions.dryRun o = true ->
   value run <> Err MissingIntermediaryContractError /\
   (value run = Ok tt ->
    In (ConsoleLog
          "No TransferToMeson contract provided and deployment not requested")
       (trace run))).
Proof.
  intros Ht Hd run. split.
  - intros Hr. split; [|split].
    + apply runContractBridge_missing_after_encode; assumption.
    + intros payload d x. apply runContractBridge_missing_when; assumption.
    + intros payload d x. apply runContractBridge_named_wrapper; assumption.
  - intros Hr. apply runContractBridge_dry_reports; assumption.
Qed.

Lemma missing_intermediary_contract_witness :
  value (runContractBridge Sample.world Sample.options)
    = Err MissingIntermediaryContractError /\
  In (ConsoleLog
        "No TransferToMeson contract provided and deployment not requested")
     (trace (runContractBridge Sample.world
               (Sample.with_dryRun true Sample.options))).
Proof.
  split.
  - destruct (missing_intermediary_contract Sample.world Sample.options
                eq_refl eq_refl) as [Hraise _].
    destruct (Hraise eq_refl) as (_ & Hwhen & _).
    assert (Hin : In (Axios (PostSwap (EncodeSwapParams.mk "base:eth"
                                         "eth:usdc" "100" "0xME" "0xRECIPIENT"
                                         (Some true) None)))
                     (trace (runContractBridge Sample.world Sample.options))).
    { vm_compute. repeat (first [left; reflexivity | right]). }
    exact (Hwhen _ _ _ Hin eq_refl eq_refl eq_refl eq_refl).
  - destruct (missing_intermediary_contract Sample.world
                (Sample.with_dryRun true Sample.options) eq_refl eq_refl)
      as [_ Hdry].
    destruct (Hdry eq_refl) as [_ Hreport].
    apply Hreport. reflexivity.
Defined.

Lemma runContractBridge_encode_request (w : World) (o : BridgeOptions.t)
      (payload : EncodeSwapParams.t) :
  In (Axios (PostSwap payload)) (trace (runContractBridge w o)) ->
  exists fromAddress,
    value (deriveAddress w (str (js_or (BridgeOptions.privateKey o)
                                       (PRIVATE_KEY w)))) = Ok fromAddress /\
    EncodeSwapParams.fromContract payload = Some true /\
    (truthy (BridgeOptions.transferContract o) = true ->
     EncodeSwapParams.fromAddress payload
     = str (BridgeOptions.transferContract o)) /\
    (truthy (BridgeOptions.transferContract o) = false ->
     BridgeOptions.deployIfMissing o && negb (BridgeOptions.dryRun o) = false ->
     EncodeSwapParams.fromAddress payload = fromAddress) /\
    (truthy (BridgeOptions.transferContract o) = false ->
     BridgeOptions.deployIfMissing o && negb (BridgeOptions.dryRun o) = true ->
     exists mesonContractAddress deployed,
       In (Deploy mesonContractAddress) (trace (runContractBridge w o)) /\
       factory_deploy w mesonContractAddress = Returns deployed /\
       EncodeSwapParams.fromAddress payload
       = if nonempty deployed then deployed else fromAddress).
Proof.
  destruct (runContractBridge w o) as [t r] eqn:Hrun.
  cbn [trace value fst snd]. revert Hrun.
  unfold runContractBridge. cbv zeta.
  run_flow; intros [= <- <-] Hin.
  all: in_inv Hin.
  all: injection Hin as <-.
  all: eexists; split; [reflexivity|]; split; [reflexivity|].
  all: cbn [EncodeSwapParams.fromAddress].
  all: open_stage deployTransferToMesonContract.
  all: repeat apply conj; intros Htc; try intros Hdep.
  all: rewrite ?Htc, ?Hdep in *; cbn [negb andb] in *; try discriminate.
  all: unfold js_or; rewrite ?Htc; cbn [truthy str]; try reflexivity.
  all: try (destruct (BridgeOptions.deployIfMissing o);
            cbn [negb andb] in *; congruence).
  all: do 2 eexists; split; [find_in | split; [eassumption|]].
  all: match goal with
       | |- context [nonempty ?d] => destruct d; reflexivity
       end.
Qed.

Lemma runContractBridge_initiator (w : World) (o : BridgeOptions.t)
      (payload : EncodeSwapParams.t) (tx : Tx.t) :
  In (EstimateGas tx) (trace (runContractBridge w o)) ->
  In (Axios (PostSwap payload)) (trace (runContractBridge w o)) ->
  exists fromAddress d x,
    value (deriveAddress w (str (js_or (BridgeOptions.privateKey o)
                                       (PRIVATE_KEY w)))) = Ok fromAddress /\
    axios_swap w payload = Returns d /\
    MesonApiResponse.result d = Some x /\
    Tx.initiator tx = if truthy (EncodeSwapResult.initiator x)
                      then EncodeSwapResult.initiator x
                      else Some fromAddress.
Proof.
  destruct (runContractBridge w o) as [t r] eqn:Hrun.
  cbn [trace value fst snd]. revert Hrun.
  unfold runContractBridge. cbv zeta.
  run_flow; intros [= <- <-] Htx Hin.
  all: in_inv Htx.
  all: injection Htx as <-.
  all: in_inv Hin.
  all: injection Hin as <-.
  all: do 3 eexists; split; [reflexivity|]; split; [eassumption|];
    split; [eassumption|].
  all: cbn [Tx.initiator]; apply backfill_initiator_spec.
Qed.


(** Two runs of the contract flow against the wording that the encode
    request never carries the caller's own address and that the initiator
    is always the caller's.  In the first no intermediary contract is
    supplied or deployed, and the sender of the encode request is the
    address derived from the caller's key.  In the second the relayer
    names an initiator of its own, and the call is built with it, not with
    the caller's address. *)
Lemma encode_sender_and_initiator_differ :
  let w' :=
    Sample.with_axios_swap
      (fun p => Returns (MesonApiResponse.mk
                           (Some (Sample.encoded_swap_with_initiator p))
                           None))
      Sample.world in
  let o' := Sample.with_transferContract (Some "0xT") Sample.options in
  value (deriveAddress Sample.world "0xKEY") = Ok "0xME" /\
  In (Axios (PostSwap (EncodeSwapParams.mk "base:eth" "eth:usdc" "100" "0xME"
                         "0xRECIPIENT" (Some true) None)))
     (trace (runContractBridge Sample.world Sample.options)) /\
  In (EstimateGas (Tx.mk "0xT" 2748 (Some "0xRELAYER") (100 * 10 ^ 18)))
     (trace (runContractBridge w' o')).
Proof.
  vm_compute. repeat split; repeat (first [left; reflexivity | right]).
Qed.

(** C3, as the code has it.  Every encode request of the contract flow has
    the contract flag set.  Its sender is the intermediary contract
    address when one was supplied, or the address of the contract just
    deployed when deployment was requested outside a dry run, and
    otherwise the caller's own derived address.  The initiator of the
    encoded swap handed to the contract call is the relayer's when the
    response has one, and the caller's own derived address, set locally,
    exactly when the response has none. *)
Theorem contract_encode_request (w : World) (o : BridgeOptions.t)
        (payload : EncodeSwapParams.t) :
  let run := runContractBridge w o in
  let transferContract := BridgeOptions.transferContract o in
  let deploys :=
    BridgeOptions.deployIfMissing o && negb (BridgeOptions.dryRun o) in
  In (Axios (PostSwap payload)) (trace run) ->
  exists fromAddress,
    value (deriveAddress w (str (js_or (BridgeOptions.privateKey o)
                                       (PRIVATE_KEY w)))) = Ok fromAddress /\
    EncodeSwapParams.fromContract payload = Some true /\
    (truthy transferContract = true ->
     EncodeSwapParams.fromAddress payload = str transferContract) /\
    (truthy transferContract = false -> deploys = false ->
     EncodeSwapParams.fromAddress payload = fromAddress) /\
    (truthy transferContract = false -> deploys = true ->
     exists mesonContractAddress deployed,
       In (Deploy mesonContractAddress) (trace run) /\
       factory_deploy w mesonContractAddress = Returns deployed /\
       EncodeSwapParams.fromAddress payload
       = if nonempty deployed then deployed else fromAddress) /\
    (forall tx,
        In (EstimateGas tx) (trace run) ->
        exists d x,
          axios_swap w payload = Returns d /\
          MesonApiResponse.result d = Some x /\
          Tx.initiator tx = (if truthy (EncodeSwapResult.initiator x)
                             then EncodeSwapResult.initiator x
                             else Some fromAddress) /\
          (truthy (EncodeSwapResult.initiator x) = false ->
           backfill_initiator fromAddress x
           = EncodeSwapResult.set_initiator fromAddress x) /\
          (truthy (EncodeSwapResult.initiator x) = true ->
           backfill_initiator fromAddress x = x)).
Proof.
  intros run transferContract deploys Hin.
  destruct (runContractBridge_encode_request w o payload Hin)
    as (fromAddress & Hfrom & Hflag & Hgiven & Hself & Hdeployed).
  exists fromAddress. repeat apply conj; try assumption.
  intros tx Htx.
  destruct (runContractBridge_initiator w o payload tx Htx Hin)
    as (fromAddress' & d & x & Hfrom' & Hd & Hx & Hinit).
  assert (fromAddress' = fromAddress) as -> by congruence.
  exists d, x. repeat apply conj; try assumption.
  - intros Hnone. unfold backfill_initiator. rewrite Hnone. reflexivity.
  - intros Hsome. unfold backfill_initiator. rewrite Hsome. reflexivity.
Qed.

Lemma contract_encode_request_witness :
  let o := Sample.with_transferContract (Some "0xT") Sample.options in
  let payload := EncodeSwapParams.mk "base:eth" "eth:usdc" "100" "0xT"
                   "0xRECIPIENT" (Some true) None in
  In (Axios (PostSwap payload)) (trace (runContractBridge Sample.world o)) /\
  exists fromAddress,
    value (deriveAddress Sample.world "0xKEY") = Ok fromAddress /\
    EncodeSwapParams.fromContract payload = Some true /\
    EncodeSwapParams.fromAddress payload = "0xT".
Proof.
  intros o payload.
  assert (Hin : In (Axios (PostSwap payload))
                   (trace (runContractBridge Sample.world o))).
  { vm_compute. repeat (first [left; reflexivity | right]). }
  split; [exact Hin|].
  destruct (contract_encode_request Sample.world o payload Hin)
    as (fromAddress & Hfrom & Hflag & Hgiven & _).
  exists fromAddress.
  split; [exact Hfrom|]. split; [exact Hflag | exact (Hgiven eq_refl)].
Defined.

(* ===================================================================== *)
(** ** Amounts that are not numbers *)
(* ===================================================================== *)

Lemma validateAmount_NaN_found (w : World) (limits : list ChainLimit.t)
      (chainId : string) (tokenId : option string) chainLimit tokenLimit :
  find (fun c => String.eqb (ChainLimit.id c) chainId) limits
    = Some chainLimit ->
  find (fun t => strict_eq (Token.id t) tokenId)
       (ChainLimit.tokens chainLimit) = Some tokenLimit ->
  validateAmount w limits chainId tokenId NaN = ret tt.
Proof.
  intros Hc Ht.
  rewrite (validateAmount_found w limits chainId tokenId NaN
             chainLimit tokenLimit Hc Ht).
  rewrite num_lt_NaN_l. unfold num_gt. fold (num_lt (limit_max w tokenLimit) NaN).
  rewrite num_lt_NaN_r. reflexivity.
Qed.

Lemma validateAmount_NaN_Ok (w : World) (limits : list ChainLimit.t)
      (chainId : string) (tokenId : option string) :
  value (validateAmount w limits chainId tokenId NaN) = Ok tt.
Proof.
  destruct (find (fun c => String.eqb (ChainLimit.id c) chainId) limits)
    as [chainLimit|] eqn:Hc.
  - destruct (find (fun t => strict_eq (Token.id t) tokenId)
                   (ChainLimit.tokens chainLimit)) as [tokenLimit|] eqn:Ht.
    + rewrite (validateAmount_NaN_found w limits chainId tokenId
                 chainLimit tokenLimit Hc Ht).
      reflexivity.
    + unfold validateAmount. rewrite Hc, Ht. reflexivity.
  - unfold validateAmount. rewrite Hc. reflexivity.
Qed.

Definition out_of_range (r : result unit) : Prop :=
  match r with
  | Err (AmountOutOfRangeError _ _ _ _ _) => True
  | _ => False
  end.

(** Closes the branches of a flow that fail at another stage than
    [validateAmount], and the branch in which [validateAmount] fails on a
    NaN amount. *)
Ltac not_out_of_range HNaN :=
  intros [= <- <-] Hr; try solve [destruct Hr];
  match goal with
  | E : validateAmount ?w ?l ?c ?t _ = (_, Err _) |- _ =>
      rewrite HNaN in E;
      pose proof (validateAmount_NaN_Ok w l c t) as Hok;
      unfold value in Hok; rewrite E in Hok; discriminate Hok
  | E : _ = (_, Err _) |- _ => stage_inv E; destruct Hr
  end.

Lemma runBridge_NaN_amount (w : World) (o : BridgeOptions.t) :
  parseFloat w (BridgeOptions.amount o) = NaN ->
  ~ out_of_range (value (runBridge w o)).
Proof.
  intros HNaN.
  destruct (runBridge w o) as [t r] eqn:Hrun.
  cbn [trace value fst snd]. revert Hrun.
  unfold runBridge. cbv zeta.
  run_flow; not_out_of_range HNaN.
Qed.

Lemma runContractBridge_NaN_amount (w : World) (o : BridgeOptions.t) :
  parseFloat w (BridgeOptions.amount o) = NaN ->
  ~ out_of_range (value (runContractBridge w o)).
Proof.
  intros HNaN.
  destruct (runContractBridge w o) as [t r] eqn:Hrun.
  cbn [trace value fst snd]. revert Hrun.
  unfold runContractBridge. cbv zeta.
  run_flow; not_out_of_range HNaN.
Qed.

(** C10.  A NaN amount, what [parseFloat] makes of a non-numeric amount
    string in both flows, passes [validateAmount] on every limits snapshot:
    neither [NaN < min] nor [NaN > max] holds.  Where the token has a limit
    entry the call returns without a warning either.  So neither flow
    fails with the out-of-range error on an amount string that parses to
    NaN. *)
Theorem validateAmount_NaN (w : World) (limits : list ChainLimit.t)
        (chainId : string) (tokenId : option string) :
  (forall bound, num_lt NaN bound = false /\ num_gt NaN bound = false) /\
  value (validateAmount w limits chainId tokenId NaN) = Ok tt /\
  (forall chainLimit tokenLimit,
      find (fun c => String.eqb (ChainLimit.id c) chainId) limits
        = Some chainLimit ->
      find (fun t => strict_eq (Token.id t) tokenId)
           (ChainLimit.tokens chainLimit) = Some tokenLimit ->
      validateAmount w limits chainId tokenId NaN = ret tt) /\
  (forall o : BridgeOptions.t,
      parseFloat w (BridgeOptions.amount o) = NaN ->
      ~ out_of_range (value (runBridge w o)) /\
      ~ out_of_range (value (runContractBridge w o))).
Proof.
  split; [|split; [|split]].
  - intros bound. split; [apply num_lt_NaN_l | apply num_lt_NaN_r].
  - apply validateAmount_NaN_Ok.
  - apply validateAmount_NaN_found.
  - intros o HNaN. split.
    + apply runBridge_NaN_amount. exact HNaN.
    + apply runContractBridge_NaN_amount. exact HNaN.
Qed.

Lemma validateAmount_NaN_witness :
  let o :=
    BridgeOptions.mk "base:eth" "eth:usdc" "lots" "0xRECIPIENT" (Some "0xKEY")
      true false None None false "https://base.llamarpc.com" in
  parseFloat Sample.world "lots" = NaN /\
  validateAmount Sample.world Sample.limits "eth" (Some "usdc")
    (parseFloat Sample.world "lots") = ret tt /\
  value (runBridge Sample.world o) = Ok tt /\
  ~ out_of_range (value (runBridge Sample.world o)).
Proof.
  intros o.
  pose proof (validateAmount_NaN Sample.world Sample.limits "eth" (Some "usdc"))
    as (_ & _ & Hfound & Hflows).
  split; [reflexivity|]. split; [|split].
  - exact (Hfound _ _ eq_refl eq_refl).
  - reflexivity.
  - exact (proj1 (Hflows o eq_refl)).
Defined.

(* ===================================================================== *)
(** ** The two end-to-end scenarios *)
(* ===================================================================== *)

(** The EOA flow to a token without a limits entry: the amount check is
    skipped with a warning, the swap is encoded as [0xabc], its hash
    [0x123] is signed, and the submission returns the swap id [sw1]. *)
Example eoa_scenario :
  let o :=
    BridgeOptions.mk "eth:usdc" "base:eth" "5" "0xRECIPIENT" (Some "0xKEY")
      false false None None false "" in
  let run := runBridge Sample.world o in
  value run = Ok tt /\
  In (ConsoleWarn "Warning: Could not find swap limits for token 'eth' on chain 'base'. Proceeding without amount limit check.")
     (trace run) /\
  In (SignHash "0x123") (trace run) /\
  In (Axios (PostSwapEncoded "0xabc" "0xME" "0xRECIPIENT" "sig:0x123"))
     (trace run) /\
  In (ConsoleLog "Swap ID: sw1") (trace run).
Proof.
  vm_compute. repeat split; repeat (first [left; reflexivity | right]).
Qed.

(** The contract flow as a dry run, with no relayer contract address, no
    intermediary contract and no deployment requested: the address of Base
    in the registry is resolved, the missing contract is reported, and the
    run stops after the encode request. *)
Example contract_dry_run_scenario :
  let run := runContractBridge Sample.world
               (Sample.with_dryRun true Sample.options) in
  value run = Ok tt /\
  In (ConsoleLog "Meson Contract Address: 0xAAA") (trace run) /\
  In (ConsoleLog
        "No TransferToMeson contract provided and deployment not requested")
     (trace run) /\
  last (filter (fun e => match e with ConsoleLog _ => false | _ => true end)
               (trace run))
       (Axios GetList)
  = Axios (PostSwap (EncodeSwapParams.mk "base:eth" "eth:usdc" "100" "0xME"
                       "0xRECIPIENT" (Some true) None)).
Proof.
  vm_compute. repeat split; repeat (first [left; reflexivity | right]).
Qed.

(* ===================================================================== *)
(** ** The [chain:token] arguments *)
(* ===================================================================== *)

(** No [':'] in the string. *)
Fixpoint colon_free (s : string) : bool :=
  match s with
  | EmptyString => true
  | String c s' => negb (Ascii.eqb c ":") && colon_free s'
  end.

Lemma split_nonempty (sep : ascii) (s : string) : split sep s <> [].
Proof.
  destruct s as [|c s]; simpl; [discriminate|].
  destruct (Ascii.eqb c sep); [discriminate|].
  destruct (split sep s); discriminate.
Qed.

(** [s.split(':').join(':')] is [s]: the parts lose nothing. *)
Lemma split_concat (s : string) : String.concat ":" (split ":" s) = s.
Proof.
  induction s as [|c s IH]; [reflexivity|].
  simpl split. destruct (Ascii.eqb_spec c ":") as [->|Hc].
  - pose proof (split_nonempty ":" s) as Hne.
    destruct (split ":" s) as [|p ps]; [contradiction|].
    simpl in *. rewrite IH. reflexivity.
  - pose proof (split_nonempty ":" s) as Hne.
    destruct (split ":" s) as [|p ps]; [contradiction|].
    simpl in *. destruct ps; simpl in *; rewrite <- IH; reflexivity.
Qed.

Lemma split_colon_free (s : string) :
  colon_free s = true -> split ":" s = [s].
Proof.
  induction s as [|c s IH]; simpl; [reflexivity|].
  intros H. apply andb_true_iff in H. destruct H as [Hc Hs].
  apply negb_true_iff in Hc. rewrite Hc, (IH Hs). reflexivity.
Qed.

Lemma split_first (a b : string) :
  colon_free a = true -> split ":" (a ++ ":" ++ b) = a :: split ":" b.
Proof.
  induction a as [|c a IH]; simpl; [reflexivity|].
  intros H. apply andb_true_iff in H. destruct H as [Hc Ha].
  apply negb_true_iff in Hc. rewrite Hc.
  simpl in IH. rewrite (IH Ha). reflexivity.
Qed.

(** X1.  How a [chain:token] argument is taken apart.  The chain is the
    text before the first colon and the token the text between the first
    and the second colon; what follows a second colon is dropped.  An
    argument without a colon is all chain, and its token is
    [undefined]. *)
Theorem chain_token_parts (chain token : string) :
  colon_free chain = true ->
  colon_free token = true ->
  (chain_of (chain ++ ":" ++ token) = chain /\
   token_of (chain ++ ":" ++ token) = Some token) /\
  (forall more,
      chain_of (chain ++ ":" ++ token ++ ":" ++ more) = chain /\
      token_of (chain ++ ":" ++ token ++ ":" ++ more) = Some token) /\
  (chain_of chain = chain /\ token_of chain = None).
Proof.
  intros Hc Ht. unfold chain_of, token_of. split; [|split].
  - rewrite (split_first chain token Hc), (split_colon_free token Ht).
    split; reflexivity.
  - intros more.
    rewrite (split_first chain _ Hc), (split_first token more Ht).
    split; reflexivity.
  - rewrite (split_colon_free chain Hc). split; reflexivity.
Qed.

Lemma chain_token_parts_witness :
  chain_of "eth:usdc:v2" = "eth" /\ token_of "eth:usdc:v2" = Some "usdc" /\
  token_of "eth" = None.
Proof.
  destruct (chain_token_parts "eth" "usdc" eq_refl eq_refl)
    as (_ & Hmore & _ & Hnone).
  destruct (Hmore "v2") as [Hchain Htoken].
  exact (conj Hchain (conj Htoken Hnone)).
Defined.

(* ===================================================================== *)
(** ** What validation lets through *)
(* ===================================================================== *)

Lemma validateChainToken_undefined (chains : list Chain.t)
      (chainId type : string) (a : unit) :
  value (validateChainToken chains chainId None type) <> Ok a.
Proof.
  unfold validateChainToken.
  destruct (find _ chains) as [c|]; [|discriminate].
  assert (H : find (fun t => strict_eq (Token.id t) None) (Chain.tokens c)
              = None).
  { induction (Chain.tokens c) as [|t l IH]; simpl; auto. }
  rewrite H. discriminate.
Qed.

Definition not_encode (e : event) : Prop :=
  match e with
  | Axios (PostSwap _) => False
  | _ => True
  end.

Lemma runBridge_colon (w : World) (o : BridgeOptions.t) :
  colon_free (BridgeOptions.from o) = true \/
  colon_free (BridgeOptions.to o) = true ->
  every_event not_encode (runBridge w o).
Proof.
  intros H. unfold runBridge. cbv zeta.
  unfold console_log, console_warn, deriveAddress, getSupportedChains,
    getSwapLimits, validateAmount, encodeSwap, signMessageHash, submitSwap.
  walk; try exact I.
  all: exfalso; destruct H as [H|H];
    unfold token_of in *; rewrite (split_colon_free _ H) in *;
    cbn [nth_error] in *;
    match goal with
    | Hv : value (validateChainToken _ _ None _) = Ok _ |- _ =>
        exact (validateChainToken_undefined _ _ _ _ Hv)
    end.
Qed.

Lemma runContractBridge_colon (w : World) (o : BridgeOptions.t) :
  colon_free (BridgeOptions.from o) = true \/
  colon_free (BridgeOptions.to o) = true ->
  every_event not_encode (runContractBridge w o).
Proof.
  intros H. unfold runContractBridge. cbv zeta.
  unfold validateAmount.
  walk; try exact I.
  all: exfalso; destruct H as [H|H];
    unfold token_of in *; rewrite (split_colon_free _ H) in *;
    cbn [nth_error] in *;
    match goal with
    | Hv : value (validateChainToken _ _ None _) = Ok _ |- _ =>
        exact (validateChainToken_undefined _ _ _ _ Hv)
    end.
Qed.

(** X2.  A source or destination argument written without a colon never
    gets as far as the relayer's encoder: its token is [undefined], which
    no registry token matches, so in neither flow is an encode request
    sent. *)
Theorem argument_without_colon_is_never_encoded (w : World)
        (o : BridgeOptions.t) (payload : EncodeSwapParams.t) :
  colon_free (BridgeOptions.from o) = true \/
  colon_free (BridgeOptions.to o) = true ->
  ~ In (Axios (PostSwap payload)) (trace (runBridge w o)) /\
  ~ In (Axios (PostSwap payload)) (trace (runContractBridge w o)).
Proof.
  intros H. split; intros Hin.
  - exact (proj1 (Forall_forall _ _) (runBridge_colon w o H) _ Hin).
  - exact (proj1 (Forall_forall _ _) (runContractBridge_colon w o H) _ Hin).
Qed.

Lemma argument_without_colon_is_never_encoded_witness :
  let o := BridgeOptions.mk "eth" "base:eth" "5" "0xRECIPIENT" (Some "0xKEY")
             false false None None false "" in
  value (runBridge Sample.world o)
    = Err (UnsupportedTokenError "source" None "eth") /\
  forall payload,
    ~ In (Axios (PostSwap payload)) (trace (runBridge Sample.world o)).
Proof.
  intros o. split; [reflexivity|]. intros payload.
  exact (proj1 (argument_without_colon_is_never_encoded Sample.world o payload
                  (or_introl eq_refl))).
Defined.

(** The events that write: the posts to the relayer, the signature and the
    calls to the chain. *)
Definition writes (e : event) : Prop :=
  match e with
  | Axios GetList | Axios GetLimits => False
  | ConsoleLog _ | ConsoleWarn _ | ConsoleError _ _ => False
  | _ => True
  end.

Ltac validated_here :=
  repeat match goal with a : unit |- _ => destruct a end;
  do 2 eexists; repeat apply conj; eassumption.

Lemma runBridge_validated (w : World) (o : BridgeOptions.t) :
  every_event (fun e => writes e -> validated w o) (runBridge w o).
Proof.
  unfold runBridge. cbv zeta. unfold validateAmount at 1.
  unfold signMessageHash. cbv zeta.
  walk; cbv beta; try solve [intros []]; intros _; validated_here.
Qed.

Lemma runContractBridge_validated (w : World) (o : BridgeOptions.t) :
  every_event (fun e => writes e -> validated w o) (runContractBridge w o).
Proof.
  unfold runContractBridge. cbv zeta. unfold validateAmount at 1.
  walk; cbv beta; try solve [intros []]; intros _; validated_here.
Qed.

(** X3.  Nothing is written before validation has passed.  In both flows,
    an encode or submission request, a signature, a deployment, a gas
    estimate, a broadcast or a wait only occurs in a run that has fetched
    the registry and the limits and whose source pair, destination pair
    and amount have all passed their checks. *)
Theorem writes_only_after_validation (w : World) (o : BridgeOptions.t)
        (e : event) :
  writes e ->
  (In e (trace (runBridge w o)) -> validated w o) /\
  (In e (trace (runContractBridge w o)) -> validated w o).
Proof.
  intros He. split; intros Hin.
  - exact (proj1 (Forall_forall _ _) (runBridge_validated w o) e Hin He).
  - exact (proj1 (Forall_forall _ _) (runContractBridge_validated w o)
             e Hin He).
Qed.

Lemma writes_only_after_validation_witness :
  In (SignHash "0x123") (trace (runBridge Sample.world Sample.options)) /\
  validated Sample.world Sample.options.
Proof.
  assert (Hin : In (SignHash "0x123")
                   (trace (runBridge Sample.world Sample.options))).
  { vm_compute. repeat (first [left; reflexivity | right]). }
  split; [exact Hin|].
  exact (proj1 (writes_only_after_validation Sample.world Sample.options
                  (SignHash "0x123") I) Hin).
Defined.

(* ===================================================================== *)
(** ** What the EOA flow sends *)
(* ===================================================================== *)

Lemma respond_Ok {T} (operation : string) (o : outcome (MesonApiResponse.t T))
      (ev : event) (x : T) :
  value (emit ev ;; respond operation o) = Ok x ->
  exists d, o = Returns d /\ MesonApiResponse.result d = Some x.
Proof.
  rewrite value_bind. simpl.
  destruct o as [[[r|] [e|]]|cause]; simpl; try discriminate.
  all: intros [= ->]; eexists; split; reflexivity.
Qed.

Lemma signMessageHash_Ok (w : World) (messageHash privateKey s : string) :
  value (signMessageHash w messageHash privateKey) = Ok s ->
  signingKey_sign w privateKey messageHash = Returns s.
Proof.
  unfold signMessageHash.
  destruct (Wallet_address w privateKey); [|discriminate].
  rewrite value_bind. simpl.
  destruct (signingKey_sign w privateKey messageHash); simpl; congruence.
Qed.

(** What the requests of the EOA flow are made of. *)
Definition eoa_request (w : World) (o : BridgeOptions.t) (e : event) : Prop :=
  let privateKey := str (js_or (BridgeOptions.privateKey o) (PRIVATE_KEY w)) in
  let encode fromAddress :=
    EncodeSwapParams.mk (BridgeOptions.from o) (BridgeOptions.to o)
      (BridgeOptions.amount o) fromAddress (BridgeOptions.recipient o)
      None None in
  match e with
  | Axios (PostSwap payload) =>
      exists fromAddress,
        Wallet_address w privateKey = Returns fromAddress /\
        payload = encode fromAddress
  | SignHash messageHash =>
      exists fromAddress d x signingRequest,
        Wallet_address w privateKey = Returns fromAddress /\
        axios_swap w (encode fromAddress) = Returns d /\
        MesonApiResponse.result d = Some x /\
        EncodeSwapResult.signingRequest x = Some signingRequest /\
        messageHash = SigningRequest.hash signingRequest
  | Axios (PostSwapEncoded encodedSwap fromAddress recipient signature) =>
      exists d x signingRequest,
        Wallet_address w privateKey = Returns fromAddress /\
        axios_swap w (encode fromAddress) = Returns d /\
        MesonApiResponse.result d = Some x /\
        EncodeSwapResult.signingRequest x = Some signingRequest /\
        encodedSwap = EncodeSwapResult.encoded x /\
        encodedSwap <> EmptyString /\
        recipient = BridgeOptions.recipient o /\
        signingKey_sign w privateKey (SigningRequest.hash signingRequest)
        = Returns signature
  | _ => True
  end.

Lemma encoded_data_complete (x : EncodeSwapResult.t) :
  negb (nonempty (EncodeSwapResult.encoded x))
  || negb (present (EncodeSwapResult.signingRequest x)) = false ->
  EncodeSwapResult.encoded x <> EmptyString /\
  exists signingRequest,
    EncodeSwapResult.signingRequest x = Some signingRequest /\
    signingRequest_hash x = SigningRequest.hash signingRequest.
Proof.
  unfold signingRequest_hash.
  destruct (EncodeSwapResult.encoded x), (EncodeSwapResult.signingRequest x);
    simpl; try discriminate.
  intros _. split; [discriminate | eauto].
Qed.

Lemma runBridge_requests (w : World) (o : BridgeOptions.t) :
  every_event (eoa_request w o) (runBridge w o).
Proof.
  unfold runBridge. cbv zeta. unfold validateAmount at 1.
  unfold signMessageHash. cbv zeta.
  walk; try exact I.
  all: repeat match goal with
         | H : value (deriveAddress _ _) = Ok _ |- _ =>
             unfold deriveAddress in H; apply await_Ok in H
         | H : value (encodeSwap _ _ _ _ _ _ _ _) = Ok _ |- _ =>
             unfold encodeSwap in H; cbv zeta in H; cbn [truthy] in H;
             apply respond_Ok in H; destruct H as (d & Hd & Hx)
         | H : _ || _ = false |- _ =>
             apply encoded_data_complete in H;
             destruct H as (Hne & sr & Hsr & Hhash)
         | H : value (match Wallet_address _ _ with _ => _ end) = Ok _ |- _ =>
             apply signMessageHash_Ok in H
         end.
  all: try match goal with
           | H1 : Wallet_address ?w ?k = Returns ?a,
             H2 : Wallet_address ?w ?k = Returns ?b |- _ =>
               tryif constr_eq a b then fail
               else (rewrite H1 in H2; injection H2 as <-)
           end.
  all: unfold eoa_request; cbv zeta; cbn [truthy].
  - eexists. split; [eassumption | reflexivity].
  - do 4 eexists. repeat apply conj; eassumption.
  - do 3 eexists. rewrite <- Hhash. repeat apply conj;
      try eassumption; reflexivity.
Qed.

(** X4.  What the EOA flow sends.  Its encode request carries the options'
    source, destination, amount and recipient as given, the address
    derived from the key, and neither optional field.  What it signs is
    the hash of the signing request in the relayer's answer to that
    request.  Its submission carries the non-empty encoded swap of that
    answer, the same derived address, the options' recipient, and the
    signature that the key produced for that hash. *)
Theorem eoa_flow_requests (w : World) (o : BridgeOptions.t) (e : event) :
  In e (trace (runBridge w o)) -> eoa_request w o e.
Proof.
  apply Forall_forall. apply runBridge_requests.
Qed.

Lemma eoa_flow_requests_witness :
  let e := Axios (PostSwapEncoded "0xabc" "0xME" "0xRECIPIENT" "sig:0x123") in
  In e (trace (runBridge Sample.world Sample.options)) /\
  eoa_request Sample.world Sample.options e.
Proof.
  intros e.
  assert (Hin : In e (trace (runBridge Sample.world Sample.options))).
  { vm_compute. repeat (first [left; reflexivity | right]). }
  exact (conj Hin (eoa_flow_requests Sample.world Sample.options e Hin)).
Defined.

(* ===================================================================== *)
(** ** The private key *)
(* ===================================================================== *)

(** The same world with another [process.env.PRIVATE_KEY]. *)
Definition set_PRIVATE_KEY (k : option string) (w : World) : World :=
  mkWorld k (parseFloat w) (JSON_stringify w) (BigInt w) (parseEther w)
    (Wallet_address w) (signingKey_sign w) (axios_list w) (axios_limits w)
    (axios_swap w) (axios_swap_encoded w) (axios_swap_from_contract w)
    (factory_deploy w) (deployment_wait w) (populateTransaction w)
    (estimateGas w) (sendTransaction w) (response_wait w).

(** X5.  The private key.  With no key in the options and none in the
    environment (an empty string counts as none), both flows fail with the
    missing-key error; with a key that ethers rejects they fail with that
    rejection.  With the debug option off, nothing has been printed,
    requested or signed by then.  (With the debug option on, the options
    have been printed first, by [console.debug], which the model leaves
    out: nothing is said then of what came before the failure.)  A key
    given in the options takes precedence: the environment's key is then
    never read. *)
Theorem private_key_resolution (w : World) (o : BridgeOptions.t) :
  let key := js_or (BridgeOptions.privateKey o) (PRIVATE_KEY w) in
  (truthy key = false ->
   value (runBridge w o) = Err MissingPrivateKeyError /\
   value (runContractBridge w o) = Err MissingPrivateKeyError /\
   (BridgeOptions.debug o = false ->
    trace (runBridge w o) = [] /\ trace (runContractBridge w o) = [])) /\
  (forall cause,
      truthy key = true ->
      Wallet_address w (str key) = Throws cause ->
      value (runBridge w o) = Err (InvalidKeyError cause) /\
      value (runContractBridge w o) = Err (InvalidKeyError cause) /\
      (BridgeOptions.debug o = false ->
       trace (runBridge w o) = [] /\ trace (runContractBridge w o) = [])) /\
  (truthy (BridgeOptions.privateKey o) = true ->
   forall env,
     runBridge (set_PRIVATE_KEY env w) o = runBridge w o /\
     runContractBridge (set_PRIVATE_KEY env w) o = runContractBridge w o).
Proof.
  intros key. split; [|split].
  - intros H. unfold runBridge, runContractBridge. cbv zeta.
    fold key. rewrite H. repeat split.
  - intros cause H Hcause.
    unfold runBridge, runContractBridge, deriveAddress. cbv zeta.
    fold key. rewrite H, Hcause. repeat split.
  - intros H env.
    unfold runBridge, runContractBridge. cbv zeta.
    unfold js_or. rewrite H. split; reflexivity.
Qed.

Lemma private_key_resolution_witness :
  let no_key := BridgeOptions.mk "base:eth" "eth:usdc" "100" "0xRECIPIENT"
                  (Some "") false false None None false "" in
  (value (runBridge Sample.world no_key) = Err MissingPrivateKeyError /\
   trace (runBridge Sample.world no_key) = []) /\
  runBridge (set_PRIVATE_KEY (Some "0xOTHER") Sample.world) Sample.options
  = runBridge Sample.world Sample.options.
Proof.
  intros no_key. split.
  - destruct (private_key_resolution Sample.world no_key) as (Hnone & _).
    destruct (Hnone eq_refl) as (Hvalue & _ & Hquiet).
    split; [exact Hvalue | exact (proj1 (Hquiet eq_refl))].
  - destruct (private_key_resolution Sample.world Sample.options)
      as (_ & _ & Hgiven).
    exact (proj1 (Hgiven eq_refl (Some "0xOTHER"))).
Defined.

(* ===================================================================== *)
(** ** [api.ts]: the encode payload and the contract submission *)
(* ===================================================================== *)

(** X9.  [submitSwapFromContract] sends one request, to the path of the
    encoded swap with the transaction hash as body, and treats the answer
    as the other operations do: service error with the relayer's message,
    protocol error on an envelope of neither shape, transport error on a
    failed request, the result unchanged on success. *)
Theorem submitSwapFromContract_envelope (w : World)
        (encodedSwap transactionHash : string) :
  let run := submitSwapFromContract w encodedSwap transactionHash in
  trace run = [Axios (PostSwapFromContract encodedSwap transactionHash)] /\
  handles_envelope "Error submitting contract swap: "
    (axios_swap_from_contract w encodedSwap transactionHash) (value run).
Proof.
  intros run. split; [|apply respond_handles_envelope].
  unfold run, submitSwapFromContract. rewrite trace_bind. simpl.
  destruct (axios_swap_from_contract w encodedSwap transactionHash)
    as [[[r|] [e|]]|cause]; reflexivity.
Qed.

(** X10.  The body [encodeSwap] posts.  The five mandatory properties are
    its first five arguments.  [fromContract] is in the body only as
    [true], when the argument is [true]: [false] is never sent.
    [dataToContract] is in the body only when the argument is a non-empty
    string, and is then that string.  The answer of the relayer asked for
    is the one to that body. *)
Theorem encodeSwap_payload (w : World)
        (fromChainToken toChainToken amount fromAddress recipient : string)
        (fromContract : option bool) (dataToContract : option string) :
  exists payload,
    trace (encodeSwap w fromChainToken toChainToken amount fromAddress
             recipient fromContract dataToContract)
    = [Axios (PostSwap payload)] /\
    EncodeSwapParams.from payload = fromChainToken /\
    EncodeSwapParams.to payload = toChainToken /\
    EncodeSwapParams.amount payload = amount /\
    EncodeSwapParams.fromAddress payload = fromAddress /\
    EncodeSwapParams.recipient payload = recipient /\
    (EncodeSwapParams.fromContract payload = Some true
     <-> fromContract = Some true) /\
    (EncodeSwapParams.fromContract payload = None
     <-> fromContract <> Some true) /\
    (forall s, EncodeSwapParams.dataToContract payload = Some s
               <-> dataToContract = Some s /\ s <> EmptyString) /\
    (forall x, value (encodeSwap w fromChainToken toChainToken amount
                        fromAddress recipient fromContract dataToContract)
               = Ok x
               -> exists d, axios_swap w payload = Returns d /\
                            MesonApiResponse.result d = Some x).
Proof.
  unfold encodeSwap. cbv zeta. eexists. split.
  - rewrite trace_bind. cbn [emit trace fst value snd].
    match goal with
    | |- context [respond _ ?o] =>
        destruct o as [[[r|] [e|]]|cause]; reflexivity
    end.
  - cbn [EncodeSwapParams.from EncodeSwapParams.to EncodeSwapParams.amount
           EncodeSwapParams.fromAddress EncodeSwapParams.recipient
           EncodeSwapParams.fromContract EncodeSwapParams.dataToContract].
    repeat apply conj; try reflexivity.
    all: try solve [ destruct fromContract as [[|]|]; congruence ].
    all: try solve [ intros s; destruct dataToContract as [[|c d]|];
                     cbn [truthy]; split; try discriminate;
                     try solve [ intros [H1 H2]; congruence ];
                     intros [= <-]; split; [reflexivity | discriminate] ].
    intros x H. apply respond_Ok in H. exact H.
Qed.

(* ===================================================================== *)
(** ** What each flow leaves alone *)
(* ===================================================================== *)

(** The events of the relayer-signed flow: console lines, the two
    registry requests, the encode request, the signature and the
    submission of the signed swap. *)
Definition eoa_kind (e : event) : Prop :=
  match e with
  | ConsoleLog _ | ConsoleWarn _ | ConsoleError _ _
  | Axios GetList | Axios GetLimits | Axios (PostSwap _)
  | Axios (PostSwapEncoded _ _ _ _) | SignHash _ => True
  | _ => False
  end.

(** The events of the contract flow: console lines other than
    [console.error], the two registry requests, the encode request and the
    calls that reach the chain. *)
Definition contract_kind (e : event) : Prop :=
  match e with
  | ConsoleLog _ | ConsoleWarn _
  | Axios GetList | Axios GetLimits | Axios (PostSwap _)
  | Deploy _ | WaitDeployment | EstimateGas _ | SendTransaction _ _
  | WaitReceipt _ => True
  | _ => False
  end.

(** X11.  The relayer-signed flow never reaches the chain and never
    reports a contract transaction.  The contract flow never signs a hash
    and never submits anything to the relayer: neither a signed swap nor
    the hash of the transaction it sent; after the encode request the
    relayer hears nothing more from it. *)
Theorem flows_keep_to_their_steps (w : World) (o : BridgeOptions.t) :
  every_event eoa_kind (runBridge w o) /\
  every_event contract_kind (runContractBridge w o).
Proof.
  split.
  - unfold runBridge. cbv zeta. unfold validateAmount at 1.
    unfold signMessageHash. cbv zeta.
    walk; exact I.
  - unfold runContractBridge. cbv zeta. unfold validateAmount at 1.
    unfold callTransferToMeson, deployTransferToMesonContract. cbv zeta.
    walk; exact I.
Qed.

(* ===================================================================== *)
(** ** [signature.ts]: signing *)
(* ===================================================================== *)

Lemma signMessageHash_run (w : World) (messageHash privateKey : string)
      (t : list event) (r : result string) :
  signMessageHash w messageHash privateKey = (t, r) ->
  (exists cause,
      Wallet_address w privateKey = Throws cause /\
      t = [ConsoleError "Error signing message hash:" cause] /\
      r = Err (SigningError cause)) \/
  (exists address cause,
      Wallet_address w privateKey = Returns address /\
      signingKey_sign w privateKey messageHash = Throws cause /\
      t = [SignHash messageHash;
           ConsoleError "Error signing message hash:" cause] /\
      r = Err (SigningError cause)) \/
  (exists address signature,
      Wallet_address w privateKey = Returns address /\
      signingKey_sign w privateKey messageHash = Returns signature /\
      t = [SignHash messageHash] /\ r = Ok signature).
Proof.
  unfold signMessageHash. cbv zeta.
  destruct (Wallet_address w privateKey) as [address|cause];
    [destruct (signingKey_sign w privateKey messageHash)
       as [signature|cause]|];
    simpl; intros [= <- <-]; eauto 10.
Qed.

(** X12.  [signMessageHash] returns a signature exactly when the key
    makes a wallet and the signing key signs the hash, and then it has
    done nothing but sign that hash.  When either step throws, it prints
    one [console.error] line with the cause, as its last act, and
    rethrows the same cause; the hash was signed at most once. *)
Theorem signMessageHash_outcome (w : World) (messageHash privateKey : string) :
  let run := signMessageHash w messageHash privateKey in
  (forall signature,
      value run = Ok signature <->
      (exists address, Wallet_address w privateKey = Returns address) /\
      signingKey_sign w privateKey messageHash = Returns signature) /\
  (forall signature,
      value run = Ok signature -> trace run = [SignHash messageHash]) /\
  (forall e,
      value run = Err e ->
      exists cause before,
        e = SigningError cause /\
        trace run
        = (before ++ [ConsoleError "Error signing message hash:" cause])%list /\
        (before = [] \/ before = [SignHash messageHash]) /\
        (Wallet_address w privateKey = Throws cause \/
         signingKey_sign w privateKey messageHash = Throws cause)).
Proof.
  intros run.
  destruct run as [t r] eqn:Hrun. unfold run in Hrun.
  apply signMessageHash_run in Hrun. cbn [value trace fst snd].
  destruct Hrun as [(cause & Hw & -> & ->)
                   |[(address & cause & Hw & Hs & -> & ->)
                    |(address & signature & Hw & Hs & -> & ->)]].
  - split; [|split].
    + intros signature. split; [discriminate|].
      intros [[address H] _]. congruence.
    + discriminate.
    + intros e [= <-]. exists cause, []. auto 6.
  - split; [|split].
    + intros signature. split; [discriminate|].
      intros [_ H]. congruence.
    + discriminate.
    + intros e [= <-]. exists cause, [SignHash messageHash]. auto 6.
  - split; [|split].
    + intros signature'. split.
      * intros [= <-]. eauto.
      * intros [_ H]. congruence.
    + reflexivity.
    + discriminate.
Qed.

Lemma signMessageHash_outcome_witness :
  trace (signMessageHash Sample.world "0x123" "0xKEY") = [SignHash "0x123"] /\
  exists cause,
    trace (signMessageHash Sample.world "0x123" "0xBAD")
    = [ConsoleError "Error signing message hash:" cause].
Proof.
  split.
  - destruct (signMessageHash_outcome Sample.world "0x123" "0xKEY")
      as (_ & Hok & _).
    exact (Hok "sig:0x123" eq_refl).
  - destruct (signMessageHash_outcome Sample.world "0x123" "0xBAD")
      as (_ & _ & Herr).
    destruct (Herr (SigningError "invalid private key") eq_refl)
      as (cause & before & _ & Htrace & [-> | ->] & _).
    + exists cause. exact Htrace.
    + exfalso. vm_compute in Htrace. discriminate Htrace.
Defined.

(* ===================================================================== *)
(** ** The order of the steps *)
(* ===================================================================== *)

(** What a run does besides printing: requests, signatures and calls that
    reach the chain. *)
Definition is_action (e : event) : bool :=
  match e with
  | ConsoleLog _ | ConsoleWarn _ | ConsoleError _ _ => false
  | _ => true
  end.

Definition actions (t : list event) : list event := filter is_action t.

Lemma deriveAddress_run (w : World) (privateKey : string) t r :
  deriveAddress w privateKey = (t, r) -> t = [].
Proof.
  unfold deriveAddress, await.
  destruct (Wallet_address w privateKey); intros [= <- _]; reflexivity.
Qed.

Lemma request_run {T} (ev : event) (operation : string)
      (o : outcome (MesonApiResponse.t T)) t r :
  (emit ev ;; respond operation o) = (t, r) -> t = [ev].
Proof.
  destruct o as [[[x|] [e|]]|cause]; intros [= <- _]; reflexivity.
Qed.

Lemma getSupportedChains_run (w : World) t r :
  getSupportedChains w = (t, r) -> t = [Axios GetList].
Proof. apply request_run. Qed.

Lemma getSwapLimits_run (w : World) t r :
  getSwapLimits w = (t, r) -> t = [Axios GetLimits].
Proof. apply request_run. Qed.

Lemma encodeSwap_run (w : World) from to amount fromAddress recipient
      fromContract dataToContract t r :
  encodeSwap w from to amount fromAddress recipient fromContract
             dataToContract = (t, r) ->
  exists payload, t = [Axios (PostSwap payload)].
Proof. intros H. eexists. exact (request_run _ _ _ _ _ H). Qed.

Lemma submitSwap_run (w : World) encodedSwap fromAddress recipient signature
      t r :
  submitSwap w encodedSwap fromAddress recipient signature = (t, r) ->
  t = [Axios (PostSwapEncoded encodedSwap fromAddress recipient signature)].
Proof. apply request_run. Qed.

Lemma validateChainToken_run chains chainId tokenId type t r :
  validateChainToken chains chainId tokenId type = (t, r) -> t = [].
Proof.
  unfold validateChainToken.
  destruct (find _ chains) as [c|]; [destruct (find _ (Chain.tokens c))|];
    intros [= <- _]; reflexivity.
Qed.

Lemma validateAmount_run (w : World) limits chainId tokenId amount t r :
  validateAmount w limits chainId tokenId amount = (t, r) ->
  filter is_action t = [].
Proof.
  unfold validateAmount. cbv zeta.
  destruct (find _ limits) as [c|];
    [destruct (find _ (ChainLimit.tokens c)) as [tk|];
     [destruct (_ || _)|]|];
    intros [= <- _]; reflexivity.
Qed.

Lemma signMessageHash_actions (w : World) messageHash privateKey t r :
  signMessageHash w messageHash privateKey = (t, r) ->
  (filter is_action t = [] /\ exists cause, r = Err (SigningError cause)) \/
  filter is_action t = [SignHash messageHash].
Proof.
  intros H. apply signMessageHash_run in H.
  destruct H as [(cause & _ & -> & ->)
                |[(address & cause & _ & _ & -> & ->)
                 |(address & signature & _ & _ & -> & ->)]];
    simpl; eauto.
Qed.

(** Replaces the trace of each stage that has run by what it holds. *)
Ltac stage_traces :=
  repeat match goal with
         | E : deriveAddress _ _ = (?t, _) |- _ =>
             is_var t; pose proof (deriveAddress_run _ _ _ _ E); subst t
         | E : getSupportedChains _ = (?t, _) |- _ =>
             is_var t; pose proof (getSupportedChains_run _ _ _ E); subst t
         | E : getSwapLimits _ = (?t, _) |- _ =>
             is_var t; pose proof (getSwapLimits_run _ _ _ E); subst t
         | E : validateChainToken _ _ _ _ = (?t, _) |- _ =>
             is_var t;
             pose proof (validateChainToken_run _ _ _ _ _ _ E); subst t
         | E : submitSwap _ _ _ _ _ = (?t, _) |- _ =>
             is_var t; pose proof (submitSwap_run _ _ _ _ _ _ _ E); subst t
         | E : encodeSwap _ _ _ _ _ _ _ _ = (?t, _) |- _ =>
             is_var t;
             let p := fresh "payload" in
             let H := fresh in
             destruct (encodeSwap_run _ _ _ _ _ _ _ _ _ _ E) as [p H];
             subst t
         end.

Ltac actions_simpl :=
  unfold actions;
  repeat (rewrite ?filter_app; cbn [filter is_action app]);
  repeat match goal with
         | E : validateAmount _ _ _ _ _ = (?t, _) |- _ =>
             rewrite (validateAmount_run _ _ _ _ _ _ _ E)
         end;
  cbn [app].

(** X13.  The order of the relayer-signed flow.  Apart from printing, a
    run is an initial part of: fetch the registry, fetch the limits, ask
    the relayer to encode, sign, submit.  Nothing is repeated and nothing
    is retried.  A run that completes has done all five steps, or the
    first four when it is a dry run; a dry run never does the fifth. *)
Theorem runBridge_order (w : World) (o : BridgeOptions.t) :
  exists payload hash encodedSwap fromAddress recipient signature n,
    actions (trace (runBridge w o))
    = firstn n [ Axios GetList; Axios GetLimits; Axios (PostSwap payload);
                 SignHash hash;
                 Axios (PostSwapEncoded encodedSwap fromAddress recipient
                                        signature) ] /\
    (value (runBridge w o) = Ok tt ->
     n = if BridgeOptions.dryRun o then 4 else 5)%nat /\
    (BridgeOptions.dryRun o = true -> n <= 4)%nat.
Proof.
  destruct (runBridge w o) as [t r] eqn:Hrun.
  cbn [trace value fst snd]. revert Hrun.
  unfold runBridge. cbv zeta.
  run_flow; intros [= <- <-].
  all: stage_traces.
  all: try match goal with
           | E : signMessageHash _ _ _ = (_, _) |- _ =>
               destruct (signMessageHash_actions _ _ _ _ _ E)
                 as [[Hsigned [cause Hcause]]|Hsigned]
           end.
  all: try match goal with H : Ok _ = Err _ |- _ => discriminate H end.
  all: actions_simpl; rewrite ?Hsigned; cbn [app].
  all: do 6 eexists.
  all: first
         [ exists 0%nat; split; [reflexivity|]
         | exists 1%nat; split; [reflexivity|]
         | exists 2%nat; split; [reflexivity|]
         | exists 3%nat; split; [reflexivity|]
         | exists 4%nat; split; [reflexivity|]
         | exists 5%nat; split; [reflexivity|] ].
  all: split; [ intros H; first [ discriminate H | reflexivity ]
              | intros H; first [ discriminate H | lia ] ].
  Unshelve.
  all: try exact EmptyString.
  all: exact (EncodeSwapParams.mk "" "" "" "" "" None None).
Qed.

Lemma deployTransferToMesonContract_run (w : World) mesonContractAddress
      wallet t r :
  deployTransferToMesonContract w mesonContractAddress wallet = (t, r) ->
  (t = [Deploy mesonContractAddress] /\
   exists cause, r = Err (DeploymentError cause)) \/
  (t = [Deploy mesonContractAddress; WaitDeployment] /\
   ((exists cause, r = Err (DeploymentError cause)) \/
    (exists a, r = Ok a /\
               factory_deploy w mesonContractAddress = Returns a))).
Proof.
  unfold deployTransferToMesonContract.
  destruct (factory_deploy w mesonContractAddress) as [a|cause];
    [destruct (deployment_wait w a) as [[]|cause] eqn:Hw|]; simpl;
    rewrite ?Hw; simpl; intros [= <- <-]; eauto 8.
Qed.

Ltac call_shape d n :=
  exists d; do 3 eexists; exists n;
  split; [reflexivity|];
  split; [solve [auto]|];
  let H := fresh in intros ? H; first [ discriminate H | reflexivity ].

Lemma callTransferToMeson_run (w : World) mesonContractAddress encodedSwap
      wallet amount transferContractAddress deployIfMissing t r :
  callTransferToMeson w mesonContractAddress encodedSwap wallet amount
    transferContractAddress deployIfMissing = (t, r) ->
  exists d tx limit hash n,
    t = firstn n (d ++ [EstimateGas tx; SendTransaction tx limit;
                        WaitReceipt hash])%list /\
    (d = [] \/
     d = [Deploy mesonContractAddress; WaitDeployment] /\
     truthy transferContractAddress = false /\ deployIfMissing = true) /\
    (forall x, r = Ok x -> n = length d + 3)%nat.
Proof.
  call_cases; intros [= <- <-].
  all: first
         [ call_shape (@nil event) 0%nat | call_shape (@nil event) 1%nat
         | call_shape (@nil event) 2%nat | call_shape (@nil event) 3%nat
         | call_shape [Deploy mesonContractAddress; WaitDeployment] 1%nat
         | call_shape [Deploy mesonContractAddress; WaitDeployment] 2%nat
         | call_shape [Deploy mesonContractAddress; WaitDeployment] 3%nat
         | call_shape [Deploy mesonContractAddress; WaitDeployment] 4%nat
         | call_shape [Deploy mesonContractAddress; WaitDeployment] 5%nat ].
  Unshelve.
  all: first [ exact EmptyString | exact 0%Z | exact (Tx.mk "" 0 None 0) ].
Qed.

Lemma filter_firstn_all {A} (f : A -> bool) (n : nat) (l : list A) :
  forallb f l = true -> filter f (firstn n l) = firstn n l.
Proof.
  revert n. induction l as [|x l IH]; intros [|n] H; try reflexivity.
  simpl in H. apply andb_prop in H. destruct H as [Hx Hl].
  simpl. rewrite Hx. f_equal. apply IH. exact Hl.
Qed.

Ltac dry_clause H :=
  first
    [ discriminate H
    | split; [reflexivity | simpl; lia]
    | exfalso;
      match goal with
      | E : _ && negb (BridgeOptions.dryRun _) = true |- _ =>
          rewrite H in E; rewrite andb_false_r in E; discriminate E
      end ].

Ltac twice_clause :=
  let H1 := fresh in
  let H2 := fresh in
  intros H1 H2;
  first [ exfalso; apply H1; reflexivity
        | exfalso; apply H2; reflexivity
        | idtac ].

Tactic Notation "order_shape" open_constr(d1) open_constr(d2) constr(n) :=
  do 5 eexists;
  eapply (ex_intro _ d1); eapply (ex_intro _ d2); exists n;
  split; [solve [auto]|];
  split; [solve [auto]|];
  split; [reflexivity|];
  split;
  [ let H := fresh in
    intros H;
    first [ discriminate H
          | reflexivity
          | match goal with
            | Hn : forall x, _ = Ok x -> _ = _ |- _ =>
                rewrite (Hn _ eq_refl); reflexivity
            end ]
  | split; [ let H := fresh in intros H; dry_clause H | twice_clause ] ].

(** X14.  The order of the contract flow.  Apart from printing, a run is
    an initial part of: fetch the registry, fetch the limits, deploy the
    wrapper and wait for it (only when deployment applies), ask the
    relayer to encode, then inside the contract call possibly deploy and
    wait, estimate the gas, broadcast, wait for the receipt.  Both
    deployments are for the same relayer contract address, and the second
    happens after a first only if the first returned an empty address.  A
    run that completes has done every step of its plan; a dry run stops
    after the encode request and deploys nothing. *)
Theorem runContractBridge_order (w : World) (o : BridgeOptions.t) :
  exists m payload tx limit hash d1 d2 n,
    (d1 = [] \/ d1 = [Deploy m; WaitDeployment]) /\
    (d2 = [] \/ d2 = [Deploy m; WaitDeployment]) /\
    actions (trace (runContractBridge w o))
    = firstn n ([Axios GetList; Axios GetLimits] ++ d1
                ++ [Axios (PostSwap payload)] ++ d2
                ++ [EstimateGas tx; SendTransaction tx limit;
                    WaitReceipt hash])%list /\
    (value (runContractBridge w o) = Ok tt ->
     n = if BridgeOptions.dryRun o then 3
         else 6 + length d1 + length d2)%nat /\
    (BridgeOptions.dryRun o = true -> d1 = [] /\ n <= 3)%nat /\
    (d1 <> [] -> d2 <> [] -> factory_deploy w m = Returns EmptyString).
Proof.
  destruct (runContractBridge w o) as [t r] eqn:Hrun.
  cbn [trace value fst snd]. revert Hrun.
  unfold runContractBridge. cbv zeta.
  run_flow; intros [= <- <-].
  all: repeat match goal with
              | E : (if _ then _ else _) = (_, _) |- _ =>
                  revert E; run_flow; intros [= <- <-]
              end.
  all: stage_traces.
  all: actions_simpl.
  all: repeat match goal with
              | E : deployTransferToMesonContract _ _ _ = (?t, _) |- _ =>
                  is_var t;
                  let Ht := fresh "Ht" in
                  let Hr := fresh "Hdeploy" in
                  destruct (deployTransferToMesonContract_run _ _ _ _ _ E)
                    as [[Ht Hr]|[Ht Hr]];
                  subst t
              | E : callTransferToMeson _ _ _ _ _ _ _ = (?t, _) |- _ =>
                  is_var t;
                  let Ht := fresh "Ht" in
                  let Hd := fresh "Hd" in
                  let Hn := fresh "Hn" in
                  destruct (callTransferToMeson_run _ _ _ _ _ _ _ _ _ E)
                    as (d & tx & limit & hash & n & Ht & Hd & Hn);
                  subst t;
                  destruct Hd as [-> | (-> & Hfalsy & Hflag)]
              end.
  all: repeat match goal with
              | H : exists _, Ok _ = Err _ |- _ => destruct H as [? H]; discriminate H
              | H : (exists _, Ok _ = Err _) \/ _ |- _ =>
                  destruct H as [[? H]|H]; [discriminate H|]
              | H : (exists _, Err _ = Err _) \/ (exists _, Err _ = Ok _ /\ _) |- _ => clear H
              | H : exists _, Ok _ = Ok _ /\ _ |- _ =>
                  let a := fresh "deployed" in
                  let H1 := fresh in
                  destruct H as (a & H1 & H); injection H1 as <-
              end.
  all: actions_simpl.
  all: rewrite ?filter_firstn_all by reflexivity.
  all: rewrite ?app_nil_r.
  all: first
         [ order_shape (@nil event) (@nil event) 0%nat
         | order_shape (@nil event) (@nil event) 1%nat
         | order_shape (@nil event) (@nil event) 2%nat
         | order_shape (@nil event) (@nil event) 3%nat
         | order_shape [Deploy _; WaitDeployment] (@nil event) 3%nat
         | order_shape [Deploy _; WaitDeployment] (@nil event) 4%nat
         | order_shape [Deploy _; WaitDeployment] (@nil event) 5%nat
         | match goal with
           | Hn : forall x, _ = Ok x -> ?n = _ |- _ =>
               first
                 [ order_shape (@nil event) (@nil event) (3 + n)%nat
                 | order_shape (@nil event) [Deploy _; WaitDeployment]
                               (3 + n)%nat
                 | order_shape [Deploy _; WaitDeployment] (@nil event)
                               (5 + n)%nat
                 | order_shape [Deploy _; WaitDeployment]
                               [Deploy _; WaitDeployment] (5 + n)%nat ]
           end ].
  all: try congruence.
  all: match goal with
       | H : factory_deploy _ _ = Returns ?a |- _ =>
           destruct a; [exact H|]
       end.
  all: cbn [truthy negb andb] in *; try discriminate; try congruence.
  Unshelve.
  all: first [ exact EmptyString | exact 0%Z | exact (Tx.mk "" 0 None 0)
             | exact (EncodeSwapParams.mk "" "" "" "" "" None None) ].
Qed.

(* ===================================================================== *)
(** ** A dry run as a rehearsal *)
(* ===================================================================== *)







(** Without a wrapper address and with deployment asked for, the run
    deploys before it encodes and names the deployed wrapper in the encode
    request, while the dry run names the wallet: the two encode requests
    differ. *)
Example dry_run_encodes_for_the_wallet :
  let o := Sample.with_deployIfMissing true Sample.options in
  let payload a :=
    EncodeSwapParams.mk "base:eth" "eth:usdc" "100" a "0xRECIPIENT"
      (Some true) None in
  In (Axios (PostSwap (payload "0xME")))
     (trace (runContractBridge Sample.world (Sample.with_dryRun true o))) /\
  In (Axios (PostSwap (payload "0xDEPLOYED")))
     (trace (runContractBridge Sample.world (Sample.with_dryRun false o))).
Proof.
  split; vm_compute; repeat (first [left; reflexivity | right]).
Qed.

(* ===================================================================== *)
(** ** Where a failure comes from *)
(* ===================================================================== *)

(** The three failures of a relayer operation. *)
Definition relayer_error (e : error) : Prop :=
  match e with
  | ServiceError _ | ProtocolError | TransportError _ => True
  | _ => False
  end.

Lemma deriveAddress_fails (w : World) privateKey t e :
  deriveAddress w privateKey = (t, Err e) ->
  exists cause, e = InvalidKeyError cause /\
                Wallet_address w privateKey = Throws cause.
Proof.
  unfold deriveAddress, await.
  destruct (Wallet_address w privateKey); intros [= _ <-]; eauto.
Qed.

Lemma deriveAddress_returns (w : World) privateKey t a :
  deriveAddress w privateKey = (t, Ok a) ->
  Wallet_address w privateKey = Returns a.
Proof.
  unfold deriveAddress, await.
  destruct (Wallet_address w privateKey); intros [= _ <-]; eauto.
Qed.

Lemma request_fails {T} (ev : event) (operation : string)
      (o : outcome (MesonApiResponse.t T)) t e :
  (emit ev ;; respond operation o) = (t, Err e) -> relayer_error e.
Proof.
  destruct o as [[[x|] [err|]]|cause]; intros [= _ <-]; exact I.
Qed.

Lemma validateChainToken_fails chains chainId tokenId type t e :
  validateChainToken chains chainId tokenId type = (t, Err e) ->
  e = UnsupportedChainError type chainId \/
  e = UnsupportedTokenError type tokenId chainId.
Proof.
  unfold validateChainToken.
  destruct (find _ chains) as [c|]; [destruct (find _ (Chain.tokens c))|];
    intros [= _ <-]; auto.
Qed.

Lemma validateAmount_fails (w : World) limits chainId tokenId amount t e :
  validateAmount w limits chainId tokenId amount = (t, Err e) ->
  exists minSwap maxSwap,
    e = AmountOutOfRangeError amount tokenId chainId minSwap maxSwap /\
    (num_lt amount minSwap = true \/ num_gt amount maxSwap = true).
Proof.
  unfold validateAmount. cbv zeta.
  destruct (find _ limits) as [c|];
    [destruct (find _ (ChainLimit.tokens c)) as [tk|];
     [destruct (_ || _) eqn:Hout|]|];
    intros [= _ <-].
  apply orb_prop in Hout. eauto.
Qed.

Lemma signMessageHash_fails (w : World) messageHash privateKey t e :
  signMessageHash w messageHash privateKey = (t, Err e) ->
  exists cause,
    e = SigningError cause /\
    (Wallet_address w privateKey = Throws cause \/
     signingKey_sign w privateKey messageHash = Throws cause).
Proof.
  intros H. apply signMessageHash_run in H.
  destruct H as [(cause & Hw & _ & [= ->])
                |[(address & cause & _ & Hs & _ & [= ->])
                 |(address & signature & _ & _ & _ & [=])]]; eauto.
Qed.

Lemma callTransferToMeson_fails (w : World) mesonContractAddress encodedSwap
      wallet amount transferContractAddress deployIfMissing t e :
  callTransferToMeson w mesonContractAddress encodedSwap wallet amount
    transferContractAddress deployIfMissing = (t, Err e) ->
  (e = MissingIntermediaryContractError /\
   truthy transferContractAddress = false /\ deployIfMissing = false) \/
  ((exists cause, e = DeploymentError cause) /\
   truthy transferContractAddress = false /\ deployIfMissing = true) \/
  (exists cause, e = ContractCallError cause).
Proof.
  call_cases; intros [= _ <-]; eauto 8.
Qed.

Lemma deployTransferToMesonContract_fails (w : World) mesonContractAddress
      wallet t e :
  deployTransferToMesonContract w mesonContractAddress wallet = (t, Err e) ->
  exists cause, e = DeploymentError cause.
Proof.
  intros H. apply deployTransferToMesonContract_run in H.
  destruct H as [[_ [c [= ->]]]|[_ [[c [= ->]]|(a & [=] & _)]]]; eauto.
Qed.

(** The failures of the relayer-signed flow, each with its origin. *)
Definition eoa_failure (w : World) (o : BridgeOptions.t) (e : error) : Prop :=
  let key := js_or (BridgeOptions.privateKey o) (PRIVATE_KEY w) in
  let fromChain := chain_of (BridgeOptions.from o) in
  let fromToken := token_of (BridgeOptions.from o) in
  let toChain := chain_of (BridgeOptions.to o) in
  let toToken := token_of (BridgeOptions.to o) in
  match e with
  | MissingPrivateKeyError => truthy key = false
  | InvalidKeyError cause => Wallet_address w (str key) = Throws cause
  | ServiceError _ | ProtocolError | TransportError _ => True
  | UnsupportedChainError type chainId =>
      (type = "source" /\ chainId = fromChain) \/
      (type = "destination" /\ chainId = toChain)
  | UnsupportedTokenError type tokenId chainId =>
      (type = "source" /\ tokenId = fromToken /\ chainId = fromChain) \/
      (type = "destination" /\ tokenId = toToken /\ chainId = toChain)
  | AmountOutOfRangeError amount tokenId chainId minSwap maxSwap =>
      amount = parseFloat w (BridgeOptions.amount o) /\
      tokenId = toToken /\ chainId = toChain /\
      (num_lt amount minSwap = true \/ num_gt amount maxSwap = true)
  | MissingEncodedDataError => True
  | SigningError cause =>
      exists hash, signingKey_sign w (str key) hash = Throws cause
  | ContractAddressNotFoundError _ | MissingIntermediaryContractError
  | DeploymentError _ | ContractCallError _ => False
  end.

(** The failures of the contract flow. *)
Definition contract_failure (w : World) (o : BridgeOptions.t) (e : error)
  : Prop :=
  match e with
  | SigningError _ => False
  | ContractAddressNotFoundError chain =>
      chain = chain_of (BridgeOptions.from o) /\
      truthy (BridgeOptions.mesonContract o) = false
  | MissingIntermediaryContractError =>
      truthy (BridgeOptions.transferContract o) = false /\
      BridgeOptions.dryRun o = false
  | DeploymentError _ =>
      truthy (BridgeOptions.transferContract o) = false /\
      BridgeOptions.deployIfMissing o = true /\
      BridgeOptions.dryRun o = false
  | ContractCallError _ => BridgeOptions.dryRun o = false
  | _ => eoa_failure w o e
  end.

Ltac stage_failures :=
  repeat match goal with
         | E : deriveAddress _ _ = (_, Err ?e) |- _ =>
             is_var e;
             let c := fresh "cause" in
             let H := fresh "Hkey" in
             destruct (deriveAddress_fails _ _ _ _ E) as (c & -> & H)
         | E : getSupportedChains _ = (_, Err ?e) |- _ =>
             is_var e; pose proof (request_fails _ _ _ _ _ E); destruct e
         | E : getSwapLimits _ = (_, Err ?e) |- _ =>
             is_var e; pose proof (request_fails _ _ _ _ _ E); destruct e
         | E : encodeSwap _ _ _ _ _ _ _ _ = (_, Err ?e) |- _ =>
             is_var e; pose proof (request_fails _ _ _ _ _ E); destruct e
         | E : submitSwap _ _ _ _ _ = (_, Err ?e) |- _ =>
             is_var e; pose proof (request_fails _ _ _ _ _ E); destruct e
         | E : validateChainToken _ _ _ _ = (_, Err ?e) |- _ =>
             is_var e;
             destruct (validateChainToken_fails _ _ _ _ _ _ E) as [-> | ->]
         | E : signMessageHash _ _ _ = (_, Err ?e) |- _ =>
             is_var e;
             let c := fresh "cause" in
             let H := fresh "Hsign" in
             destruct (signMessageHash_fails _ _ _ _ _ E) as (c & -> & H)
         | E : validateAmount _ _ _ _ _ = (_, Err ?e) |- _ =>
             is_var e;
             let lo := fresh "minSwap" in
             let hi := fresh "maxSwap" in
             let H := fresh "Hout" in
             destruct (validateAmount_fails _ _ _ _ _ _ _ E)
               as (lo & hi & -> & H)
         end.

Lemma runBridge_failure (w : World) (o : BridgeOptions.t) (e : error) :
  value (runBridge w o) = Err e -> eoa_failure w o e.
Proof.
  destruct (runBridge w o) as [t r] eqn:Hrun.
  cbn [trace value fst snd]. revert Hrun.
  unfold runBridge. cbv zeta.
  run_flow; intros [= <- <-]; intros [= <-].
  all: stage_failures.
  all: unfold eoa_failure; cbv zeta; cbn [relayer_error] in *.
  all: try contradiction.
  all: try solve [ auto 6 ].
  - apply negb_true_iff. exact E.
  - match goal with
    | E : deriveAddress _ _ = (_, Ok _) |- _ =>
        apply deriveAddress_returns in E
    end.
    destruct Hsign as [Hsign|Hsign]; [congruence | eauto].
Qed.

Lemma runContractBridge_failure (w : World) (o : BridgeOptions.t) (e : error) :
  value (runContractBridge w o) = Err e -> contract_failure w o e.
Proof.
  destruct (runContractBridge w o) as [t r] eqn:Hrun.
  cbn [trace value fst snd]. revert Hrun.
  unfold runContractBridge. cbv zeta.
  run_flow; intros [= <- <-]; intros [= <-].
  all: repeat match goal with
              | E : (if _ then _ else _) = (_, _) |- _ =>
                  revert E; run_flow; intros [= <- <-]
              end.
  all: stage_failures.
  all: repeat match goal with
              | E : deployTransferToMesonContract _ _ _ = (_, Err ?e) |- _ =>
                  is_var e;
                  let c := fresh "cause" in
                  destruct (deployTransferToMesonContract_fails _ _ _ _ _ E)
                    as (c & ->)
              | E : callTransferToMeson _ _ _ _ _ _ _ = (_, Err ?e) |- _ =>
                  is_var e;
                  destruct (callTransferToMeson_fails _ _ _ _ _ _ _ _ _ E)
                    as [(-> & Hfalsy & Hflag)
                       |[([c ->] & Hfalsy & Hflag)|[c ->]]]
              end.
  all: unfold contract_failure, eoa_failure; cbv zeta;
    cbn [relayer_error] in *.
  all: try contradiction.
  all: try solve [ auto 6 ].
  1: apply negb_true_iff; exact E.
  all: destruct (truthy (BridgeOptions.transferContract o)) eqn:Htc,
         (BridgeOptions.deployIfMissing o) eqn:Hdep,
         (BridgeOptions.dryRun o) eqn:Hdry;
    cbn [negb andb] in *; try congruence; auto.
Qed.

(** X16.  Where a failure comes from.  A run of the relayer-signed flow
    that fails, fails with: the missing-key error, when neither the option
    nor the environment gives a key; the wallet's rejection of the key; a
    service, protocol or transport error of a relayer request; an
    unsupported-chain or unsupported-token error about the source or the
    destination argument; an out-of-range error about the parsed amount
    and the destination chain and token, never the source; the
    missing-data error; or the signing key's rejection.  It never fails
    with an error of the contract pathway.  A run of the contract flow
    never fails with a signing error; it fails with the address-not-found
    error only without an override and for the source chain, with the
    missing-wrapper error only without a wrapper option and outside a dry
    run, with a deployment error only when deployment applied, and with a
    contract-call error only outside a dry run. *)
Theorem failure_origin (w : World) (o : BridgeOptions.t) (e : error) :
  (value (runBridge w o) = Err e -> eoa_failure w o e) /\
  (value (runContractBridge w o) = Err e -> contract_failure w o e).
Proof.
  split; [apply runBridge_failure | apply runContractBridge_failure].
Qed.

Lemma failure_origin_witness :
  let o := BridgeOptions.mk "base:eth" "nochain:usdc" "100" "0xRECIPIENT"
             (Some "0xKEY") false false None None false "" in
  eoa_failure Sample.world o (UnsupportedChainError "destination" "nochain").
Proof.
  intros o.
  destruct (failure_origin Sample.world o
              (UnsupportedChainError "destination" "nochain")) as [Heoa _].
  apply Heoa. vm_compute. reflexivity.
Defined.

(* ===================================================================== *)
(** ** Repeated entries *)
(* ===================================================================== *)

Lemma find_first {A} (f : A -> bool) (pre : list A) (x : A) (rest : list A) :
  (forall y, In y pre -> f y = false) -> f x = true ->
  find f (pre ++ x :: rest) = Some x.
Proof.
  intros Hpre Hx. induction pre as [|y pre IH]; simpl.
  - rewrite Hx. reflexivity.
  - rewrite (Hpre y (or_introl eq_refl)). apply IH.
    intros z Hz. apply Hpre. right. exact Hz.
Qed.

Lemma eqb_first {A} (id : A -> string) (k : string) (pre : list A) (x : A)
      (rest : list A) :
  (forall y, In y pre -> id y <> k) -> id x = k ->
  find (fun y => String.eqb (id y) k) (pre ++ x :: rest) = Some x.
Proof.
  intros Hpre Hx. apply find_first.
  - intros y Hy. apply String.eqb_neq. apply Hpre. exact Hy.
  - apply String.eqb_eq. exact Hx.
Qed.

Lemma eqb_single {A} (id : A -> string) (k : string) (x : A) :
  id x = k -> find (fun y => String.eqb (id y) k) [x] = Some x.
Proof.
  intros Hx. simpl. rewrite (proj2 (String.eqb_eq _ _) Hx). reflexivity.
Qed.

(** X17.  Repeated entries.  The three lookups by chain id, in the
    registry for validation, in the registry for the relayer contract
    address and in the limits, all take the first entry with the id and
    never look at a later one: entries after it, whatever they hold,
    change nothing, and validation and address resolution read the same
    entry.  Within the entry found, the token consulted is likewise the
    first with the token id: once it is there the pair is accepted, and
    the amount is checked against the limits of that first token entry
    only. *)
Theorem first_entry_wins (w : World) (chainId tokenId type : string)
        (amount : number) :
  (forall pre c rest,
      (forall x, In x pre -> Chain.id x <> chainId) -> Chain.id c = chainId ->
      (forall token,
          validateChainToken (pre ++ c :: rest) chainId token type
          = validateChainToken [c] chainId token type) /\
      findContractAddress (pre ++ c :: rest) chainId
      = Some (Chain.address c)) /\
  (forall pre l rest,
      (forall x, In x pre -> ChainLimit.id x <> chainId) ->
      ChainLimit.id l = chainId ->
      forall token,
        validateAmount w (pre ++ l :: rest) chainId token amount
        = validateAmount w [l] chainId token amount) /\
  (forall pre t rest,
      (forall x, In x pre -> Token.id x <> tokenId) -> Token.id t = tokenId ->
      (forall id name chain address flag,
          validateChainToken
            [Chain.mk id name chain address flag (pre ++ t :: rest)] id
            (Some tokenId) type = ret tt) /\
      (forall id name,
          validateAmount w [ChainLimit.mk id name (pre ++ t :: rest)] id
            (Some tokenId) amount
          = validateAmount w [ChainLimit.mk id name [t]] id (Some tokenId)
              amount)).
Proof.
  split; [|split].
  - intros pre c rest Hpre Hc. split.
    + intros token. unfold validateChainToken.
      rewrite (eqb_first Chain.id chainId pre c rest Hpre Hc).
      rewrite (eqb_single Chain.id chainId c Hc).
      reflexivity.
    + unfold findContractAddress.
      rewrite (eqb_first Chain.id chainId pre c rest Hpre Hc). reflexivity.
  - intros pre l rest Hpre Hl token. unfold validateAmount.
    rewrite (eqb_first ChainLimit.id chainId pre l rest Hpre Hl).
    rewrite (eqb_single ChainLimit.id chainId l Hl).
    reflexivity.
  - intros pre t rest Hpre Ht. split.
    + intros id name chain address flag. unfold validateChainToken.
      cbn [find Chain.id Chain.tokens]. rewrite String.eqb_refl.
      cbn [strict_eq Chain.tokens].
      rewrite (eqb_first Token.id tokenId pre t rest Hpre Ht). reflexivity.
    + intros id name. unfold validateAmount.
      cbn [find ChainLimit.id ChainLimit.tokens]. rewrite !String.eqb_refl.
      cbn [strict_eq ChainLimit.tokens].
      rewrite (eqb_first Token.id tokenId pre t rest Hpre Ht).
      rewrite (eqb_single Token.id tokenId t Ht).
      reflexivity.
Qed.

(** A second Ethereum entry that lists [eth] with another address: the
    first entry, which lists [eth] too, is the one read. *)
Lemma first_entry_wins_witness :
  let later := Chain.mk "eth" "Ethereum (bis)" "0x1" "0xOTHER" None [] in
  validateChainToken (Sample.chains ++ [later])%list "eth" (Some "eth")
    "source"
  = validateChainToken [hd later Sample.chains] "eth" (Some "eth") "source" /\
  findContractAddress (Sample.chains ++ [later])%list "eth"
  = Some "0xMESON_ETH".
Proof.
  intros later.
  destruct (first_entry_wins Sample.world "eth" "eth" "source" zero)
    as (Hchains & _ & _).
  destruct (Hchains [] (hd later Sample.chains) (tl Sample.chains ++ [later])%list
              (fun _ H => match H with end) eq_refl) as [Hvalidate Hfind].
  split; [exact (Hvalidate (Some "eth")) | exact Hfind].
Defined.

(* ===================================================================== *)
(** ** The transaction of the contract flow *)
(* ===================================================================== *)

Lemma backfill_encoded (initiator : string) (x : EncodeSwapResult.t) :
  EncodeSwapResult.encoded (backfill_initiator initiator x)
  = EncodeSwapResult.encoded x.
Proof. unfold backfill_initiator. destruct (negb _); reflexivity. Qed.

Lemma backfill_fromContract (initiator : string) (x : EncodeSwapResult.t) :
  EncodeSwapResult.fromContract (backfill_initiator initiator x)
  = EncodeSwapResult.fromContract x.
Proof. unfold backfill_initiator. destruct (negb _); reflexivity. Qed.

(** X18.  The transaction of the contract flow.  Every transaction the
    flow estimates or broadcasts carries the amount option converted to
    wei as its value and, as its first argument, the integer of the
    encoded swap the relayer returned to the encode request of this run.
    It is addressed to the wrapper given in the options when there is
    one.  When there is none, it is addressed either to a wrapper this
    run deployed (the deployment is a step of the run, and the address is
    the one the deployment returned) or to the non-empty address the
    relayer's encode answer named as [fromContract]: without a wrapper
    option, the relayer's answer can choose the contract that receives
    the value. *)
Theorem contract_flow_transaction (w : World) (o : BridgeOptions.t)
      (tx : Tx.t) (limit : Z) :
  In (EstimateGas tx) (trace (runContractBridge w o)) \/
  In (SendTransaction tx limit) (trace (runContractBridge w o)) ->
  parseEther w (BridgeOptions.amount o) = Returns (Tx.value tx) /\
  exists payload d x,
    axios_swap w payload = Returns d /\
    MesonApiResponse.result d = Some x /\
    In (Axios (PostSwap payload)) (trace (runContractBridge w o)) /\
    BigInt w (EncodeSwapResult.encoded x) = Returns (Tx.encodedSwap tx) /\
    (truthy (BridgeOptions.transferContract o) = true ->
     Tx.to tx = str (BridgeOptions.transferContract o)) /\
    (truthy (BridgeOptions.transferContract o) = false ->
     (exists mesonContractAddress,
         In (Deploy mesonContractAddress) (trace (runContractBridge w o)) /\
         factory_deploy w mesonContractAddress = Returns (Tx.to tx)) \/
     (EncodeSwapResult.fromContract x = Some (Tx.to tx) /\
      Tx.to tx <> EmptyString)).
Proof.
  destruct (runContractBridge w o) as [t r] eqn:Hrun.
  cbn [trace value fst snd]. revert Hrun.
  unfold runContractBridge. cbv zeta.
  run_flow; intros [= <- <-] [Htx|Htx].
  all: in_inv Htx.
  all: first [ injection Htx as <- | injection Htx as <- _ ].
  all: cbn [Tx.to Tx.encodedSwap Tx.initiator Tx.value].
  all: open_stage encodeSwap.
  all: rewrite ?backfill_encoded in *.
  all: (split; [first [reflexivity | assumption]|]).
  all: do 3 eexists; (split; [eassumption|]); (split; [eassumption|]);
    (split; [find_in|]); (split; [eassumption|]).
  all: repeat match goal with
              | E : (if _ then _ else _) = (_, _) |- _ =>
                  revert E; run_flow; intros [= <- <-]
              end.
  all: rewrite ?backfill_fromContract in *.
  all: destruct (truthy (BridgeOptions.transferContract o)) eqn:Htc;
    cbn [negb andb] in *; try discriminate.
  all: (split; intros Hx; try discriminate Hx).
  all: try reflexivity.
  all: try solve [ left; eexists; split; [find_in | eassumption] ].
  all: try congruence.
  all: try solve
         [ right;
           destruct (EncodeSwapResult.fromContract _) as [[|]|];
           cbn [truthy str] in *; try discriminate;
           split; [reflexivity | discriminate] ].
  all: try solve
         [ left;
           match goal with
           | E : deployTransferToMesonContract _ ?m ?k = (_, Ok ?a) |- _ =>
               exists m; cbn [str]; split;
               [ destruct (deployTransferToMesonContract_run _ _ _ _ _ E)
                   as [[_ [c Hc]]|[Ht _]];
                 [ discriminate Hc | rewrite Ht; find_in ]
               | apply (deployTransferToMesonContract_Ok w m k a);
                 rewrite E; reflexivity ]
           end ].
Qed.

(** With no wrapper option and no deployment asked for, a relayer that
    names [0xFROM] receives the call there. *)
Lemma contract_flow_transaction_witness :
  let w := Sample.with_axios_swap
             (fun p => Returns (MesonApiResponse.mk
                                  (Some (Sample.encoded_swap_with_fromContract p))
                                  None))
             Sample.world in
  let tx := Tx.mk "0xFROM" 2748 (Some "0xME") (100 * 10 ^ 18)%Z in
  parseEther w "100" = Returns (Tx.value tx) /\
  exists payload d x,
    axios_swap w payload = Returns d /\
    MesonApiResponse.result d = Some x /\
    EncodeSwapResult.fromContract x = Some "0xFROM".
Proof.
  intros w tx.
  destruct (contract_flow_transaction w Sample.options tx 120001)
    as (Hvalue & payload & d & x & Hd & Hx & _ & _ & _ & Hto).
  - right. vm_compute. repeat (first [left; reflexivity | right]).
  - split; [exact Hvalue|].
    exists payload, d, x. split; [exact Hd|]. split; [exact Hx|].
    destruct (Hto eq_refl) as [(m & _ & Hm)|[Hfrom _]].
    + vm_compute in Hm. discriminate Hm.
    + exact Hfrom.
Defined.

(* ===================================================================== *)
(** ** The key in the relayer-signed flow *)
(* ===================================================================== *)

(** The same options with another [--private-key]. *)
Definition with_privateKey (k : option string) (o : BridgeOptions.t)
  : BridgeOptions.t :=
  BridgeOptions.mk (BridgeOptions.from o) (BridgeOptions.to o)
    (BridgeOptions.amount o) (BridgeOptions.recipient o) k
    (BridgeOptions.dryRun o) (BridgeOptions.debug o)
    (BridgeOptions.mesonContract o) (BridgeOptions.transferContract o)
    (BridgeOptions.deployIfMissing o) (BridgeOptions.rpcUrl o).

Lemma bind_ext {A B} (m : M A) (k k' : A -> M B) :
  (forall a, k a = k' a) -> bind m k = bind m k'.
Proof.
  intros H. destruct m as [t [a|e]]; simpl; [rewrite H|]; reflexivity.
Qed.

(** X19.  The key of the relayer-signed flow is handed to the wallet and to
    its signing key, and the flow makes no other use of it: two non-empty
    keys to which the wallet gives the same address, or the same
    rejection, and the same signatures give the same run, event for event
    and with the same outcome.  This is relative to what the wallet
    answers.  A rejection by the wallet may itself quote the key, and the
    flow prints the rejections it meets; so the statement is not that the
    key can never be printed. *)
Theorem key_reaches_only_the_wallet (w : World) (o : BridgeOptions.t)
        (k1 k2 : string) :
  k1 <> EmptyString -> k2 <> EmptyString ->
  Wallet_address w k1 = Wallet_address w k2 ->
  (forall hash, signingKey_sign w k1 hash = signingKey_sign w k2 hash) ->
  runBridge w (with_privateKey (Some k1) o)
  = runBridge w (with_privateKey (Some k2) o).
Proof.
  intros Hk1 Hk2 Hw Hs.
  assert (Hd : deriveAddress w k1 = deriveAddress w k2).
  { unfold deriveAddress. rewrite Hw. reflexivity. }
  assert (Hsign : forall h, signMessageHash w h k1 = signMessageHash w h k2).
  { intros h. unfold signMessageHash. cbv zeta. rewrite Hw, Hs.
    reflexivity. }
  unfold runBridge, with_privateKey.
  cbn [BridgeOptions.from BridgeOptions.to BridgeOptions.amount
       BridgeOptions.recipient BridgeOptions.privateKey BridgeOptions.dryRun].
  cbv zeta. unfold js_or.
  destruct k1 as [|c1 k1]; [contradiction|].
  destruct k2 as [|c2 k2]; [contradiction|].
  cbn [truthy str negb]. rewrite Hd.
  repeat first
    [ rewrite Hsign
    | apply bind_ext; intros ?
    | match goal with
      | |- (if ?c then _ else _) = _ => destruct c
      end
    | reflexivity ].
Qed.

(** A wallet that reads a key with or without its [0x] prefix and quotes
    any other key in its rejection. *)
Definition prefixed (k : string) : string :=
  if String.eqb k "KEY" then "0xKEY" else k.

Definition world_of_prefixed_keys : World :=
  let w := Sample.world in
  mkWorld (PRIVATE_KEY w) (parseFloat w) (JSON_stringify w) (BigInt w)
    (parseEther w)
    (fun k => if String.eqb (prefixed k) "0xKEY" then Returns "0xME"
              else Throws ("invalid BytesLike value " ++ k))
    (fun k h => Returns ("sig:" ++ prefixed k ++ ":" ++ h))
    (axios_list w) (axios_limits w) (axios_swap w) (axios_swap_encoded w)
    (axios_swap_from_contract w) (factory_deploy w) (deployment_wait w)
    (populateTransaction w) (estimateGas w) (sendTransaction w)
    (response_wait w).

Lemma key_reaches_only_the_wallet_witness :
  runBridge world_of_prefixed_keys
    (with_privateKey (Some "0xKEY") Sample.options)
  = runBridge world_of_prefixed_keys
      (with_privateKey (Some "KEY") Sample.options).
Proof.
  apply key_reaches_only_the_wallet.
  - discriminate.
  - discriminate.
  - reflexivity.
  - intros hash. reflexivity.
Defined.

(* ===================================================================== *)
(** ** When the relayer-signed flow completes *)
(* ===================================================================== *)

(** Every step of the relayer-signed flow has succeeded: a key is there
    and makes a wallet, the options pass validation against the fetched
    registry and limits, the relayer encodes the swap and its answer has
    an encoded swap and a signing request, the hash is signed and, unless
    this is a dry run, the relayer accepts the submission. *)
Definition eoa_steps_succeed (w : World) (o : BridgeOptions.t) : Prop :=
  let key := js_or (BridgeOptions.privateKey o) (PRIVATE_KEY w) in
  truthy key = true /\
  exists fromAddress encodedData signingRequest signature,
    Wallet_address w (str key) = Returns fromAddress /\
    validated w o /\
    value (encodeSwap w (BridgeOptions.from o) (BridgeOptions.to o)
             (BridgeOptions.amount o) fromAddress (BridgeOptions.recipient o)
             None None) = Ok encodedData /\
    EncodeSwapResult.encoded encodedData <> EmptyString /\
    EncodeSwapResult.signingRequest encodedData = Some signingRequest /\
    signingKey_sign w (str key) (SigningRequest.hash signingRequest)
    = Returns signature /\
    (BridgeOptions.dryRun o = true \/
     exists swapResult,
       value (submitSwap w (EncodeSwapResult.encoded encodedData) fromAddress
                (BridgeOptions.recipient o) signature) = Ok swapResult).

Lemma value_of {A} (m : M A) t r : m = (t, r) -> value m = r.
Proof. intros ->. reflexivity. Qed.

Lemma runBridge_Ok_steps (w : World) (o : BridgeOptions.t) :
  value (runBridge w o) = Ok tt -> eoa_steps_succeed w o.
Proof.
  destruct (runBridge w o) as [t r] eqn:Hrun.
  cbn [trace value fst snd]. revert Hrun.
  unfold runBridge. cbv zeta.
  run_flow; intros [= <- <-]; intros Hr; try discriminate Hr.
  all: unfold eoa_steps_succeed; cbv zeta.
  all: split; [apply negb_false_iff; assumption|].
  all: match goal with
       | E : deriveAddress _ _ = (_, Ok _) |- _ =>
           pose proof (deriveAddress_returns _ _ _ _ E) as Haddress
       end.
  all: match goal with
       | E : _ || _ = false |- _ =>
           destruct (encoded_data_complete _ E) as (Hne & sr & Hsr & Hhash)
       end.
  all: match goal with
       | E : signMessageHash _ _ _ = (_, Ok _) |- _ =>
           pose proof (signMessageHash_Ok _ _ _ _ (value_of _ _ _ E)) as Hsig
       end.
  all: repeat match goal with
              | E : _ = (_, Ok _) |- _ => apply value_of in E
              end.
  all: repeat match goal with u : unit |- _ => destruct u end.
  all: do 4 eexists.
  all: split; [exact Haddress|].
  all: split; [do 2 eexists; repeat apply conj; eassumption|].
  all: split; [eassumption|].
  all: split; [exact Hne|].
  all: split; [exact Hsr|].
  all: split; [rewrite <- Hhash; exact Hsig|].
  all: first [ left; assumption | right; eexists; eassumption ].
Qed.

Lemma runBridge_steps_Ok (w : World) (o : BridgeOptions.t) :
  eoa_steps_succeed w o -> value (runBridge w o) = Ok tt.
Proof.
  unfold eoa_steps_succeed. cbv zeta.
  intros (Hkey & a & x & sr & s & Ha & (chains & limits & Hc & Hl & Hsrc
                                       & Hdst & Hamt)
          & Hx & Hne & Hsr & Hs & Hsub).
  assert (Hd : value (deriveAddress w (str (js_or (BridgeOptions.privateKey o)
                                                  (PRIVATE_KEY w)))) = Ok a).
  { unfold deriveAddress. rewrite Ha. reflexivity. }
  assert (Hsign : value (signMessageHash w (signingRequest_hash x)
                           (str (js_or (BridgeOptions.privateKey o)
                                       (PRIVATE_KEY w)))) = Ok s).
  { unfold signMessageHash, signingRequest_hash. cbv zeta.
    rewrite Ha, Hsr, value_bind. simpl. rewrite Hs. reflexivity. }
  assert (Hcheck : negb (nonempty (EncodeSwapResult.encoded x))
                   || negb (present (EncodeSwapResult.signingRequest x))
                   = false).
  { rewrite Hsr. destruct (EncodeSwapResult.encoded x);
      [contradiction | reflexivity]. }
  unfold runBridge. cbv zeta. rewrite Hkey. cbn [negb].
  unfold console_log.
  repeat first
    [ rewrite value_bind, Hd
    | rewrite value_bind, Hc
    | rewrite value_bind, Hl
    | rewrite value_bind, Hsrc
    | rewrite value_bind, Hdst
    | rewrite value_bind, Hamt
    | rewrite value_bind, Hx
    | rewrite value_bind, Hsign
    | rewrite Hcheck
    | rewrite value_bind; cbn [emit value snd] ].
  destruct Hsub as [-> | [sw Hsw]].
  - reflexivity.
  - destruct (BridgeOptions.dryRun o); [reflexivity|].
    rewrite value_bind. cbn [emit value snd].
    rewrite value_bind, Hsw. reflexivity.
Qed.

(** X20.  The relayer-signed flow completes exactly when every step of it
    succeeds: there is a key and it makes a wallet; the registry and the
    limits are fetched and the source pair, the destination pair and the
    amount pass validation; the relayer's answer to the encode request
    has a non-empty encoded swap and a signing request; the signing key
    signs the hash of that request; and, unless the run is a dry run, the
    relayer accepts the submission. *)
Theorem runBridge_completes (w : World) (o : BridgeOptions.t) :
  value (runBridge w o) = Ok tt <-> eoa_steps_succeed w o.
Proof.
  split; [apply runBridge_Ok_steps | apply runBridge_steps_Ok].
Qed.

(* ===================================================================== *)
(** ** When the contract flow completes, a wrapper being given *)
(* ===================================================================== *)

(** Every step of the contract flow has succeeded, for a run that is given
    the wrapper contract: a key is there and makes a wallet, the options
    pass validation, the relayer contract address is resolved, the relayer
    encodes the swap for the wrapper and its answer has an encoded swap,
    and, unless this is a dry run, the call of the wrapper with that
    answer, the initiator filled in when the relayer named none, returns
    a hash. *)
Definition contract_steps_succeed (w : World) (o : BridgeOptions.t) : Prop :=
  let key := js_or (BridgeOptions.privateKey o) (PRIVATE_KEY w) in
  let wrapper := BridgeOptions.transferContract o in
  truthy key = true /\
  exists fromAddress mesonContractAddress encodedData,
    Wallet_address w (str key) = Returns fromAddress /\
    validated w o /\
    resolved w o mesonContractAddress /\
    value (encodeSwap w (BridgeOptions.from o) (BridgeOptions.to o)
             (BridgeOptions.amount o) (str wrapper)
             (BridgeOptions.recipient o) (Some true) None) = Ok encodedData /\
    EncodeSwapResult.encoded encodedData <> EmptyString /\
    (BridgeOptions.dryRun o = true \/
     exists txHash,
       value (callTransferToMeson w mesonContractAddress
                (backfill_initiator fromAddress encodedData) (str key)
                (BridgeOptions.amount o) wrapper false) = Ok txHash).

Lemma js_or_truthy (a b : option string) :
  truthy a = true -> js_or a b = a.
Proof. intros H. unfold js_or. rewrite H. reflexivity. Qed.

Lemma callTransferToMeson_supplied (w : World) mesonContractAddress
      encodedSwap wallet amount transferContractAddress deployIfMissing :
  truthy transferContractAddress = true ->
  callTransferToMeson w mesonContractAddress encodedSwap wallet amount
    transferContractAddress deployIfMissing
  = callTransferToMeson w mesonContractAddress encodedSwap wallet amount
      transferContractAddress false.
Proof.
  intros H. unfold callTransferToMeson. cbv zeta. rewrite H. reflexivity.
Qed.

Lemma runContractBridge_Ok_steps (w : World) (o : BridgeOptions.t) :
  truthy (BridgeOptions.transferContract o) = true ->
  value (runContractBridge w o) = Ok tt -> contract_steps_succeed w o.
Proof.
  intros Htc.
  destruct (runContractBridge w o) as [t r] eqn:Hrun.
  cbn [trace value fst snd]. revert Hrun.
  unfold runContractBridge. cbv zeta. rewrite Htc. cbn [negb andb].
  run_flow; intros [= <- <-]; intros Hr; try discriminate Hr.
  all: repeat match goal with
              | E : (if _ then _ else _) = (_, _) |- _ =>
                  revert E; run_flow; intros [= <- <-]
              end.
  all: rewrite ?Htc in *; cbn [negb] in *; try discriminate.
  all: rewrite ?(js_or_truthy _ _ Htc) in *.
  all: repeat match goal with
              | E : callTransferToMeson _ _ _ _ _ _ _ = _ |- _ =>
                  rewrite (callTransferToMeson_supplied _ _ _ _ _ _ _ Htc) in E;
                  apply value_of in E
              | E : encodeSwap _ _ _ _ _ _ _ _ = _ |- _ => apply value_of in E
              end.
  all: match goal with
       | E : deriveAddress _ _ = (_, Ok _) |- _ =>
           pose proof (deriveAddress_returns _ _ _ _ E) as Haddress
       end.
  all: assert (Hvalid : validated w o)
    by (repeat match goal with
               | E : _ = (_, Ok _) |- _ => apply value_of in E
               end;
        repeat match goal with u : unit |- _ => destruct u end;
        do 2 eexists; repeat apply conj; eassumption).
  all: unfold contract_steps_succeed; cbv zeta.
  all: (split; [apply negb_false_iff; assumption|]).
  all: rewrite backfill_encoded in *.
  all: eexists;
    match goal with
    | H : truthy (BridgeOptions.mesonContract ?o) = true |- _ =>
        exists (str (BridgeOptions.mesonContract o))
    | H : truthy (BridgeOptions.mesonContract ?o) = false,
      E : getSupportedChains _ = (_, Ok ?chains) |- _ =>
        exists (str (findContractAddress chains
                       (chain_of (BridgeOptions.from o))))
    end;
    eexists.
  all: (split; [exact Haddress|]).
  all: (split; [exact Hvalid|]).
  all: (split;
        [ unfold resolved; cbv zeta;
          first
            [ left; split; [assumption | reflexivity]
            | right; split; [assumption|];
              match goal with
              | H : negb (truthy (findContractAddress ?chains ?c)) = false
                |- _ =>
                  apply negb_false_iff in H;
                  destruct (findContractAddress_truthy chains c H)
                    as (entry & Hentry & Haddr & Hne);
                  exists chains, entry;
                  split; [eapply value_of; eassumption|];
                  split; [exact Hentry|];
                  rewrite Haddr; split; [reflexivity | exact Hne]
              end ]
        | ]).
  all: (split; [eassumption|]).
  all: (split; [destruct (EncodeSwapResult.encoded _);
                [discriminate | discriminate]|]).
  all: first [ left; assumption | right; eexists; eassumption ].
Qed.

Lemma runContractBridge_steps_Ok (w : World) (o : BridgeOptions.t) :
  truthy (BridgeOptions.transferContract o) = true ->
  contract_steps_succeed w o -> value (runContractBridge w o) = Ok tt.
Proof.
  unfold contract_steps_succeed. cbv zeta.
  intros Htc (Hkey & a & m & x & Ha
              & (chains & limits & Hc & Hl & Hsrc & Hdst & Hamt)
              & Hres & Hx & Hne & Hcall).
  assert (Hd : value (deriveAddress w (str (js_or (BridgeOptions.privateKey o)
                                                  (PRIVATE_KEY w)))) = Ok a).
  { unfold deriveAddress. rewrite Ha. reflexivity. }
  assert (Hcheck : negb (nonempty (EncodeSwapResult.encoded
                                     (backfill_initiator a x))) = false).
  { rewrite backfill_encoded. destruct (EncodeSwapResult.encoded x);
      [contradiction | reflexivity]. }
  unfold runContractBridge. cbv zeta. rewrite Hkey, Htc. cbn [negb andb].
  unfold console_log.
  repeat first
    [ rewrite value_bind, Hd
    | rewrite value_bind, Hc
    | rewrite value_bind, Hl
    | rewrite value_bind, Hsrc
    | rewrite value_bind, Hdst
    | rewrite value_bind, Hamt
    | rewrite value_bind; cbn [emit value snd] ].
  assert (Hm : value
                 (if truthy (BridgeOptions.mesonContract o)
                  then
                    emit (ConsoleLog
                            ("Using meson contract address from --meson-contract parameter: "
                             ++ str (BridgeOptions.mesonContract o))) ;;
                    ret (str (BridgeOptions.mesonContract o))
                  else
                    emit (ConsoleLog
                            "No meson contract address provided, looking up from address field in chain data...") ;;
                    (if negb (truthy (findContractAddress chains
                                        (chain_of (BridgeOptions.from o))))
                     then throw (ContractAddressNotFoundError
                                   (chain_of (BridgeOptions.from o)))
                     else
                       emit (ConsoleLog
                               ("Found Meson contract address for "
                                ++ chain_of (BridgeOptions.from o) ++ ": "
                                ++ str (findContractAddress chains
                                          (chain_of (BridgeOptions.from o)))
                                ++ " (from chain data address field)")) ;;
                       ret (str (findContractAddress chains
                                   (chain_of (BridgeOptions.from o))))))
               = Ok m).
  { destruct Hres as [(Hmc & ->)|(Hmc & chains' & c & Hc' & Hfind & -> & Hne')];
      rewrite Hmc; [reflexivity|].
    rewrite Hc in Hc'. injection Hc' as <-.
    unfold findContractAddress. rewrite Hfind. cbn [truthy str].
    destruct (Chain.address c); [contradiction | reflexivity]. }
  rewrite Hm.
  rewrite value_bind. cbn [ret value snd].
  rewrite (js_or_truthy _ (Some a) Htc).
  repeat (rewrite value_bind; cbn [emit value snd]).
  rewrite Hx, Hcheck.
  repeat (rewrite value_bind; cbn [emit value snd]).
  rewrite Htc. cbn [negb].
  assert (Hfc : forall (c : bool) line,
             value (if c
                    then emit (ConsoleLog line) ;;
                         ret (BridgeOptions.transferContract o)
                    else ret (BridgeOptions.transferContract o))
             = Ok (BridgeOptions.transferContract o)).
  { intros [|] line; reflexivity. }
  rewrite Hfc. rewrite Htc. cbn [negb].
  rewrite (callTransferToMeson_supplied _ _ _ _ _ _ _ Htc).
  destruct Hcall as [-> | [txHash Hcall]].
  - reflexivity.
  - destruct (BridgeOptions.dryRun o); [reflexivity|].
    rewrite value_bind. cbn [emit value snd].
    rewrite value_bind, Hcall. reflexivity.
Qed.

(** X21.  With a wrapper contract given, the contract flow completes
    exactly when every step succeeds: there is a key and it makes a
    wallet; the options pass validation; the relayer contract address is
    the override or else the non-empty address of the source chain's
    registry entry; the relayer's answer to the encode request, made for
    the wrapper, has a non-empty encoded swap; and, unless the run is a
    dry run, the call of the wrapper returns a hash.  Then the wrapper
    named by the relayer's answer, if any, is not used, no deployment is
    attempted whatever the deploy flag says, and the initiator passed to
    the call is the relayer's or, when it named none, the wallet
    address. *)
Theorem runContractBridge_completes (w : World) (o : BridgeOptions.t) :
  truthy (BridgeOptions.transferContract o) = true ->
  (value (runContractBridge w o) = Ok tt <-> contract_steps_succeed w o).
Proof.
  intros Htc. split.
  - apply runContractBridge_Ok_steps. exact Htc.
  - apply runContractBridge_steps_Ok. exact Htc.
Qed.

Lemma runContractBridge_completes_witness :
  let o := Sample.with_transferContract (Some "0xTRANSFER") Sample.options in
  contract_steps_succeed Sample.world o.
Proof.
  intros o.
  apply (proj1 (runContractBridge_completes Sample.world o eq_refl)).
  vm_compute. reflexivity.
Defined.
